(** * The strand execution engine and the Bedrock invocation client

    A shallow embedding of [src/agents/strand_agent.py],
    [src/agents/learning_agent.py] ([should_continue]),
    [src/services/bedrock_service.py] and [src/utils/exceptions.py],
    followed by the properties of the specification that concern them.

    Conventions of the embedding.
    - A Python [str] is a [string]; a character is a code point below 256.
    - A Python [int] is a [Z].
    - A [dict] with string keys is a [gmap string _] when it is a field of
      an object, and an association list inside a dynamically typed value.
    - Objects of class [StrandContext] live in a store and are passed by
      reference, as in Python: an assignment to a field is visible through
      every alias of the object.
    - Code that may raise is written in a state-and-exception monad; a
      raised exception leaves the store as it was at the raise.
    - Calls to the structured logger are omitted: they have no effect on
      the values the properties speak of. *)

From stdpp Require Import base option gmap strings list pretty.
From Stdlib Require Import ZArith Ascii String Lia.

Open Scope string_scope.
Open Scope Z_scope.

(** ** Python strings *)

Module PyStr.

Definition code (c : ascii) : nat := nat_of_ascii c.

Definition between (lo hi n : nat) : bool := (lo <=? n)%nat && (n <=? hi)%nat.

(** [str.isspace] on one character, for code points below 256. *)
Definition is_space (c : ascii) : bool :=
  let n := code c in
  between 9 13 n || between 28 32 n || (n =? 133)%nat || (n =? 160)%nat.

Fixpoint lstrip (s : string) : string :=
  match s with
  | EmptyString => EmptyString
  | String c r => if is_space c then lstrip r else s
  end.

Definition reverse (s : string) : string :=
  string_of_list_ascii (rev (list_ascii_of_string s)).

Definition rstrip (s : string) : string := reverse (lstrip (reverse s)).

(** [s.strip()] *)
Definition strip (s : string) : string := rstrip (lstrip s).

(** [str.lower] on one character, for code points below 256. *)
Definition lower_char (c : ascii) : ascii :=
  let n := code c in
  if between 65 90 n || between 192 214 n || between 216 222 n
  then ascii_of_nat (n + 32) else c.

Fixpoint lower (s : string) : string :=
  match s with
  | EmptyString => EmptyString
  | String c r => String (lower_char c) (lower r)
  end.

(** [needle in hay] *)
Fixpoint contains (needle hay : string) : bool :=
  String.prefix needle hay ||
  match hay with
  | EmptyString => false
  | String _ r => contains needle r
  end.

(** ["".join(parts)] *)
Definition join (parts : list string) : string :=
  fold_right String.append EmptyString parts.

(** [str(n)] for an [int]. *)
Definition of_int (n : Z) : string := pretty n.

End PyStr.

(** ** Dynamically typed values ([Any]) *)

#[warnings="-register-all"]
Inductive pyval : Type :=
| PNone
| PBool (b : bool)
| PInt (n : Z)
| PStr (s : string)
| PList (items : list pyval)
| PDict (entries : list (string * pyval)).

(** Truth value of an object, as [bool(v)] and [not v] compute it. *)
Definition truthy (v : pyval) : bool :=
  match v with
  | PNone => false
  | PBool b => b
  | PInt n => negb (n =? 0)
  | PStr s => negb (String.eqb s "")
  | PList items => match items with [] => false | _ => true end
  | PDict entries => match entries with [] => false | _ => true end
  end.

(** [type(v).__name__] *)
Definition type_name (v : pyval) : string :=
  match v with
  | PNone => "NoneType"
  | PBool _ => "bool"
  | PInt _ => "int"
  | PStr _ => "str"
  | PList _ => "list"
  | PDict _ => "dict"
  end.

(** [d.get(key)] on a dict held as an association list; [None] when the
    key is absent. *)
Fixpoint dict_get (key : string) (entries : list (string * pyval)) : option pyval :=
  match entries with
  | [] => None
  | (k, v) :: rest => if String.eqb k key then Some v else dict_get key rest
  end.

(** [v == s] for a string literal [s]. *)
Definition eq_str (v : pyval) (s : string) : bool :=
  match v with
  | PStr t => String.eqb t s
  | _ => false
  end.

Definition opt_str (o : option string) : pyval :=
  match o with
  | Some s => PStr s
  | None => PNone
  end.

(** ** Timestamps ([datetime.datetime], naive) *)

Record datetime : Type := mkDatetime {
  year : Z; month : Z; day : Z;
  hour : Z; minute : Z; second : Z; microsecond : Z
}.

(** ** Exceptions ([src/utils/exceptions.py] and the ones of the libraries) *)

Inductive error_class : Type :=
| ConfigurationError
| ValidationError
| BedrockError
| AgentError
| AgentExecutionError
| AgentTimeoutError
| RateLimitError
| CacheError.

Inductive exn : Type :=
| GenAIAssistantError (cls : error_class) (message : string)
                      (details : list (string * pyval))
| ClientError (error_code error_message : option string) (text : string)
| ConnectionError (text : string)
| TimeoutError (text : string)
| Exception (cls : string) (text : string).

(** [str(e)] *)
Definition str_exn (e : exn) : string :=
  match e with
  | GenAIAssistantError _ message _ => message
  | ClientError _ _ text => text
  | ConnectionError text => text
  | TimeoutError text => text
  | Exception _ text => text
  end.

Definition details_of (e : exn) : list (string * pyval) :=
  match e with
  | GenAIAssistantError _ _ details => details
  | _ => []
  end.

(** ** Strand state, messages and contexts *)

Inductive StrandState : Type :=
| IDLE | RUNNING | PAUSED | COMPLETED | FAILED | TIMEOUT.

#[global] Instance StrandState_eq_dec : EqDecision StrandState.
Proof. solve_decision. Defined.

(** [state.value] *)
Definition state_value (s : StrandState) : string :=
  match s with
  | IDLE => "idle"
  | RUNNING => "running"
  | PAUSED => "paused"
  | COMPLETED => "completed"
  | FAILED => "failed"
  | TIMEOUT => "timeout"
  end.

Definition terminal (s : StrandState) : bool :=
  match s with
  | COMPLETED | FAILED | TIMEOUT => true
  | _ => false
  end.

Record StrandMessage : Type := mkMessage {
  role : string;
  content : string;
  timestamp : datetime;
  metadata : gmap string pyval
}.

Record StrandContext : Type := mkContext {
  strand_id : string;
  session_id : string;
  state : StrandState;
  messages : list StrandMessage;
  variables : gmap string pyval;
  iteration : Z;
  max_iterations : Z;
  start_time : option datetime;
  end_time : option datetime;
  error : option string
}.

(** Field assignments [c.f = v]. *)
Definition with_state (v : StrandState) (c : StrandContext) : StrandContext :=
  mkContext (strand_id c) (session_id c) v (messages c) (variables c)
            (iteration c) (max_iterations c) (start_time c) (end_time c) (error c).

Definition with_messages (v : list StrandMessage) (c : StrandContext) : StrandContext :=
  mkContext (strand_id c) (session_id c) (state c) v (variables c)
            (iteration c) (max_iterations c) (start_time c) (end_time c) (error c).

Definition with_variables (v : gmap string pyval) (c : StrandContext) : StrandContext :=
  mkContext (strand_id c) (session_id c) (state c) (messages c) v
            (iteration c) (max_iterations c) (start_time c) (end_time c) (error c).

Definition with_iteration (v : Z) (c : StrandContext) : StrandContext :=
  mkContext (strand_id c) (session_id c) (state c) (messages c) (variables c)
            v (max_iterations c) (start_time c) (end_time c) (error c).

Definition with_start_time (v : option datetime) (c : StrandContext) : StrandContext :=
  mkContext (strand_id c) (session_id c) (state c) (messages c) (variables c)
            (iteration c) (max_iterations c) v (end_time c) (error c).

Definition with_end_time (v : option datetime) (c : StrandContext) : StrandContext :=
  mkContext (strand_id c) (session_id c) (state c) (messages c) (variables c)
            (iteration c) (max_iterations c) (start_time c) v (error c).

Definition with_error (v : option string) (c : StrandContext) : StrandContext :=
  mkContext (strand_id c) (session_id c) (state c) (messages c) (variables c)
            (iteration c) (max_iterations c) (start_time c) (end_time c) v.

(** ** The store

    References to [StrandContext] objects are natural numbers.  The store
    also holds what the program reads from its environment: the clock
    behind [datetime.utcnow()] and the source of [uuid.uuid4()], each as
    the sequence of the values still to be read. *)

Definition ref : Type := nat.

Record store : Type := mkStore {
  heap : ref -> StrandContext;
  next_ref : ref;
  clock : nat -> datetime;
  uuids : nat -> string
}.

Definition update (r : ref) (f : StrandContext -> StrandContext) (s : store) : store :=
  mkStore (fun r' => if decide (r' = r) then f (heap s r) else heap s r')
          (next_ref s) (clock s) (uuids s).

(** ** Outcomes and the state-and-exception monad

    [OutOfFuel] is the outcome of a loop that was not given enough steps
    to finish; no Python code produces it. *)

Inductive outcome (A : Type) : Type :=
| Ret (a : A)
| Raise (e : exn)
| OutOfFuel.

Arguments Ret {A} a.
Arguments Raise {A} e.
Arguments OutOfFuel {A}.

Definition M (S A : Type) : Type := S -> outcome A * S.

Definition ret {S A} (a : A) : M S A := fun m => (Ret a, m).

Definition raise {S A} (e : exn) : M S A := fun m => (Raise e, m).

Definition out_of_fuel {S A} : M S A := fun m => (OutOfFuel, m).

Definition bind {S A B} (c : M S A) (k : A -> M S B) : M S B :=
  fun m =>
    match c m with
    | (Ret a, m') => k a m'
    | (Raise e, m') => (Raise e, m')
    | (OutOfFuel, m') => (OutOfFuel, m')
    end.

(** [try: body  except ... as e: handler e] *)
Definition try_except {S A} (body : M S A) (handler : exn -> M S A) : M S A :=
  fun m =>
    match body m with
    | (Raise e, m') => handler e m'
    | r => r
    end.

Notation "x <- c ;; k" := (bind c (fun x => k))
  (at level 100, c at next level, right associativity, only parsing).
Notation "c ;;; k" := (bind c (fun _ => k))
  (at level 100, right associativity, only parsing).

(** ** The machine of the engine: the store and the calls made to the
    step policy, in order *)

Inductive event : Type :=
| ShouldContinue (r : ref)
| ProcessStep (r : ref).

Record machine : Type := mkMachine {
  mem : store;
  trace : list event
}.

(** Reading and writing the store. *)
Definition read {A} (f : StrandContext -> A) (r : ref) : M machine A :=
  fun m => (Ret (f (heap (mem m) r)), m).

Definition assign (r : ref) (f : StrandContext -> StrandContext) : M machine unit :=
  fun m => (Ret tt, mkMachine (update r f (mem m)) (trace m)).

(** [datetime.utcnow()] *)
Definition utcnow : M machine datetime :=
  fun m =>
    let s := mem m in
    (Ret (clock s 0%nat),
     mkMachine (mkStore (heap s) (next_ref s) (fun n => clock s (S n)) (uuids s))
               (trace m)).

(** [str(uuid.uuid4())] *)
Definition uuid4 : M machine string :=
  fun m =>
    let s := mem m in
    (Ret (uuids s 0%nat),
     mkMachine (mkStore (heap s) (next_ref s) (clock s) (fun n => uuids s (S n)))
               (trace m)).

(** Allocation of a new object. *)
Definition alloc (c : StrandContext) : M machine ref :=
  fun m =>
    let s := mem m in
    let r := next_ref s in
    (Ret r,
     mkMachine (mkStore (fun r' => if decide (r' = r) then c else heap s r')
                        (S r) (clock s) (uuids s))
               (trace m)).

(** ** Settings ([src/config/settings.py]), the fields the core reads *)

Module Config.
Record Settings : Type := mkSettings {
  max_iterations : Z;
  agent_timeout : Z;
  bedrock_model_id : string;
  bedrock_agent_id : option string;
  bedrock_agent_alias_id : option string;
  bedrock_knowledge_base_id : option string
}.
End Config.

(** ** [StrandContext] methods *)

(** [StrandContext(max_iterations=n)]: the identifiers come from
    [uuid4], every other field has its default. *)
Definition new_context (n : Z) : M machine ref :=
  sid <- uuid4 ;;
  ssid <- uuid4 ;;
  alloc (mkContext sid ssid IDLE [] ∅ 0 n None None None).

(** [StrandContext.add_message] *)
Definition add_message (self : ref) (role content : string)
    (metadata : option (gmap string pyval)) : M machine unit :=
  now <- utcnow ;;
  let message := mkMessage role content now (default ∅ metadata) in
  assign self (fun c => with_messages (messages c ++ [message]) c).

(** [StrandContext.get_conversation_history] *)
Definition get_conversation_history (c : StrandContext) : list (string * string) :=
  map (fun msg => (role msg, content msg)) (messages c).

(** ** The step policy: the two abstract methods of [StrandAgent]

    A policy acts on the store and may raise.  The deadline that
    [asyncio.wait_for] puts on the loop belongs to the environment: when
    it elapses, the step that is suspended is cancelled and the loop ends
    with [TimeoutError], which is how a timed-out step shows here. *)

Record StepPolicy : Type := mkPolicy {
  process_step : ref -> store -> outcome ref * store;
  should_continue : ref -> store -> outcome bool * store
}.

Definition call_should_continue (P : StepPolicy) (r : ref) : M machine bool :=
  fun m =>
    let '(o, s) := should_continue P r (mem m) in
    (o, mkMachine s (trace m ++ [ShouldContinue r])).

Definition call_process_step (P : StepPolicy) (r : ref) : M machine ref :=
  fun m =>
    let '(o, s) := process_step P r (mem m) in
    (o, mkMachine s (trace m ++ [ProcessStep r])).

(** [asyncio.wait_for(body, timeout=timeout_seconds)].  With a timeout
    that is not positive the awaited coroutine is cancelled before it has
    run at all, and [TimeoutError] is raised at once.  The expiry of a
    positive timeout is the one that the policy shows (see above). *)
Definition wait_for {A} (timeout_seconds : Z) (body : M machine A) : M machine A :=
  if timeout_seconds <=? 0 then raise (TimeoutError "") else body.

(** ** [StrandAgent] *)

Section StrandAgent.

Variable settings : Config.Settings.
Variable P : StepPolicy.

(** [StrandAgent._execute_loop].  [fuel] bounds the number of passes of
    the [while]. *)
Fixpoint _execute_loop (fuel : nat) (context : ref) : M machine ref :=
  match fuel with
  | O => out_of_fuel
  | S fuel' =>
      continue <- call_should_continue P context ;;
      if (continue : bool) then
        it <- read iteration context ;;
        mx <- read max_iterations context ;;
        if mx <=? it then
          sid <- read strand_id context ;;
          raise (GenAIAssistantError AgentExecutionError
                   ("Maximum iterations (" ++ PyStr.of_int mx ++ ") exceeded")
                   [("strand_id", PStr sid); ("iterations", PInt it)])
        else
          context' <- call_process_step P context ;;
          assign context' (fun c => with_iteration (iteration c + 1) c) ;;;
          _execute_loop fuel' context'
      else ret context
  end.

(** [timeout or self.settings.agent_timeout] *)
Definition timeout_or_default (timeout : option Z) : Z :=
  match timeout with
  | Some t => if t =? 0 then Config.agent_timeout settings else t
  | None => Config.agent_timeout settings
  end.

(** [StrandAgent.execute], up to the [try]: the context is created or
    taken, the initial input is added to an empty history, the state
    becomes RUNNING and the start time is recorded. *)
Definition execute_prologue (initial_input : string) (context : option ref)
    : M machine ref :=
  context <- match context with
             | None => new_context (Config.max_iterations settings)
             | Some r => ret r
             end ;;
  msgs <- read messages context ;;
  match msgs with
  | [] => add_message context "user" initial_input None
  | _ => ret tt
  end ;;;
  assign context (with_state RUNNING) ;;;
  now <- utcnow ;;
  assign context (with_start_time (Some now)) ;;;
  ret context.

(** The body of the [try] of [StrandAgent.execute].  The duration that
    the completion log line computes is [end_time - start_time] of the
    returned object, which raises [TypeError] when that object has no
    start time. *)
Definition execute_try (fuel : nat) (context : ref) (timeout : option Z)
    : M machine ref :=
  let timeout_seconds := timeout_or_default timeout in
  result <- wait_for timeout_seconds (_execute_loop fuel context) ;;
  assign result (with_state COMPLETED) ;;;
  now <- utcnow ;;
  assign result (with_end_time (Some now)) ;;;
  st <- read start_time result ;;
  match st with
  | Some _ => ret result
  | None =>
      raise (Exception "TypeError"
               "unsupported operand type(s) for -: 'datetime.datetime' and 'NoneType'")
  end.

(** The two [except] clauses of [StrandAgent.execute]:
    [asyncio.TimeoutError] first, then [Exception]. *)
Definition execute_except (context : ref) (timeout_seconds : Z) (e : exn)
    : M machine ref :=
  match e with
  | TimeoutError _ =>
      assign context (with_state TIMEOUT) ;;;
      now <- utcnow ;;
      assign context (with_end_time (Some now)) ;;;
      assign context
        (with_error (Some ("Execution timed out after "
                             ++ PyStr.of_int timeout_seconds ++ " seconds"))) ;;;
      sid <- read strand_id context ;;
      raise (GenAIAssistantError AgentTimeoutError
               ("Strand execution timed out after "
                  ++ PyStr.of_int timeout_seconds ++ " seconds")
               [("strand_id", PStr sid); ("timeout", PInt timeout_seconds)])
  | _ =>
      assign context (with_state FAILED) ;;;
      now <- utcnow ;;
      assign context (with_end_time (Some now)) ;;;
      assign context (with_error (Some (str_exn e))) ;;;
      sid <- read strand_id context ;;
      raise (GenAIAssistantError AgentExecutionError
               ("Strand execution failed: " ++ str_exn e)
               [("strand_id", PStr sid); ("error", PStr (str_exn e))])
  end.

(** The [try] statement of [StrandAgent.execute]. *)
Definition execute_guarded (fuel : nat) (context : ref) (timeout : option Z)
    : M machine ref :=
  try_except (execute_try fuel context timeout)
             (execute_except context (timeout_or_default timeout)).

(** [StrandAgent.execute] *)
Definition execute (fuel : nat) (initial_input : string) (context : option ref)
    (timeout : option Z) : M machine ref :=
  context <- execute_prologue initial_input context ;;
  execute_guarded fuel context timeout.

(** [StrandAgent.pause] *)
Definition pause (context : ref) : M machine unit :=
  assign context (with_state PAUSED).

(** [StrandAgent.resume] *)
Definition resume (fuel : nat) (context : ref) : M machine ref :=
  st <- read state context ;;
  if decide (st = PAUSED) then execute fuel "" (Some context) None
  else
    sid <- read strand_id context ;;
    raise (GenAIAssistantError AgentExecutionError
             "Cannot resume strand that is not paused"
             [("strand_id", PStr sid); ("state", PStr (state_value st))]).

End StrandAgent.

(** ** [StrandAgent.invoke_model]: the text of a model response *)

Definition lift {S A} (o : outcome A) : M S A := fun m => (o, m).

(** The [AttributeError] of an object that lacks the attribute [name]. *)
Definition no_attribute {A} (v : pyval) (name : string) : outcome A :=
  Raise (Exception "AttributeError"
           ("'" ++ type_name v ++ "' object has no attribute '" ++ name ++ "'")).

(** The generator [block.get("text", "") for block in content_blocks if
    block.get("type") == "text"]: every block must have a [get], the
    blocks of another type are skipped. *)
Fixpoint text_items (blocks : list pyval) : outcome (list pyval) :=
  match blocks with
  | [] => Ret []
  | PDict entries :: rest =>
      match text_items rest with
      | Ret items =>
          if eq_str (default PNone (dict_get "type" entries)) "text"
          then Ret (default (PStr "") (dict_get "text" entries) :: items)
          else Ret items
      | r => r
      end
  | block :: _ => no_attribute block "get"
  end.

(** [str.join] accepts strings only; its error names the position of the
    first item that is not one. *)
Fixpoint all_str_from (position : nat) (items : list pyval) : outcome (list string) :=
  match items with
  | [] => Ret []
  | PStr s :: rest =>
      match all_str_from (S position) rest with
      | Ret parts => Ret (s :: parts)
      | r => r
      end
  | item :: _ =>
      Raise (Exception "TypeError"
               ("sequence item " ++ pretty position ++ ": expected str instance, "
                  ++ type_name item ++ " found"))
  end.

Definition all_str (items : list pyval) : outcome (list string) :=
  all_str_from 0 items.

(** Iteration over [response["content"]]: a list gives its items, an
    empty string or dict gives nothing, the items of a non-empty string
    or dict are strings, any other value is not iterable. *)
Definition iterate (v : pyval) : outcome (list pyval) :=
  match v with
  | PList items => Ret items
  | PStr s => Ret (map (fun c => PStr (String c EmptyString)) (list_ascii_of_string s))
  | PDict entries => Ret (map (fun kv => PStr (fst kv)) entries)
  | _ => Raise (Exception "TypeError" ("'" ++ type_name v ++ "' object is not iterable"))
  end.

Definition response_text (response : list (string * pyval)) : outcome string :=
  match dict_get "content" response with
  | Some content_blocks =>
      match iterate content_blocks with
      | Ret blocks =>
          match text_items blocks with
          | Ret items =>
              match all_str items with
              | Ret parts => Ret (PyStr.strip (PyStr.join parts))
              | Raise e => Raise e
              | OutOfFuel => OutOfFuel
              end
          | Raise e => Raise e
          | OutOfFuel => OutOfFuel
          end
      | Raise e => Raise e
      | OutOfFuel => OutOfFuel
      end
  | None => Ret ""
  end.

(** [StrandAgent.invoke_model]; [service] is
    [self.bedrock_service.invoke_model]. *)
Definition invoke_model {S}
    (service : string -> option string -> M S (list (string * pyval)))
    (prompt : string) (system_prompt : option string) : M S string :=
  try_except
    (response <- service prompt system_prompt ;;
     lift (response_text response))
    (fun e =>
       raise (GenAIAssistantError AgentExecutionError
                ("Model invocation failed: " ++ str_exn e)
                [("error", PStr (str_exn e))])).

(** ** [LearningAgent.should_continue] *)

Module LearningAgent.

Definition completion_phrases : list string :=
  [ "learning session complete";
    "you've mastered";
    "congratulations on completing";
    "assessment complete" ].

Definition should_continue (context : ref) (s : store) : outcome bool * store :=
  let c := heap s context in
  match variables c !! "learning_complete" with
  | Some v => (Ret (negb (truthy v)), s)
  | None =>
      let assistant_messages :=
        filter (fun msg => role msg = "assistant") (messages c) in
      let under_budget := iteration c <? max_iterations c in
      match last assistant_messages with
      | Some msg =>
          let last_response := PyStr.lower (content msg) in
          if existsb (fun phrase => PyStr.contains phrase last_response)
                     completion_phrases
          then
            (Ret false,
             update context
               (fun c => with_variables
                           (<["learning_complete" := PBool true]> (variables c)) c)
               s)
          else (Ret under_budget, s)
      | None => (Ret under_budget, s)
      end
  end.

End LearningAgent.

(** ** [BedrockService] ([src/services/bedrock_service.py]) *)

Module Bedrock.

(** What one call of the remote endpoint comes to: a body, read and
    decoded, or an exception raised by the client library or by the
    decoding. *)
Inductive reply : Type :=
| Answer (body : pyval)
| Fault (e : exn).

(** The network as the service sees it: the replies still to come, the
    operations sent to the endpoint so far and the delays slept between
    attempts, both in order. *)
Record net : Type := mkNet {
  endpoint : nat -> reply;
  attempted : list string;
  sleeps : list Z
}.

(** One call of a client operation, run in the executor. *)
Definition call_endpoint (operation : string) : M net pyval :=
  fun n =>
    let n' := mkNet (fun i => endpoint n (S i))
                    (attempted n ++ [operation]) (sleeps n) in
    match endpoint n 0%nat with
    | Answer body => (Ret body, n')
    | Fault e => (Raise e, n')
    end.

(** [await asyncio.sleep(d)] *)
Definition sleep (d : Z) : M net unit :=
  fun n => (Ret tt, mkNet (endpoint n) (attempted n) (sleeps n ++ [d])).

(** *** The [tenacity] decorator

    [@retry(retry=retry_if_exception_type((ClientError, ConnectionError)),
            stop=stop_after_attempt(3),
            wait=wait_exponential(multiplier=1, min=2, max=10),
            reraise=True)] *)

Definition retry_if_exception_type (e : exn) : bool :=
  match e with
  | ClientError _ _ _ | ConnectionError _ => true
  | _ => false
  end.

Definition stop_after_attempt (max_attempt_number attempt_number : nat) : bool :=
  (max_attempt_number <=? attempt_number)%nat.

(** The wait after attempt [attempt_number]:
    [max(max(0, min), min(multiplier * 2 ** (attempt_number - 1), max))]. *)
Definition wait_exponential (multiplier min max : Z) (attempt_number : nat) : Z :=
  Z.max (Z.max 0 min) (Z.min (multiplier * 2 ^ (Z.of_nat attempt_number - 1)) max).

(** The retry controller from attempt [attempt_number] on: call the
    function; a result is returned; an exception that is not of a
    retried type is raised as it is; an exception of a retried type is
    raised when the stop condition holds ([reraise=True]), else the
    controller sleeps and starts the next attempt. *)
Fixpoint retrying {A} (fuel : nat) (attempt_number : nat) (fn : M net A) : M net A :=
  fun n =>
    match fn n with
    | (Raise e, n') =>
        if retry_if_exception_type e then
          if stop_after_attempt 3 attempt_number then (Raise e, n')
          else
            match fuel with
            | O => (OutOfFuel, n')
            | S fuel' =>
                (sleep (wait_exponential 1 2 10 attempt_number) ;;;
                 retrying fuel' (S attempt_number) fn) n'
            end
        else (Raise e, n')
    | r => r
    end.

Definition retry {A} (fn : M net A) : M net A := retrying 3 1 fn.

(** *** The methods *)

Definition no_get {A} (v : pyval) : outcome A := no_attribute v "get".

(** [key in v] for a string [key]: a key of a dict, a substring of a
    string, an item of a list. *)
Definition contains_key (key : string) (v : pyval) : outcome bool :=
  match v with
  | PDict entries =>
      Ret match dict_get key entries with
          | Some _ => true
          | None => false
          end
  | PStr s => Ret (PyStr.contains key s)
  | PList items => Ret (existsb (fun x => eq_str x key) items)
  | _ => Raise (Exception "TypeError"
                  ("argument of type '" ++ type_name v ++ "' is not iterable"))
  end.

(** [v[key]] for a string [key] *)
Definition item (v : pyval) (key : string) : outcome pyval :=
  match v with
  | PDict entries =>
      match dict_get key entries with
      | Some x => Ret x
      | None => Raise (Exception "KeyError" ("'" ++ key ++ "'"))
      end
  | PStr _ => Raise (Exception "TypeError" "string indices must be integers, not 'str'")
  | PList _ =>
      Raise (Exception "TypeError" "list indices must be integers or slices, not str")
  | _ => Raise (Exception "TypeError"
                  ("'" ++ type_name v ++ "' object is not subscriptable"))
  end.

(** [len(v)] *)
Definition len (v : pyval) : outcome Z :=
  match v with
  | PList items => Ret (Z.of_nat (List.length items))
  | PStr s => Ret (Z.of_nat (String.length s))
  | PDict entries => Ret (Z.of_nat (List.length entries))
  | _ => Raise (Exception "TypeError"
                  ("object of type '" ++ type_name v ++ "' has no len()"))
  end.

(** [response_body.get("usage", {}).get(key, 0)] *)
Definition usage_counter (response_body : pyval) (key : string) : outcome pyval :=
  match response_body with
  | PDict entries =>
      match default (PDict []) (dict_get "usage" entries) with
      | PDict usage => Ret (default (PInt 0) (dict_get key usage))
      | usage => no_get usage
      end
  | _ => no_get response_body
  end.

(** The body of [BedrockService.invoke_model].  The request body holds
    the arguments and the sampling settings; building and encoding it
    does not fail. *)
Definition invoke_model_body (prompt : string) (system_prompt : option string)
    : M net (list (string * pyval)) :=
  try_except
    (response_body <- call_endpoint "invoke_model" ;;
     lift (usage_counter response_body "input_tokens") ;;;
     lift (usage_counter response_body "output_tokens") ;;;
     match response_body with
     | PDict entries => ret entries
     | _ => lift (no_get response_body)
     end)
    (fun e =>
       match e with
       | ClientError code message text =>
           let error_code := default "Unknown" code in
           let error_message := default text message in
           raise (GenAIAssistantError BedrockError
                    ("Bedrock model invocation failed: " ++ error_message)
                    [("error_code", PStr error_code);
                     ("error_message", PStr error_message)])
       | _ =>
           raise (GenAIAssistantError BedrockError
                    ("Unexpected error: " ++ str_exn e)
                    [("error", PStr (str_exn e))])
       end).

(** [BedrockService.invoke_model] *)
Definition invoke_model (prompt : string) (system_prompt : option string)
    : M net (list (string * pyval)) :=
  retry (invoke_model_body prompt system_prompt).

(** [not value] for an optional string setting. *)
Definition unset (value : option string) : bool :=
  match value with
  | None => true
  | Some s => String.eqb s ""
  end.

(** One event of an agent completion: [completion] and [traces] after
    it.  The payload of a chunk is held as its decoded text.  The two
    tests are containment tests, so an event that is a string or a list
    without the word is passed over. *)
Definition agent_event (enable_trace : bool) (event : pyval)
    (acc : string * list pyval) : outcome (string * list pyval) :=
  match contains_key "chunk" event with
  | Ret has_chunk =>
      let with_chunk :=
        if has_chunk then
          match item event "chunk" with
          | Ret (PDict chunk) =>
              match default (PStr "") (dict_get "bytes" chunk) with
              | PStr text => Ret (fst acc ++ text)
              | payload => no_attribute payload "decode"
              end
          | Ret chunk => no_get chunk
          | Raise e => Raise e
          | OutOfFuel => OutOfFuel
          end
        else Ret (fst acc) in
      match with_chunk with
      | Ret completion =>
          match contains_key "trace" event with
          | Ret has_trace =>
              if has_trace && enable_trace then
                match item event "trace" with
                | Ret t => Ret (completion, (snd acc ++ [t])%list)
                | Raise e => Raise e
                | OutOfFuel => OutOfFuel
                end
              else Ret (completion, snd acc)
          | Raise e => Raise e
          | OutOfFuel => OutOfFuel
          end
      | Raise e => Raise e
      | OutOfFuel => OutOfFuel
      end
  | Raise e => Raise e
  | OutOfFuel => OutOfFuel
  end.

Fixpoint agent_events (enable_trace : bool) (events : list pyval)
    (acc : string * list pyval) : outcome (string * list pyval) :=
  match events with
  | [] => Ret acc
  | event :: rest =>
      match agent_event enable_trace event acc with
      | Ret acc' => agent_events enable_trace rest acc'
      | r => r
      end
  end.

Section Methods.

Variable settings : Config.Settings.

(** The body of [BedrockService.invoke_agent]. *)
Definition invoke_agent_body (input_text session_id : string)
    (enable_trace : bool) : M net pyval :=
  if unset (Config.bedrock_agent_id settings)
     || unset (Config.bedrock_agent_alias_id settings)
  then
    raise (GenAIAssistantError BedrockError
             "Bedrock Agent ID and Alias ID must be configured"
             [("agent_id", opt_str (Config.bedrock_agent_id settings))])
  else
    try_except
      (response <- call_endpoint "invoke_agent" ;;
       events <- lift (match response with
                       | PDict entries =>
                           iterate (default (PList []) (dict_get "completion" entries))
                       | _ => no_get response
                       end) ;;
       out <- lift (agent_events enable_trace events ("", [])) ;;
       ret (PDict [("completion", PStr (fst out));
                   ("traces", PList (snd out));
                   ("session_id", PStr session_id)]))
      (fun e =>
         match e with
         | ClientError code message text =>
             let error_code := default "Unknown" code in
             let error_message := default text message in
             raise (GenAIAssistantError BedrockError
                      ("Agent invocation failed: " ++ error_message)
                      [("error_code", PStr error_code);
                       ("error_message", PStr error_message)])
         | _ => raise e
         end).

(** [BedrockService.invoke_agent] *)
Definition invoke_agent (input_text session_id : string) (enable_trace : bool)
    : M net pyval :=
  retry (invoke_agent_body input_text session_id enable_trace).

(** [BedrockService.retrieve_from_knowledge_base] *)
Definition retrieve_from_knowledge_base (query : string) (max_results : Z)
    : M net pyval :=
  if unset (Config.bedrock_knowledge_base_id settings)
  then
    raise (GenAIAssistantError BedrockError
             "Knowledge Base ID must be configured"
             [("knowledge_base_id", PNone)])
  else
    try_except
      (response <- call_endpoint "retrieve" ;;
       results <- lift (match response with
                        | PDict entries =>
                            Ret (default (PList []) (dict_get "retrievalResults" entries))
                        | _ => no_get response
                        end) ;;
       lift (len results) ;;;
       ret results)
      (fun e =>
         match e with
         | ClientError code message text =>
             let error_code := default "Unknown" code in
             let error_message := default text message in
             raise (GenAIAssistantError BedrockError
                      ("Knowledge base retrieval failed: " ++ error_message)
                      [("error_code", PStr error_code);
                       ("error_message", PStr error_message)])
         | _ => raise e
         end).

End Methods.

End Bedrock.

(** ** Serialization ([to_dict]) *)

(** [datetime.isoformat()] of a naive timestamp:
    [YYYY-MM-DDTHH:MM:SS], followed by [.ffffff] when the microsecond is
    not zero. *)
Module Iso.

Definition digit_char (d : Z) : ascii := ascii_of_nat (48 + Z.to_nat d).

(** [n] in decimal on [width] digits, zero padded. *)
Fixpoint digits (width : nat) (n : Z) : string :=
  match width with
  | O => EmptyString
  | S w => String (digit_char ((n / 10 ^ Z.of_nat w) mod 10)) (digits w n)
  end.

Definition isoformat (d : datetime) : string :=
  digits 4 (year d) ++ "-" ++ digits 2 (month d) ++ "-" ++ digits 2 (day d)
    ++ "T" ++ digits 2 (hour d) ++ ":" ++ digits 2 (minute d)
    ++ ":" ++ digits 2 (second d)
    ++ (if microsecond d =? 0 then "" else "." ++ digits 6 (microsecond d)).

(** The ranges that the [datetime] constructor enforces (the day is
    bounded by 31 whatever the month). *)
Definition valid (d : datetime) : Prop :=
  1 <= year d <= 9999 /\ 1 <= month d <= 12 /\ 1 <= day d <= 31 /\
  0 <= hour d <= 23 /\ 0 <= minute d <= 59 /\ 0 <= second d <= 59 /\
  0 <= microsecond d <= 999999.

End Iso.

(** The transport shape: the dicts that [to_dict] builds, as records
    whose fields are the keys. *)
Module Wire.

Record Message : Type := mkMessage {
  role : string;
  content : string;
  timestamp : string;
  metadata : gmap string pyval
}.

Record Context : Type := mkContext {
  strand_id : string;
  session_id : string;
  state : string;
  messages : list Message;
  variables : gmap string pyval;
  iteration : Z;
  max_iterations : Z;
  start_time : option string;
  end_time : option string;
  error : option string
}.

End Wire.

(** [StrandMessage.to_dict] *)
Definition StrandMessage_to_dict (self : StrandMessage) : Wire.Message :=
  Wire.mkMessage (role self) (content self)
                 (Iso.isoformat (timestamp self)) (metadata self).

(** [StrandContext.to_dict] *)
Definition StrandContext_to_dict (self : StrandContext) : Wire.Context :=
  Wire.mkContext (strand_id self) (session_id self)
                 (state_value (state self))
                 (map StrandMessage_to_dict (messages self))
                 (variables self)
                 (iteration self) (max_iterations self)
                 (Iso.isoformat <$> start_time self)
                 (Iso.isoformat <$> end_time self)
                 (error self).

(** ** Deserialization *)

Module FromWire.

Definition digit_value (c : ascii) : option Z :=
  let n := nat_of_ascii c in
  if (48 <=? n)%nat && (n <=? 57)%nat then Some (Z.of_nat (n - 48)) else None.

(** Reads exactly [width] decimal digits. *)
Fixpoint read_digits (width : nat) (acc : Z) (s : string) : option (Z * string) :=
  match width with
  | O => Some (acc, s)
  | S w =>
      match s with
      | String c r =>
          match digit_value c with
          | Some d => read_digits w (10 * acc + d) r
          | None => None
          end
      | EmptyString => None
      end
  end.

(** Reads the character [c]. *)
Definition expect (c : ascii) (s : string) : option string :=
  match s with
  | String c' r => if Ascii.eqb c c' then Some r else None
  | EmptyString => None
  end.

(** Modelled from the spec: the inverse of the ISO-8601 timestamps of
    the transport shape ([datetime.fromisoformat] on the two forms that
    [isoformat] produces); the repository has no deserializer. *)
Definition fromisoformat (s : string) : option datetime :=
  '(y, s) ← read_digits 4 0 s;
  s ← expect "-" s;
  '(mo, s) ← read_digits 2 0 s;
  s ← expect "-" s;
  '(d, s) ← read_digits 2 0 s;
  s ← expect "T" s;
  '(h, s) ← read_digits 2 0 s;
  s ← expect ":" s;
  '(mi, s) ← read_digits 2 0 s;
  s ← expect ":" s;
  '(sec, s) ← read_digits 2 0 s;
  match s with
  | EmptyString => Some (mkDatetime y mo d h mi sec 0)
  | _ =>
      s ← expect "." s;
      '(us, s) ← read_digits 6 0 s;
      match s with
      | EmptyString => Some (mkDatetime y mo d h mi sec us)
      | _ => None
      end
  end.

(** Modelled from the spec: [StrandState(value)], the state of a state
    name. *)
Definition state_of_value (v : string) : option StrandState :=
  if String.eqb v "idle" then Some IDLE
  else if String.eqb v "running" then Some RUNNING
  else if String.eqb v "paused" then Some PAUSED
  else if String.eqb v "completed" then Some COMPLETED
  else if String.eqb v "failed" then Some FAILED
  else if String.eqb v "timeout" then Some TIMEOUT
  else None.

(** Modelled from the spec: a nullable ISO-8601 timestamp. *)
Definition nullable_time (o : option string) : option (option datetime) :=
  match o with
  | None => Some None
  | Some s => Some <$> fromisoformat s
  end.

(** Modelled from the spec: a message of the transport shape read back
    (role, text, ISO-8601 timestamp, metadata map). *)
Definition message_from_dict (d : Wire.Message) : option StrandMessage :=
  t ← fromisoformat (Wire.timestamp d);
  Some (mkMessage (Wire.role d) (Wire.content d) t (Wire.metadata d)).

(** Modelled from the spec: a context of the transport shape read back,
    field by field; the repository has no deserializer. *)
Definition context_from_dict (d : Wire.Context) : option StrandContext :=
  st ← state_of_value (Wire.state d);
  msgs ← mapM message_from_dict (Wire.messages d);
  t0 ← nullable_time (Wire.start_time d);
  t1 ← nullable_time (Wire.end_time d);
  Some (mkContext (Wire.strand_id d) (Wire.session_id d) st msgs
                  (Wire.variables d) (Wire.iteration d) (Wire.max_iterations d)
                  t0 t1 (Wire.error d)).

End FromWire.

(** ** Sample data *)

Module Sample.

(** A clock that ticks one second per reading. *)
Definition seconds (n : nat) : datetime :=
  mkDatetime 2024 1 1 0 0 (Z.of_nat n) 0.

Definition ids (n : nat) : string := "id-" ++ pretty n.

Definition greeting : StrandMessage := mkMessage "user" "hi" (seconds 0) ∅.

(** A context with one user message, in the given state, at the given
    iteration, with a budget of three steps. *)
Definition context (st : StrandState) (it : Z) : StrandContext :=
  mkContext "strand-1" "session-1" st [greeting] ∅ it 3 None None None.

(** A machine whose store holds [c] at every reference. *)
Definition machine_of (c : StrandContext) : machine :=
  mkMachine (mkStore (fun _ => c) 1%nat (fun n => seconds (10 + n)) ids) [].

Definition settings : Config.Settings :=
  Config.mkSettings 10 300 "anthropic.claude-3-sonnet-20240229-v1:0" None None None.

(** A policy that always continues and whose step appends an assistant
    message to the context it is given. *)
Definition echo : StepPolicy :=
  mkPolicy
    (fun r s =>
       (Ret r,
        update r (fun c => with_messages
                             (messages c ++ [mkMessage "assistant" "ok" (seconds 1) ∅]) c)
               s))
    (fun r s => (Ret true, s)).

(** A policy that stops at once. *)
Definition idle : StepPolicy :=
  mkPolicy (fun r s => (Ret r, s)) (fun r s => (Ret false, s)).

(** A policy whose step raises. *)
Definition failing : StepPolicy :=
  mkPolicy (fun r s => (Raise (Exception "ValueError" "bad input"), s))
           (fun r s => (Ret true, s)).

(** A policy whose step is cancelled by the deadline. *)
Definition slow : StepPolicy :=
  mkPolicy (fun r s => (Raise (TimeoutError ""), s))
           (fun r s => (Ret true, s)).

(** A running context that was started at second 0. *)
Definition running : StrandContext :=
  mkContext "strand-1" "session-1" RUNNING [greeting] ∅ 1 3 (Some (seconds 0)) None None.

(** A running context with an empty history. *)
Definition silent : StrandContext :=
  mkContext "strand-1" "session-1" RUNNING [] ∅ 0 3 (Some (seconds 0)) None None.

(** A context whose latest assistant message announces completion. *)
Definition finished : StrandContext :=
  mkContext "strand-1" "session-1" RUNNING
            [greeting; mkMessage "assistant" "Well done. Learning Session Complete!" (seconds 1) ∅]
            ∅ 1 3 (Some (seconds 0)) None None.

(** A model response with one text block. *)
Definition hello_body : pyval :=
  PDict [("content", PList [PDict [("type", PStr "text"); ("text", PStr "hello")]]);
         ("usage", PDict [("input_tokens", PInt 10); ("output_tokens", PInt 20)])].

(** An endpoint whose first two calls fail with a connection error and
    whose later calls answer [body]. *)
Definition flaky (body : pyval) : Bedrock.net :=
  Bedrock.mkNet
    (fun i => match i with
              | O | S O => Bedrock.Fault (ConnectionError "connection reset")
              | _ => Bedrock.Answer body
              end)
    [] [].

(** An endpoint that rejects every call as malformed. *)
Definition rejecting : Bedrock.net :=
  Bedrock.mkNet
    (fun _ => Bedrock.Fault (ClientError (Some "ValidationException")
                                          (Some "malformed request") "An error occurred"))
    [] [].

(** Settings with an agent and its alias configured. *)
Definition with_agent : Config.Settings :=
  Config.mkSettings 10 300 "anthropic.claude-3-sonnet-20240229-v1:0"
                    (Some "agent-1") (Some "alias-1") None.

(** A service that answers every call with [response]. *)
Definition answering (response : list (string * pyval))
    : string -> option string -> M unit (list (string * pyval)) :=
  fun _ _ => ret response.

(** A response with two text blocks around a block of another type. *)
Definition mixed_blocks : list (list (string * pyval)) :=
  [ [("type", PStr "text"); ("text", PStr " Hello ")];
    [("type", PStr "tool_use"); ("text", PStr "ignored"); ("id", PStr "t1")];
    [("type", PStr "text"); ("text", PStr "world
")] ].

(** A completed context with a variable and timestamps that have
    microseconds. *)
Definition archived : StrandContext :=
  mkContext "strand-1" "session-1" COMPLETED
            [greeting;
             mkMessage "assistant" "ok" (mkDatetime 2024 3 5 7 8 9 250000)
                       {["iteration" := PInt 0]}]
            {["learning_goal" := PStr "concept_explanation"]}
            1 3 (Some (seconds 0)) (Some (mkDatetime 2024 3 5 7 8 10 1)) None.

End Sample.

(** ** Vocabulary of the statements *)

(** The policy's [should_continue] answers true and changes nothing. *)
Definition always_continues (P : StepPolicy) : Prop :=
  forall r s, should_continue P r s = (Ret true, s).

(** The policy's [process_step] returns the context it was given and
    leaves the iteration counter and the budget of that context alone. *)
Definition steps_in_place (P : StepPolicy) : Prop :=
  forall r s,
    fst (process_step P r s) = Ret r /\
    iteration (heap (snd (process_step P r s)) r) = iteration (heap s r) /\
    max_iterations (heap (snd (process_step P r s)) r) = max_iterations (heap s r).

(** [k] passes of the loop on [r]: a check followed by a step, [k] times. *)
Fixpoint rounds (k : nat) (r : ref) : list event :=
  match k with
  | O => []
  | S k' => ShouldContinue r :: ProcessStep r :: rounds k' r
  end.

Definition is_process_step (e : event) : bool :=
  match e with
  | ProcessStep _ => true
  | ShouldContinue _ => false
  end.

(** The number of calls of [process_step] in a trace. *)
Definition process_step_calls (t : list event) : nat :=
  List.length (List.filter is_process_step t).

(** The error of the budget check of [_execute_loop]. *)
Definition budget_exceeded (n : Z) (sid : string) : exn :=
  GenAIAssistantError AgentExecutionError
    ("Maximum iterations (" ++ PyStr.of_int n ++ ") exceeded")
    [("strand_id", PStr sid); ("iterations", PInt n)].

(** The context [c] with a terminal state, an end time and an error text
    recorded on it, every other field as in [c]. *)
Definition ended (st : StrandState) (now : datetime) (text : string)
    (c : StrandContext) : StrandContext :=
  with_error (Some text) (with_end_time (Some now) (with_state st c)).

(** The reference that [execute] works on: the one it is given, or the one
    it allocates. *)
Definition context_of (context : option ref) (m : machine) : ref :=
  match context with
  | Some r => r
  | None => next_ref (mem m)
  end.

(** The reading of a list of content blocks that the specification
    gives: the blocks whose type is ["text"], in order, each for its text,
    the concatenation stripped of surrounding whitespace. *)
Definition is_text_block (block : list (string * pyval)) : bool :=
  eq_str (default PNone (dict_get "type" block)) "text".

Definition block_text (block : list (string * pyval)) : string :=
  match dict_get "text" block with
  | Some (PStr s) => s
  | _ => ""
  end.

Definition text_of_blocks (blocks : list (list (string * pyval))) : string :=
  PyStr.strip (PyStr.join (map block_text (List.filter is_text_block blocks))).

(** The text of a text block, when it has one, is a string. *)
Definition well_formed_block (block : list (string * pyval)) : bool :=
  negb (is_text_block block) ||
  match dict_get "text" block with
  | Some (PStr _) | None => true
  | Some _ => false
  end.

(** Every timestamp of the context is one that [datetime] can hold. *)
Definition valid_context (c : StrandContext) : Prop :=
  Forall (fun msg => Iso.valid (timestamp msg)) (messages c) /\
  (forall t, start_time c = Some t -> Iso.valid t) /\
  (forall t, end_time c = Some t -> Iso.valid t).

(** ** Vocabulary of the statements: the passes of the loop *)

(** The store after [k] passes of the loop on [r] under a policy whose
    check changes nothing: each pass runs the step and advances the
    counter. *)
Fixpoint after_steps (P : StepPolicy) (k : nat) (r : ref) (s : store) : store :=
  match k with
  | O => s
  | S k' =>
      after_steps P k' r
        (update r (fun c => with_iteration (iteration c + 1) c) (snd (process_step P r s)))
  end.

(** One full pass of the loop.  From the context [r] on the machine [m]
    the check says yes, the budget is not used up and the step returns
    [r'], whose counter is then advanced. *)
Inductive pass (P : StepPolicy) (r : ref) (m : machine) : ref -> machine -> Prop :=
| pass_intro s1 r' s2 :
    should_continue P r (mem m) = (Ret true, s1) ->
    iteration (heap s1 r) < max_iterations (heap s1 r) ->
    process_step P r s1 = (Ret r', s2) ->
    pass P r m r'
         (mkMachine (update r' (fun c => with_iteration (iteration c + 1) c) s2)
                    (trace m ++ [ShouldContinue r; ProcessStep r])).

(** [k] full passes in a row. *)
Inductive passes (P : StepPolicy) : nat -> ref -> machine -> ref -> machine -> Prop :=
| passes_O r m : passes P 0 r m r m
| passes_S k r m r1 m1 r2 m2 :
    pass P r m r1 m1 -> passes P k r1 m1 r2 m2 -> passes P (S k) r m r2 m2.

(** The pass that starts from [r] on [m] fails with [e] and leaves the
    machine [m']: the check raises, or the budget is used up, or the step
    raises (which is also how the expiry of the deadline shows). *)
Inductive fails (P : StepPolicy) (r : ref) (m : machine) : exn -> machine -> Prop :=
| check_raises e s1 :
    should_continue P r (mem m) = (Raise e, s1) ->
    fails P r m e (mkMachine s1 (trace m ++ [ShouldContinue r]))
| budget_used_up s1 :
    should_continue P r (mem m) = (Ret true, s1) ->
    max_iterations (heap s1 r) <= iteration (heap s1 r) ->
    fails P r m
          (GenAIAssistantError AgentExecutionError
             ("Maximum iterations (" ++ PyStr.of_int (max_iterations (heap s1 r))
                ++ ") exceeded")
             [("strand_id", PStr (strand_id (heap s1 r)));
              ("iterations", PInt (iteration (heap s1 r)))])
          (mkMachine s1 (trace m ++ [ShouldContinue r]))
| step_raises e s1 s2 :
    should_continue P r (mem m) = (Ret true, s1) ->
    iteration (heap s1 r) < max_iterations (heap s1 r) ->
    process_step P r s1 = (Raise e, s2) ->
    fails P r m e (mkMachine s2 (trace m ++ [ShouldContinue r; ProcessStep r])).

(** What [execute] makes of the failure [e] that left the machine [m2]:
    [out] is the outcome and the machine of [execute], [r] the context it
    works on, [T] the timeout in seconds. *)
Definition failure_reported (r : ref) (T : Z) (e : exn) (m2 : machine)
    (out : outcome ref * machine) : Prop :=
  ((exists text, e = TimeoutError text) /\
   fst out =
     Raise (GenAIAssistantError AgentTimeoutError
              ("Strand execution timed out after " ++ PyStr.of_int T ++ " seconds")
              [("strand_id", PStr (strand_id (heap (mem m2) r))); ("timeout", PInt T)]) /\
   heap (mem (snd out)) r =
     ended TIMEOUT (clock (mem m2) 0%nat)
           ("Execution timed out after " ++ PyStr.of_int T ++ " seconds")
           (heap (mem m2) r)
   \/
   (forall text, e <> TimeoutError text) /\
   fst out =
     Raise (GenAIAssistantError AgentExecutionError
              ("Strand execution failed: " ++ str_exn e)
              [("strand_id", PStr (strand_id (heap (mem m2) r)));
               ("error", PStr (str_exn e))]) /\
   heap (mem (snd out)) r =
     ended FAILED (clock (mem m2) 0%nat) (str_exn e) (heap (mem m2) r)) /\
  (forall r', r' <> r -> heap (mem (snd out)) r' = heap (mem m2) r') /\
  trace (snd out) = trace m2.

(** The policy's [should_continue] leaves the iteration counter and the
    budget of its context alone. *)
Definition check_keeps_counters (P : StepPolicy) : Prop :=
  forall r s,
    iteration (heap (snd (should_continue P r s)) r) = iteration (heap s r) /\
    max_iterations (heap (snd (should_continue P r s)) r) = max_iterations (heap s r).

(** Every call of the policy ends. *)
Definition policy_ends (P : StepPolicy) : Prop :=
  forall r s,
    fst (should_continue P r s) <> OutOfFuel /\ fst (process_step P r s) <> OutOfFuel.

(** The latest assistant message of the context announces completion: its
    text, in lower case, contains one of the completion phrases. *)
Definition announces_completion (c : StrandContext) : bool :=
  match last (filter (fun msg => role msg = "assistant") (messages c)) with
  | Some msg =>
      existsb (fun phrase => PyStr.contains phrase (PyStr.lower (content msg)))
              LearningAgent.completion_phrases
  | None => false
  end.

Module Sample5.

(** A policy that always continues and whose step succeeds on a context
    at iteration 0 and raises on any other. *)
Definition fails_later : StepPolicy :=
  mkPolicy
    (fun r s =>
       if iteration (heap s r) =? 0 then (Ret r, s)
       else (Raise (Exception "ValueError" "bad input"), s))
    (fun r s => (Ret true, s)).

(** A policy that always continues and whose step takes back the
    iteration that the loop is about to count. *)
Definition rewinding : StepPolicy :=
  mkPolicy
    (fun r s => (Ret r, update r (fun c => with_iteration (iteration c - 1) c) s))
    (fun r s => (Ret true, s)).

End Sample5.

(** ** Further vocabulary: policies *)

(** The policy's [should_continue] changes nothing in the store. *)
Definition pure_check (P : StepPolicy) : Prop :=
  forall r s, snd (should_continue P r s) = s.

(** When the policy's [process_step] returns, it returns the context it
    was given, with the iteration counter and the budget as they were. *)
Definition steps_keep_counters (P : StepPolicy) : Prop :=
  forall r s r',
    fst (process_step P r s) = Ret r' ->
    r' = r /\
    iteration (heap (snd (process_step P r s)) r) = iteration (heap s r) /\
    max_iterations (heap (snd (process_step P r s)) r) = max_iterations (heap s r).

(** The steps left in the budget of a context. *)
Definition steps_left (c : StrandContext) : nat :=
  Z.to_nat (max_iterations c - iteration c).

Module Sample2.

(** A policy that continues while the counter of the context at hand is
    zero, and whose step hands back another object, number 7. *)
Definition detour : StepPolicy :=
  mkPolicy (fun r s => (Ret 7%nat, s))
           (fun r s => (Ret (iteration (heap s r) =? 0), s)).

(** A policy that takes two steps and then declines. *)
Definition two_steps : StepPolicy :=
  mkPolicy (fun r s => (Ret r, s))
           (fun r s => (Ret (iteration (heap s r) <? 2), s)).

End Sample2.

(** ** Further vocabulary: the network *)

(** A computation that leaves the state as it found it. *)
Definition stateless {S A} (c : M S A) : Prop :=
  forall s, snd (c s) = s.

(** The network after [k] more calls of operation [op] separated by the
    delays [ds]. *)
Definition after_calls (op : string) (k : nat) (ds : list Z) (n : Bedrock.net)
    : Bedrock.net :=
  Bedrock.mkNet (fun i => Bedrock.endpoint n (k + i)%nat)
                (Bedrock.attempted n ++ repeat op k)
                (Bedrock.sleeps n ++ ds).

Module Sample3.

(** An endpoint that is never reachable. *)
Definition unreachable : Bedrock.net :=
  Bedrock.mkNet (fun i => Bedrock.Fault (ConnectionError ("no route, try " ++ pretty i)))
                [] [].

(** Settings with an agent, its alias and a knowledge base configured. *)
Definition configured : Config.Settings :=
  Config.mkSettings 10 300 "anthropic.claude-3-sonnet-20240229-v1:0"
                    (Some "agent-1") (Some "alias-1") (Some "kb-1").

(** Three events of an agent completion: a chunk, a trace, and an event
    with both. *)
Definition events : list (list (string * pyval)) :=
  [ [("chunk", PDict [("bytes", PStr "Hel")])];
    [("trace", PStr "step 1")];
    [("chunk", PDict [("bytes", PStr "lo")]); ("trace", PStr "step 2")] ].

Definition completion : list (string * pyval) :=
  [("completion", PList (map PDict events))].

(** An endpoint that answers every call with that completion. *)
Definition chatty : Bedrock.net :=
  Bedrock.mkNet (fun _ => Bedrock.Answer (PDict completion)) [] [].

(** A model that answers every prompt with the text [ok]. *)
Definition agreeable
    : string -> option string -> store -> outcome (list (string * pyval)) * store :=
  fun _ _ s => (Ret [("content", PList [PDict [("type", PStr "text"); ("text", PStr "ok")]])], s).

(** A model that cannot be reached. *)
Definition offline
    : string -> option string -> store -> outcome (list (string * pyval)) * store :=
  fun _ _ s => (Raise (GenAIAssistantError BedrockError "Unexpected error: down" []), s).

End Sample3.

(** The reading of the events of an agent completion: the text of an
    event is the payload of its chunk, its trace is its ["trace"] entry. *)
Definition event_text (event : list (string * pyval)) : string :=
  match dict_get "chunk" event with
  | Some (PDict chunk) =>
      match dict_get "bytes" chunk with
      | Some (PStr text) => text
      | _ => ""
      end
  | _ => ""
  end.

Definition event_trace (event : list (string * pyval)) : option pyval :=
  dict_get "trace" event.

(** The chunk of an event, when it has one, is a dict whose payload, when
    it has one, is text. *)
Definition well_formed_event (event : list (string * pyval)) : bool :=
  match dict_get "chunk" event with
  | Some (PDict chunk) =>
      match dict_get "bytes" chunk with
      | Some (PStr _) | None => true
      | Some _ => false
      end
  | Some _ => false
  | None => true
  end.

(** The exception is not a [ClientError]. *)
Definition not_client_error (e : exn) : bool :=
  match e with
  | ClientError _ _ _ => false
  | _ => true
  end.

(** The traces that [invoke_agent] collects from the events. *)
Definition event_traces (enable_trace : bool) (events : list (list (string * pyval)))
    : list pyval :=
  if enable_trace then omap event_trace events else [].

(** ** [LearningAgent], continued ([src/agents/learning_agent.py]) *)

Module Learning.

(** [LearningGoal] and its values. *)
Inductive LearningGoal : Type :=
| CONCEPT_EXPLANATION
| PROBLEM_SOLVING
| CODE_REVIEW
| GUIDED_PRACTICE
| ASSESSMENT
| PERSONALIZED_LEARNING_PATH.

Definition goal_value (g : LearningGoal) : string :=
  match g with
  | CONCEPT_EXPLANATION => "concept_explanation"
  | PROBLEM_SOLVING => "problem_solving"
  | CODE_REVIEW => "code_review"
  | GUIDED_PRACTICE => "guided_practice"
  | ASSESSMENT => "assessment"
  | PERSONALIZED_LEARNING_PATH => "personalized_learning_path"
  end.

(** [any(word in text for word in words)] *)
Definition any_in (words : list string) (text : string) : bool :=
  existsb (fun word => PyStr.contains word text) words.

(** [LearningAgent._identify_learning_goal] *)
Definition _identify_learning_goal (user_input : string) : string :=
  let user_input_lower := PyStr.lower user_input in
  if any_in ["explain"; "what is"; "how does"; "understand"] user_input_lower
  then goal_value CONCEPT_EXPLANATION
  else if any_in ["solve"; "problem"; "help me with"] user_input_lower
  then goal_value PROBLEM_SOLVING
  else if any_in ["review"; "feedback"; "look at my code"] user_input_lower
  then goal_value CODE_REVIEW
  else if any_in ["practice"; "exercise"; "quiz"] user_input_lower
  then goal_value GUIDED_PRACTICE
  else if any_in ["test"; "assess"; "evaluate"] user_input_lower
  then goal_value ASSESSMENT
  else if any_in ["learn"; "study plan"; "roadmap"] user_input_lower
  then goal_value PERSONALIZED_LEARNING_PATH
  else goal_value CONCEPT_EXPLANATION.

(** [LearningAgent._build_system_prompt] *)
Definition system_prompt : string :=
  "You are an advanced AI Learning Assistant powered by AWS Bedrock. Your role is to provide
personalized, adaptive educational support to learners of all levels.

Core Capabilities:
1. Concept Explanation: Break down complex topics into digestible parts
2. Problem Solving: Guide learners through problem-solving processes
3. Code Review: Analyze and provide constructive feedback on code
4. Guided Practice: Offer step-by-step practice exercises
5. Assessment: Evaluate understanding and provide feedback
6. Personalized Learning Paths: Create customized learning journeys

Principles:
- Adapt to the learner's level and pace
- Use the Socratic method when appropriate
- Provide clear, concrete examples
- Encourage critical thinking and self-discovery
- Give constructive, actionable feedback
- Break complex topics into manageable chunks
- Validate understanding before moving forward

Communication Style:
- Clear, concise, and encouraging
- Use analogies and real-world examples
- Ask probing questions to assess understanding
- Celebrate progress and provide positive reinforcement

When responding:
1. First, understand the learner's current level and goal
2. Assess what they already know
3. Provide targeted instruction or guidance
4. Check for understanding
5. Adjust approach based on their responses
".

(** The double quote. *)
Definition dq : string := String (ascii_of_nat 34) EmptyString.

(** [v + 1], and [v += 1] when [inplace]. *)
Definition plus_one (inplace : bool) (v : pyval) : outcome pyval :=
  let op := if inplace then "+=" else "+" in
  match v with
  | PInt n => Ret (PInt (n + 1))
  | PBool b => Ret (PInt ((if b then 1 else 0) + 1))
  | PStr _ =>
      Raise (Exception "TypeError"
               ("can only concatenate str (not " ++ dq ++ "int" ++ dq ++ ") to str"))
  | PList _ =>
      Raise (Exception "TypeError"
               (if inplace then "'int' object is not iterable"
                else "can only concatenate list (not " ++ dq ++ "int" ++ dq ++ ") to list"))
  | PNone =>
      Raise (Exception "TypeError"
               ("unsupported operand type(s) for " ++ op ++ ": 'NoneType' and 'int'"))
  | PDict _ =>
      Raise (Exception "TypeError"
               ("unsupported operand type(s) for " ++ op ++ ": 'dict' and 'int'"))
  end.

(** [v[key]] for a string key. *)
Definition getitem (v : pyval) (key : string) : outcome pyval :=
  match v with
  | PDict entries =>
      match dict_get key entries with
      | Some x => Ret x
      | None => Raise (Exception "KeyError" ("'" ++ key ++ "'"))
      end
  | PList _ =>
      Raise (Exception "TypeError" "list indices must be integers or slices, not str")
  | PStr _ => Raise (Exception "TypeError" "string indices must be integers, not 'str'")
  | PNone => Raise (Exception "TypeError" "'NoneType' object is not subscriptable")
  | PInt _ => Raise (Exception "TypeError" "'int' object is not subscriptable")
  | PBool _ => Raise (Exception "TypeError" "'bool' object is not subscriptable")
  end.

(** [d[key] = v] on a dict held as an association list: the entry keeps
    its place, a new key goes last. *)
Fixpoint dict_set (key : string) (v : pyval) (entries : list (string * pyval))
    : list (string * pyval) :=
  match entries with
  | [] => [(key, v)]
  | (k, x) :: rest =>
      if String.eqb k key then (k, v) :: rest else (k, x) :: dict_set key v rest
  end.

(** The progress record that [_update_learning_progress] starts from. *)
Definition new_progress : pyval :=
  PDict [("topics_covered", PList []);
         ("questions_asked", PInt 0);
         ("concepts_explained", PInt 0);
         ("problems_solved", PInt 0)].

(** [context.variables[key] = v] *)
Definition set_variable (context : ref) (key : string) (v : pyval) : M machine unit :=
  assign context (fun c => with_variables (<[key := v]> (variables c)) c).

(** [LearningAgent._update_learning_progress] *)
Definition _update_learning_progress (context : ref) (response : string)
    : M machine unit :=
  vars <- read variables context ;;
  progress <- match vars !! "progress" with
              | Some p => ret p
              | None => set_variable context "progress" new_progress ;;; ret new_progress
              end ;;
  (if PyStr.contains "?" response then
     asked <- lift (getitem progress "questions_asked") ;;
     asked' <- lift (plus_one true asked) ;;
     match progress with
     | PDict entries =>
         set_variable context "progress" (PDict (dict_set "questions_asked" asked' entries))
     | _ => ret tt
     end
   else ret tt) ;;;
  if any_in ["you understand"; "well done"; "excellent work"; "mastered"]
            (PyStr.lower response)
  then
    vars <- read variables context ;;
    level <- lift (plus_one false (default (PInt 0) (vars !! "comprehension_level"))) ;;
    set_variable context "comprehension_level" level
  else ret tt.

(** [messages[-5:]] *)
Definition last_five (msgs : list StrandMessage) : list StrandMessage :=
  drop (List.length msgs - 5) msgs.

Section Agent.

(** [str.upper] and the formatting of a value in an f-string are the
    language's own; their results need not stay within the code points
    below 256, and they are parameters here. *)
Variable upper : string -> string.
Variable format : pyval -> string.

(** The model behind [self.bedrock_service.invoke_model], as it acts on
    the store. *)
Variable service : string -> option string -> store -> outcome (list (string * pyval)) * store.

Definition newline : string := String (ascii_of_nat 10) EmptyString.

(** [LearningAgent._build_learning_prompt] *)
Definition _build_learning_prompt (c : StrandContext) (user_message : string)
    (learning_goal : pyval) : string :=
  let history :=
    if (1 <? List.length (messages c))%nat then
      fold_left (fun h msg => h ++ upper (role msg) ++ ": " ++ content msg ++ newline)
                (last_five (messages c))
                (newline ++ newline ++ "Conversation History:" ++ newline)
    else "" in
  let goal_context := newline ++ "Learning Goal: " ++ format learning_goal ++ newline in
  let profile_context :=
    match variables c !! "learner_level" with
    | Some level => newline ++ "Learner Level: " ++ format level ++ newline
    | None => ""
    end in
  let profile_context :=
    match variables c !! "learning_preferences" with
    | Some prefs => profile_context ++ "Learning Preferences: " ++ format prefs ++ newline
    | None => profile_context
    end in
  goal_context ++ profile_context ++ history
    ++ "

Current User Input: " ++ user_message
    ++ "

Please provide a response that:
1. Addresses the user's specific question or need
2. Is appropriate for their learning goal: " ++ format learning_goal
    ++ "
3. Builds on the conversation history
4. Checks for understanding when appropriate
5. Provides next steps or asks clarifying questions

Response:".

Definition call_service (prompt : string) (system : option string)
    : M machine (list (string * pyval)) :=
  fun m =>
    let '(o, s) := service prompt system (mem m) in
    (o, mkMachine s (trace m)).

(** The body of the [try] of [LearningAgent.process_step]. *)
Definition process_step_try (context : ref) : M machine ref :=
  msgs <- read messages context ;;
  let user_messages := filter (fun msg => role msg = "user") msgs in
  match last user_messages with
  | None =>
      sid <- read strand_id context ;;
      raise (GenAIAssistantError AgentExecutionError
               "No user message found in context"
               [("strand_id", PStr sid)])
  | Some latest =>
      let latest_message := content latest in
      vars <- read variables context ;;
      learning_goal <-
        match vars !! "learning_goal" with
        | Some goal => ret goal
        | None =>
            let goal := PStr (_identify_learning_goal latest_message) in
            set_variable context "learning_goal" goal ;;; ret goal
        end ;;
      c <- read (fun c => c) context ;;
      let prompt := _build_learning_prompt c latest_message learning_goal in
      response <- invoke_model call_service prompt (Some system_prompt) ;;
      it <- read iteration context ;;
      add_message context "assistant" response
                  (Some {["learning_goal" := learning_goal; "iteration" := PInt it]}) ;;;
      _update_learning_progress context response ;;;
      ret context
  end.

(** [LearningAgent.process_step] *)
Definition process_step (context : ref) : M machine ref :=
  try_except (process_step_try context)
    (fun e =>
       sid <- read strand_id context ;;
       raise (GenAIAssistantError AgentExecutionError
                ("Failed to process learning step: " ++ str_exn e)
                [("strand_id", PStr sid); ("error", PStr (str_exn e))])).

(** A computation of the engine run on a store alone. *)
Definition on_store {A} (c : M machine A) (s : store) : outcome A * store :=
  let '(o, m) := c (mkMachine s []) in (o, mem m).

(** The learning agent as a step policy.  The deadline of [execute] is
    not part of it: a step of this policy is never cancelled. *)
Definition policy : StepPolicy :=
  mkPolicy (fun r => on_store (process_step r)) LearningAgent.should_continue.

End Agent.

End Learning.

(** ** Further vocabulary: what a learning step may change *)

(** The variables that the learning agent keeps its books in, and those
    among them that hold the progress. *)
Definition progress_key (k : string) : bool :=
  String.eqb k "progress" || String.eqb k "comprehension_level".

Definition bookkeeping_key (k : string) : bool :=
  String.eqb k "learning_goal" || progress_key k.

(** From [m] to [m'] the trace and every context but [r] are unchanged,
    and of [r] nothing has changed but the variables under the keys
    [keys] and the messages, which have only gained assistant messages at
    the end, and none at all unless [may_append]. *)
Definition confined (keys : string -> bool) (may_append : bool) (r : ref)
    (m m' : machine) : Prop :=
  let c := heap (mem m) r in
  let c' := heap (mem m') r in
  trace m' = trace m /\
  (forall r', r' <> r -> heap (mem m') r' = heap (mem m) r') /\
  with_variables (variables c) (with_messages (messages c) c') = c /\
  (exists extra,
      messages c' = (messages c ++ extra)%list /\
      Forall (fun msg => role msg = "assistant") extra /\
      (may_append = false -> extra = [])) /\
  (forall k, keys k = false -> variables c' !! k = variables c !! k).

(** What a learning step may do to its context [r]. *)
Definition append_only (r : ref) (m m' : machine) : Prop :=
  confined bookkeeping_key true r m m'.

(** The computation [c] stays [confined] on [r], and what it returns
    satisfies [Q]. *)
Definition step_spec {A} (keys : string -> bool) (may_append : bool) (r : ref)
    (Q : A -> Prop) (c : M machine A) : Prop :=
  forall m,
    confined keys may_append r m (snd (c m)) /\
    match fst (c m) with
    | Ret a => Q a
    | _ => True
    end.

(** The computation always ends. *)
Definition total {S A} (c : M S A) : Prop :=
  forall s, fst (c s) <> OutOfFuel.

(** The model service has no hold on the contexts. *)
Definition keeps_heap
    (service : string -> option string -> store -> outcome (list (string * pyval)) * store)
    : Prop :=
  forall prompt system s, heap (snd (service prompt system s)) = heap s.

(** [learning_complete] is not set to a false value. *)
Definition not_marked_incomplete (c : StrandContext) : Prop :=
  match variables c !! "learning_complete" with
  | Some v => truthy v = true
  | None => True
  end.

(** ** Further vocabulary: runs of the learning agent *)

(** [learning_complete] is set to a false value. *)
Definition marked_incomplete (c : StrandContext) : Prop :=
  exists v, variables c !! "learning_complete" = Some v /\ truthy v = false.

(** Every call of the model service ends. *)
Definition service_ends
    (service : string -> option string -> store -> outcome (list (string * pyval)) * store)
    : Prop :=
  forall prompt system s, fst (service prompt system s) <> OutOfFuel.

(** The text of the error of the budget check of [_execute_loop]. *)
Definition budget_text (n : Z) : string :=
  "Maximum iterations (" ++ PyStr.of_int n ++ ") exceeded".

Module Sample4.

(** A context that was handed over with [learning_complete] set to
    [False]. *)
Definition reopened : StrandContext :=
  mkContext "strand-1" "session-1" IDLE [Sample.greeting]
            {["learning_complete" := PBool false]} 0 3 None None None.

End Sample4.


(** [should_continue] declines on the context [r] and writes nothing:
    the learning agent has nothing more to do on it. *)
Definition settled (r : ref) (s : store) : Prop :=
  LearningAgent.should_continue r s = (Ret false, s).


(** ** [LearningAgent.ask_question] ([src/agents/learning_agent.py]) and
    the [/ask] route ([src/api/routes.py]) *)

(** The agent object: the engine it runs on and its [_active_contexts]
    attribute, which does not exist until a first question has been
    answered.  The attribute maps session identifiers to context
    objects. *)
Record agent : Type := mkAgent {
  engine : machine;
  _active_contexts : option (gmap string ref)
}.

(** A computation of the engine, run by the agent. *)
Definition on_engine {A} (c : M machine A) : M agent A :=
  fun a => let '(o, m) := c (engine a) in (o, mkAgent m (_active_contexts a)).

(** [if session_id and hasattr(self, "_active_contexts"):
       context = self._active_contexts.get(session_id)] *)
Definition known_context (sid : option string) (a : agent) : option ref :=
  match sid, _active_contexts a with
  | Some id, Some known => if String.eqb id "" then None else known !! id
  | _, _ => None
  end.

(** [if not hasattr(self, "_active_contexts"): self._active_contexts = {}]
    and [self._active_contexts[id] = context] *)
Definition keep_context (id : string) (context : ref) : M agent unit :=
  fun a =>
    (Ret tt,
     mkAgent (engine a) (Some (<[id := context]> (default ∅ (_active_contexts a))))).

(** The dict that [ask_question] returns for the context [c]. *)
Definition answer_of (c : StrandContext) : list (string * pyval) :=
  let assistant_messages := filter (fun msg => role msg = "assistant") (messages c) in
  let latest_response := last assistant_messages in
  [("answer", PStr match latest_response with
                   | Some msg => content msg
                   | None => ""
                   end);
   ("session_id", PStr (session_id c));
   ("strand_id", PStr (strand_id c));
   ("learning_goal", default PNone (variables c !! "learning_goal"));
   ("iteration", PInt (iteration c));
   ("complete", default (PBool false) (variables c !! "learning_complete"))].

Section AskQuestion.

Variable settings : Config.Settings.
Variable P : StepPolicy.

(** [LearningAgent.ask_question] *)
Definition ask_question (fuel : nat) (question : string) (sid : option string)
    : M agent (list (string * pyval)) :=
  fun a =>
    (result_context <-
       on_engine (execute settings P fuel question (known_context sid a) None) ;;
     id <- on_engine (read session_id result_context) ;;
     keep_context id result_context ;;;
     c <- on_engine (read (fun c => c) result_context) ;;
     ret (answer_of c)) a.

End AskQuestion.

(** [issubclass(cls, parent)] for the classes of [src/utils/exceptions.py] *)
Definition subclass (cls parent : error_class) : bool :=
  match parent, cls with
  | AgentError, (AgentError | AgentExecutionError | AgentTimeoutError) => true
  | ConfigurationError, ConfigurationError
  | ValidationError, ValidationError
  | BedrockError, BedrockError
  | AgentExecutionError, AgentExecutionError
  | AgentTimeoutError, AgentTimeoutError
  | RateLimitError, RateLimitError
  | CacheError, CacheError => true
  | _, _ => false
  end.

(** [fastapi.HTTPException(status_code=..., detail=...)] *)
Record HTTPException : Type := mkHTTPException {
  status_code : Z;
  detail : list (string * pyval)
}.

(** The three [except] clauses of the [/ask] route: the [HTTPException]
    raised for the exception [e] of the [try] block. *)
Definition ask_route_except (e : exn) : HTTPException :=
  let internal :=
    mkHTTPException 500 [("error", PStr "Internal server error");
                         ("details", PDict [("message", PStr (str_exn e))])] in
  match e with
  | GenAIAssistantError cls message details =>
      if subclass cls AgentError then
        mkHTTPException 500 [("error", PStr message); ("details", PDict details)]
      else if subclass cls BedrockError then
        mkHTTPException 503 [("error", PStr message); ("details", PDict details)]
      else internal
  | _ => internal
  end.

(** The engine of an agent that has answered no question yet. *)
Definition new_agent (m : machine) : agent := mkAgent m None.


(** ** [Settings.cors_origins_list] ([src/config/settings.py]) *)

Module Cors.

(** [s.split(sep)] for a separator of one character. *)
Fixpoint split (sep : ascii) (s : string) : list string :=
  match s with
  | EmptyString => [EmptyString]
  | String c r =>
      if Ascii.eqb c sep then EmptyString :: split sep r
      else match split sep r with
           | piece :: rest => String c piece :: rest
           | [] => [String c EmptyString]
           end
  end.

(** [Settings.cors_origins_list], of the value of the [cors_origins]
    field. *)
Definition cors_origins_list (cors_origins : string) : list string :=
  map PyStr.strip (split "," cors_origins).

End Cors.

(** The number of occurrences of a character in a string. *)
Fixpoint occurrences (c : ascii) (s : string) : nat :=
  match s with
  | EmptyString => 0
  | String d r => (if Ascii.eqb d c then 1 else 0) + occurrences c r
  end.

(** The string does not begin with white space, and does not end with
    it. *)
Definition starts_clean (s : string) : Prop :=
  match s with
  | EmptyString => True
  | String c _ => PyStr.is_space c = false
  end.

Definition ends_clean (s : string) : Prop := starts_clean (PyStr.reverse s).


(** * Properties *)

(** ** Python strings, by example *)

Example strip_example : PyStr.strip ("  a b " ++ String "010" "") = "a b".
Proof. reflexivity. Qed.

Example lower_example : PyStr.lower "You've MASTERED it" = "you've mastered it".
Proof. reflexivity. Qed.

Example contains_example :
  PyStr.contains "assessment complete" "the assessment complete." = true /\
  PyStr.contains "complete!" "the assessment complete." = false.
Proof. split; reflexivity. Qed.

(** ** The store *)

Lemma heap_update_same r f s : heap (update r f s) r = f (heap s r).
Proof. unfold update; simpl. destruct (decide (r = r)); congruence. Qed.

Lemma heap_update_other r r' f s : r' <> r -> heap (update r f s) r' = heap s r'.
Proof. intros Hne. unfold update; simpl. destruct (decide (r' = r)); congruence. Qed.

(** ** [resume] *)

Section Resume.

Variable settings : Config.Settings.
Variable P : StepPolicy.

Lemma resume_paused fuel r m :
  state (heap (mem m) r) = PAUSED ->
  resume settings P fuel r m = execute settings P fuel "" (Some r) None m.
Proof.
  intros Hst. unfold resume, bind, read. simpl. rewrite Hst.
  destruct (decide (PAUSED = PAUSED)); [reflexivity | congruence].
Qed.

Lemma resume_not_paused fuel r m :
  state (heap (mem m) r) <> PAUSED ->
  resume settings P fuel r m =
    (Raise (GenAIAssistantError AgentExecutionError
              "Cannot resume strand that is not paused"
              [("strand_id", PStr (strand_id (heap (mem m) r)));
               ("state", PStr (state_value (state (heap (mem m) r))))]),
     m).
Proof.
  intros Hst. unfold resume, bind, read, raise. simpl.
  destruct (decide (state (heap (mem m) r) = PAUSED)); [contradiction | reflexivity].
Qed.

End Resume.

(** C4.  On a context that is not PAUSED, [resume] raises the execution
    error whose details name the state the context is in, and the machine
    (hence every field of the context) is left as it was; on a PAUSED
    context, [resume] is [execute] with an empty initial input and the same
    context object. *)
Theorem resume_requires_paused :
  forall (settings : Config.Settings) (P : StepPolicy) (fuel : nat) (r : ref) (m : machine),
    (state (heap (mem m) r) <> PAUSED ->
     resume settings P fuel r m =
       (Raise (GenAIAssistantError AgentExecutionError
                 "Cannot resume strand that is not paused"
                 [("strand_id", PStr (strand_id (heap (mem m) r)));
                  ("state", PStr (state_value (state (heap (mem m) r))))]),
        m)) /\
    (state (heap (mem m) r) = PAUSED ->
     resume settings P fuel r m = execute settings P fuel "" (Some r) None m).
Proof.
  intros. split.
  - apply resume_not_paused.
  - apply resume_paused.
Qed.

Lemma resume_requires_paused_witness :
  (state (heap (mem (Sample.machine_of (Sample.context COMPLETED 1))) 0%nat) <> PAUSED /\
   resume Sample.settings Sample.idle 5 0%nat (Sample.machine_of (Sample.context COMPLETED 1)) =
     (Raise (GenAIAssistantError AgentExecutionError
               "Cannot resume strand that is not paused"
               [("strand_id", PStr "strand-1"); ("state", PStr "completed")]),
      Sample.machine_of (Sample.context COMPLETED 1))) /\
  (state (heap (mem (Sample.machine_of (Sample.context PAUSED 1))) 0%nat) = PAUSED /\
   resume Sample.settings Sample.idle 5 0%nat (Sample.machine_of (Sample.context PAUSED 1)) =
     execute Sample.settings Sample.idle 5 "" (Some 0%nat) None
             (Sample.machine_of (Sample.context PAUSED 1))).
Proof.
  split.
  - assert (H : state (heap (mem (Sample.machine_of (Sample.context COMPLETED 1))) 0%nat) <> PAUSED)
      by (simpl; discriminate).
    split; [exact H |].
    exact (proj1 (resume_requires_paused Sample.settings Sample.idle 5 0%nat
                    (Sample.machine_of (Sample.context COMPLETED 1))) H).
  - assert (H : state (heap (mem (Sample.machine_of (Sample.context PAUSED 1))) 0%nat) = PAUSED)
      by reflexivity.
    split; [exact H |].
    exact (proj2 (resume_requires_paused Sample.settings Sample.idle 5 0%nat
                    (Sample.machine_of (Sample.context PAUSED 1))) H).
Defined.

(** ** [pause] and the prologue of [execute] *)

Section Prologue.

Variable settings : Config.Settings.

Lemma pause_spec r m :
  pause r m = (Ret tt, mkMachine (update r (with_state PAUSED) (mem m)) (trace m)).
Proof. reflexivity. Qed.

(** The machine after the prologue of [execute] on an existing context. *)
Lemma prologue_nonempty input r m :
  messages (heap (mem m) r) <> [] ->
  execute_prologue settings input (Some r) m =
    (Ret r,
     mkMachine
       (update r (with_start_time (Some (clock (mem m) 0%nat)))
          (mkStore (heap (update r (with_state RUNNING) (mem m)))
                   (next_ref (mem m)) (fun n => clock (mem m) (S n)) (uuids (mem m))))
       (trace m)).
Proof.
  intros Hne. unfold execute_prologue, bind, ret, read. simpl.
  destruct (messages (heap (mem m) r)) as [|msg rest] eqn:E; [congruence |].
  reflexivity.
Qed.

Lemma prologue_fields input r m :
  let c := heap (mem m) r in
  let m' := snd (execute_prologue settings input (Some r) m) in
  let c' := heap (mem m') r in
  fst (execute_prologue settings input (Some r) m) = Ret r /\
  trace m' = trace m /\
  state c' = RUNNING /\
  messages c' =
    match messages c with
    | [] => [mkMessage "user" input (clock (mem m) 0%nat) ∅]
    | _ => messages c
    end /\
  start_time c' =
    Some (clock (mem m) (match messages c with [] => 1%nat | _ => 0%nat end)) /\
  variables c' = variables c /\
  iteration c' = iteration c /\
  max_iterations c' = max_iterations c /\
  strand_id c' = strand_id c /\
  session_id c' = session_id c /\
  end_time c' = end_time c /\
  error c' = error c.
Proof.
  unfold execute_prologue, bind, ret, read, add_message, assign, utcnow. simpl.
  destruct (messages (heap (mem m) r)) as [|msg rest] eqn:E; simpl;
    destruct (decide (r = r)) as [_|Hne]; try congruence; simpl;
    rewrite ?E; repeat split; reflexivity.
Qed.

End Prologue.

(** ** The iteration budget *)

Lemma process_step_calls_app t1 t2 :
  process_step_calls (t1 ++ t2) = (process_step_calls t1 + process_step_calls t2)%nat.
Proof. unfold process_step_calls. now rewrite List.filter_app, length_app. Qed.

Lemma process_step_calls_rounds k r : process_step_calls (rounds k r) = k.
Proof.
  induction k as [|k IH]; [reflexivity |].
  unfold process_step_calls in *. simpl. now rewrite IH.
Qed.

Section Budget.

Variable P : StepPolicy.
Hypothesis Hcontinue : always_continues P.
Hypothesis Hstep : steps_in_place P.

(** One pass of the loop under the budget. *)
Lemma execute_loop_pass fuel r m :
  iteration (heap (mem m) r) < max_iterations (heap (mem m) r) ->
  _execute_loop P (S fuel) r m =
    _execute_loop P fuel r
      (mkMachine
         (update r (fun c => with_iteration (iteration c + 1) c)
                 (snd (process_step P r (mem m))))
         (trace m ++ [ShouldContinue r] ++ [ProcessStep r])).
Proof.
  intros Hlt. cbn [_execute_loop]. unfold bind at 1.
  unfold call_should_continue. rewrite Hcontinue. cbn beta iota.
  unfold bind at 1. unfold read at 1. cbn beta iota.
  unfold bind at 1. unfold read at 1. cbn beta iota. cbn [mem].
  destruct (Z.leb_spec (max_iterations (heap (mem m) r)) (iteration (heap (mem m) r))) as [Hle|_];
    [lia |].
  unfold bind at 1. unfold call_process_step. cbn [mem trace].
  destruct (Hstep r (mem m)) as (Hret & _ & _).
  destruct (process_step P r (mem m)) as [o s'] eqn:E. simpl in Hret. subst o.
  cbn beta iota. unfold bind at 1. unfold assign. cbn [mem trace snd].
  rewrite <- app_assoc. reflexivity.
Qed.

(** The pass that finds the budget used up. *)
Lemma execute_loop_stop fuel r m :
  max_iterations (heap (mem m) r) <= iteration (heap (mem m) r) ->
  _execute_loop P (S fuel) r m =
    (Raise (GenAIAssistantError AgentExecutionError
              ("Maximum iterations (" ++ PyStr.of_int (max_iterations (heap (mem m) r))
                 ++ ") exceeded")
              [("strand_id", PStr (strand_id (heap (mem m) r)));
               ("iterations", PInt (iteration (heap (mem m) r)))]),
     mkMachine (mem m) (trace m ++ [ShouldContinue r])).
Proof.
  intros Hle. cbn [_execute_loop]. unfold bind at 1.
  unfold call_should_continue. rewrite Hcontinue. cbn beta iota.
  unfold bind, read, raise. cbn [mem].
  destruct (Z.leb_spec (max_iterations (heap (mem m) r)) (iteration (heap (mem m) r))) as [_|Hlt];
    [reflexivity | lia].
Qed.

(** With [k] steps left in the budget, the loop makes exactly [k] calls of
    [process_step], whose effects it keeps, and then raises. *)
Lemma execute_loop_budget r k :
  forall fuel m,
    max_iterations (heap (mem m) r) - iteration (heap (mem m) r) = Z.of_nat k ->
    (k < fuel)%nat ->
    let out := _execute_loop P fuel r m in
    fst out = Raise (budget_exceeded (max_iterations (heap (mem m) r))
                                     (strand_id (heap (mem (snd out)) r))) /\
    trace (snd out) = (trace m ++ rounds k r ++ [ShouldContinue r])%list /\
    mem (snd out) = after_steps P k r (mem m) /\
    iteration (heap (mem (snd out)) r) = max_iterations (heap (mem m) r) /\
    max_iterations (heap (mem (snd out)) r) = max_iterations (heap (mem m) r).
Proof.
  induction k as [|k IH]; intros fuel m Hk Hfuel; (destruct fuel as [|fuel]; [lia |]).
  - rewrite execute_loop_stop by lia. cbn [fst snd mem trace rounds app after_steps].
    assert (Heq : iteration (heap (mem m) r) = max_iterations (heap (mem m) r)) by lia.
    rewrite Heq. repeat split; reflexivity.
  - rewrite execute_loop_pass by lia.
    destruct (Hstep r (mem m)) as (_ & Hit & Hmax).
    set (m1 := mkMachine _ _).
    assert (Hit1 : iteration (heap (mem m1) r) = iteration (heap (mem m) r) + 1)
      by (subst m1; cbn [mem]; rewrite heap_update_same; simpl; lia).
    assert (Hmax1 : max_iterations (heap (mem m1) r) = max_iterations (heap (mem m) r))
      by (subst m1; cbn [mem]; rewrite heap_update_same; simpl; lia).
    destruct (IH fuel m1) as (Hout & Htr & Hmem & Hfin & Hfmax); [lia | lia |].
    rewrite Hmax1 in Hout, Hfin, Hfmax.
    split; [exact Hout |]. split; [| split; [exact Hmem | split; assumption]].
    rewrite Htr. subst m1. cbn [trace rounds].
    rewrite <- !app_assoc. reflexivity.
Qed.

End Budget.

(** ** The deadline *)

Lemma wait_for_positive {A} T (body : M machine A) :
  0 < T -> wait_for T body = body.
Proof. intros H. unfold wait_for. destruct (Z.leb_spec T 0); [lia | reflexivity]. Qed.

Lemma wait_for_elapsed {A} T (body : M machine A) m :
  T <= 0 -> wait_for T body m = (Raise (TimeoutError ""), m).
Proof. intros H. unfold wait_for. destruct (Z.leb_spec T 0); [reflexivity | lia]. Qed.

Lemma wait_for_cases {A} T (body : M machine A) m :
  (T <= 0 /\ wait_for T body m = (Raise (TimeoutError ""), m)) \/
  (0 < T /\ wait_for T body m = body m).
Proof.
  destruct (Z.leb_spec T 0) as [H|H].
  - left. split; [exact H | now apply wait_for_elapsed].
  - right. split; [exact H | now rewrite wait_for_positive].
Qed.

(** ** The failure paths of [execute] *)

Section Failure.

Variable settings : Config.Settings.
Variable P : StepPolicy.

Lemma prologue_returns input context m :
  fst (execute_prologue settings input context m) = Ret (context_of context m).
Proof.
  destruct context as [r|].
  - apply (prologue_fields settings input r m).
  - unfold execute_prologue, new_context, bind, ret, read, uuid4, alloc, add_message,
      utcnow, assign. simpl.
    destruct (decide (next_ref (mem m) = next_ref (mem m))); [reflexivity | congruence].
Qed.

Lemma execute_unfold fuel input context timeout m :
  execute settings P fuel input context timeout m =
    execute_guarded settings P fuel (context_of context m) timeout
      (snd (execute_prologue settings input context m)).
Proof.
  unfold execute, bind. pose proof (prologue_returns input context m) as H.
  destruct (execute_prologue settings input context m) as [o m1].
  simpl in H. subst o. reflexivity.
Qed.

Lemma execute_try_raises fuel r timeout m e m2 :
  wait_for (timeout_or_default settings timeout) (_execute_loop P fuel r) m = (Raise e, m2) ->
  execute_try settings P fuel r timeout m = (Raise e, m2).
Proof. intros H. unfold execute_try, bind. now rewrite H. Qed.

(** A deadline that is not positive: the loop does not start. *)
Lemma execute_try_elapsed fuel r timeout m :
  timeout_or_default settings timeout <= 0 ->
  execute_try settings P fuel r timeout m = (Raise (TimeoutError ""), m).
Proof. intros H. apply execute_try_raises. now apply wait_for_elapsed. Qed.

Lemma execute_guarded_raises fuel r timeout m e m2 :
  execute_try settings P fuel r timeout m = (Raise e, m2) ->
  execute_guarded settings P fuel r timeout m =
    execute_except r (timeout_or_default settings timeout) e m2.
Proof. intros H. unfold execute_guarded, try_except. now rewrite H. Qed.

(** The handler for [asyncio.TimeoutError]. *)
Lemma execute_except_timeout r T text m :
  let out := execute_except r T (TimeoutError text) m in
  fst out =
    Raise (GenAIAssistantError AgentTimeoutError
             ("Strand execution timed out after " ++ PyStr.of_int T ++ " seconds")
             [("strand_id", PStr (strand_id (heap (mem m) r))); ("timeout", PInt T)]) /\
  heap (mem (snd out)) r =
    ended TIMEOUT (clock (mem m) 0%nat)
          ("Execution timed out after " ++ PyStr.of_int T ++ " seconds")
          (heap (mem m) r) /\
  (forall r', r' <> r -> heap (mem (snd out)) r' = heap (mem m) r') /\
  trace (snd out) = trace m.
Proof.
  unfold execute_except, bind, assign, utcnow, read, raise, update. simpl.
  destruct (decide (r = r)) as [_|Hne]; [| congruence].
  repeat split. intros r' Hne. destruct (decide (r' = r)); [contradiction | reflexivity].
Qed.

(** The handler for every other exception. *)
Lemma execute_except_failure r T e m :
  (forall text, e <> TimeoutError text) ->
  let out := execute_except r T e m in
  fst out =
    Raise (GenAIAssistantError AgentExecutionError
             ("Strand execution failed: " ++ str_exn e)
             [("strand_id", PStr (strand_id (heap (mem m) r)));
              ("error", PStr (str_exn e))]) /\
  heap (mem (snd out)) r =
    ended FAILED (clock (mem m) 0%nat) (str_exn e) (heap (mem m) r) /\
  (forall r', r' <> r -> heap (mem (snd out)) r' = heap (mem m) r') /\
  trace (snd out) = trace m.
Proof.
  intros Hnt.
  destruct e as [cls msg det | code msg text | text | text | cls text];
    try (exfalso; apply (Hnt text); reflexivity);
    unfold execute_except, bind, assign, utcnow, read, raise, update; simpl;
    (destruct (decide (r = r)) as [_|Hne]; [| congruence]);
    repeat split;
    intros r' Hne; (destruct (decide (r' = r)); [contradiction | reflexivity]).
Qed.

(** A step that raises is the last call the loop makes. *)
Lemma failed_step_ends_loop fuel r timeout m e s1 s2 :
  0 < timeout_or_default settings timeout ->
  should_continue P r (mem m) = (Ret true, s1) ->
  iteration (heap s1 r) < max_iterations (heap s1 r) ->
  process_step P r s1 = (Raise e, s2) ->
  execute_try settings P (S fuel) r timeout m =
    (Raise e, mkMachine s2 (trace m ++ [ShouldContinue r] ++ [ProcessStep r])).
Proof.
  intros HT Hc Hlt Hs. apply execute_try_raises. rewrite wait_for_positive by exact HT.
  cbn [_execute_loop]. unfold bind at 1. unfold call_should_continue. rewrite Hc.
  cbn beta iota. unfold bind at 1. unfold read at 1. cbn beta iota.
  unfold bind at 1. unfold read at 1. cbn beta iota. cbn [mem].
  destruct (Z.leb_spec (max_iterations (heap s1 r)) (iteration (heap s1 r))); [lia |].
  unfold bind at 1. unfold call_process_step. cbn [mem trace]. rewrite Hs.
  rewrite <- app_assoc. reflexivity.
Qed.

(** When the [try] statement of [execute] ends, it ends in a terminal
    state: COMPLETED on the object it returns, FAILED or TIMEOUT on the
    context it was given when it raises. *)
Lemma execute_guarded_ends_terminal fuel r timeout m :
  let out := execute_guarded settings P fuel r timeout m in
  match fst out with
  | Ret result => state (heap (mem (snd out)) result) = COMPLETED
  | Raise _ => state (heap (mem (snd out)) r) = FAILED \/
               state (heap (mem (snd out)) r) = TIMEOUT
  | OutOfFuel => True
  end.
Proof.
  cbn zeta. unfold execute_guarded, try_except.
  destruct (execute_try settings P fuel r timeout m) as [[res|e|] m'] eqn:E; cbn [fst snd].
  - unfold execute_try, bind in E.
    destruct (wait_for _ (_execute_loop P fuel r) m) as [[res0|e0|] m0]; try discriminate.
    unfold assign, utcnow, read, ret, raise in E. cbn in E.
    destruct (decide (res0 = res0)) as [_|Hne]; [| congruence]. cbn in E.
    destruct (start_time (heap (mem m0) res0)); try discriminate.
    injection E as <- <-. cbn.
    destruct (decide (res0 = res0)) as [_|Hne]; [reflexivity | congruence].
  - assert (Hcases : (exists text, e = TimeoutError text) \/ (forall text, e <> TimeoutError text)).
    { destruct e; try (right; intros; discriminate). left. eexists. reflexivity. }
    destruct Hcases as [[text ->] | Hnt].
    + destruct (execute_except_timeout r (timeout_or_default settings timeout) text m')
        as (-> & -> & _). cbn. right. reflexivity.
    + destruct (execute_except_failure r (timeout_or_default settings timeout) e m' Hnt)
        as (-> & -> & _). cbn. left. reflexivity.
  - exact I.
Qed.

End Failure.


Lemma echo_always_continues : always_continues Sample.echo.
Proof. intros r s. reflexivity. Qed.

Lemma echo_steps_in_place : steps_in_place Sample.echo.
Proof.
  intros r s. cbn [Sample.echo process_step fst snd].
  rewrite heap_update_same. repeat split; reflexivity.
Qed.



(** A failure at any pass ends the loop, with the failing call as its
    last. *)
Lemma loop_fails P k :
  forall r m r' m' e m2 fuel,
    passes P k r m r' m' -> fails P r' m' e m2 -> (k < fuel)%nat ->
    _execute_loop P fuel r m = (Raise e, m2).
Proof.
  induction k as [|k IH]; intros r m r' m' e m2 fuel Hp Hf Hk;
    (destruct fuel as [|fuel]; [lia |]); inversion Hp; subst.
  - cbn [_execute_loop]. unfold bind at 1. unfold call_should_continue.
    inversion Hf as [e0 s1 Hc | s1 Hc Hle | e0 s1 s2 Hc Hlt Hs]; subst; rewrite Hc;
      cbn beta iota.
    + reflexivity.
    + unfold bind, read, raise. cbn [mem].
      destruct (Z.leb_spec (max_iterations (heap s1 r')) (iteration (heap s1 r')));
        [reflexivity | lia].
    + unfold bind at 1. unfold read at 1. cbn beta iota.
      unfold bind at 1. unfold read at 1. cbn beta iota. cbn [mem].
      destruct (Z.leb_spec (max_iterations (heap s1 r')) (iteration (heap s1 r'))); [lia |].
      unfold bind at 1. unfold call_process_step. cbn [mem trace]. rewrite Hs.
      rewrite <- app_assoc. reflexivity.
  - match goal with H : pass _ _ _ _ _ |- _ => inversion H as [s1 r1' s2 Hc Hlt Hs]; subst end.
    cbn [_execute_loop]. unfold bind at 1. unfold call_should_continue. rewrite Hc.
    cbn beta iota.
    unfold bind at 1. unfold read at 1. cbn beta iota.
    unfold bind at 1. unfold read at 1. cbn beta iota. cbn [mem].
    destruct (Z.leb_spec (max_iterations (heap s1 r)) (iteration (heap s1 r))); [lia |].
    unfold bind at 1. unfold call_process_step. cbn [mem trace]. rewrite Hs.
    cbn beta iota. unfold bind at 1. unfold assign. cbn [mem trace]. cbn beta iota.
    rewrite <- app_assoc.
    eapply IH; [eassumption | eassumption | lia].
Qed.

(** C3, as amended.  Whenever the body of the [try] of [execute] raises,
    [execute] raises in turn: [AgentTimeoutError] for
    [asyncio.TimeoutError], [AgentExecutionError] for anything else.  The
    context that [execute] works on is then as it stood at the failure,
    with the state TIMEOUT or FAILED, the end time read from the clock and
    the error text recorded; no other context is touched and no further
    call of the policy is made.  The error carries the strand identifier
    and the error text (or the timeout), not the context.  And the body
    does raise at every failure: after any number of full passes, a check
    that raises, a used-up budget or a step that raises (the deadline
    elapsing is such a step) ends the loop there, with the failing call as
    the last one; with a deadline that is not positive the loop is not
    even started.  Nothing is swallowed or skipped over. *)
Theorem failures_end_the_strand :
  forall (settings : Config.Settings) (P : StepPolicy) (fuel : nat) (input : string)
         (context : option ref) (timeout : option Z) (m : machine),
    let r := context_of context m in
    let m1 := snd (execute_prologue settings input context m) in
    let T := timeout_or_default settings timeout in
    let out := execute settings P fuel input context timeout m in
    (forall e m2,
        execute_try settings P fuel r timeout m1 = (Raise e, m2) ->
        failure_reported r T e m2 out) /\
    (forall k r' m' e m2,
        0 < T ->
        passes P k r m1 r' m' ->
        fails P r' m' e m2 ->
        (k < fuel)%nat ->
        execute_try settings P fuel r timeout m1 = (Raise e, m2) /\
        failure_reported r T e m2 out) /\
    (T <= 0 ->
     execute_try settings P fuel r timeout m1 = (Raise (TimeoutError ""), m1) /\
     failure_reported r T (TimeoutError "") m1 out).
Proof.
  intros settings P fuel input context timeout m r m1 T out.
  assert (Hreport : forall e m2,
             execute_try settings P fuel r timeout m1 = (Raise e, m2) ->
             failure_reported r T e m2 out).
  { intros e m2 Htry. subst out. unfold failure_reported. rewrite execute_unfold. fold r m1.
    rewrite (execute_guarded_raises settings P fuel r timeout m1 e m2 Htry). fold T.
    assert (Hcases : (exists text, e = TimeoutError text) \/ (forall text, e <> TimeoutError text)).
    { destruct e; try (right; intros; discriminate). left. eexists. reflexivity. }
    destruct Hcases as [[text ->] | Hnt].
    + destruct (execute_except_timeout r T text m2) as (H1 & H2 & H3 & H4).
      split; [| split; assumption].
      left. split; [eexists; reflexivity |]. split; assumption.
    + destruct (execute_except_failure r T e m2 Hnt) as (H1 & H2 & H3 & H4).
      split; [| split; assumption].
      right. split; [exact Hnt |]. split; assumption. }
  split; [exact Hreport |]. split.
  - intros k r' m' e m2 HT Hp Hf Hk.
    assert (Htry : execute_try settings P fuel r timeout m1 = (Raise e, m2)).
    { apply execute_try_raises. fold T. rewrite wait_for_positive by exact HT.
      exact (loop_fails P k r m1 r' m' e m2 fuel Hp Hf Hk). }
    split; [exact Htry | exact (Hreport e m2 Htry)].
  - intros HT.
    assert (Htry : execute_try settings P fuel r timeout m1 = (Raise (TimeoutError ""), m1))
      by (apply execute_try_elapsed; exact HT).
    split; [exact Htry | exact (Hreport _ m1 Htry)].
Qed.

Lemma failures_end_the_strand_witness :
  0 < timeout_or_default Sample.settings None /\
  passes Sample5.fails_later 1 0%nat
         (snd (execute_prologue Sample.settings "hello" (Some 0%nat)
                 (Sample.machine_of (Sample.context IDLE 0))))
         0%nat
         (mkMachine
            (update 0%nat (fun c => with_iteration (iteration c + 1) c)
               (mem (snd (execute_prologue Sample.settings "hello" (Some 0%nat)
                            (Sample.machine_of (Sample.context IDLE 0))))))
            [ShouldContinue 0%nat; ProcessStep 0%nat]) /\
  fst (execute Sample.settings Sample5.fails_later 5 "hello" (Some 0%nat) None
         (Sample.machine_of (Sample.context IDLE 0)))
    = Raise (GenAIAssistantError AgentExecutionError
               "Strand execution failed: bad input"
               [("strand_id", PStr "strand-1"); ("error", PStr "bad input")]) /\
  trace (snd (execute Sample.settings Sample5.fails_later 5 "hello" (Some 0%nat) None
                (Sample.machine_of (Sample.context IDLE 0))))
    = [ShouldContinue 0%nat; ProcessStep 0%nat; ShouldContinue 0%nat; ProcessStep 0%nat] /\
  state (heap (mem (snd (execute Sample.settings Sample5.fails_later 5 "hello" (Some 0%nat)
                           None (Sample.machine_of (Sample.context IDLE 0))))) 0%nat)
    = FAILED.
Proof.
  set (m1 := snd (execute_prologue Sample.settings "hello" (Some 0%nat)
                    (Sample.machine_of (Sample.context IDLE 0)))).
  set (m' := mkMachine
               (update 0%nat (fun c => with_iteration (iteration c + 1) c) (mem m1))
               [ShouldContinue 0%nat; ProcessStep 0%nat]).
  assert (HT : 0 < timeout_or_default Sample.settings None) by (cbn; lia).
  assert (Hpass : passes Sample5.fails_later 1 0%nat m1 0%nat m').
  { eapply passes_S; [| apply passes_O].
    apply (pass_intro Sample5.fails_later 0%nat m1 (mem m1) 0%nat (mem m1));
      [reflexivity | vm_compute; reflexivity | reflexivity]. }
  assert (Hfail : fails Sample5.fails_later 0%nat m'
                        (Exception "ValueError" "bad input")
                        (mkMachine (mem m')
                                   (trace m' ++ [ShouldContinue 0%nat; ProcessStep 0%nat]))).
  { apply (step_raises Sample5.fails_later 0%nat m' _ (mem m') (mem m'));
      [reflexivity | vm_compute; reflexivity | reflexivity]. }
  assert (Hk : (1 < 5)%nat) by lia.
  destruct (failures_end_the_strand Sample.settings Sample5.fails_later 5 "hello"
              (Some 0%nat) None (Sample.machine_of (Sample.context IDLE 0)))
    as (_ & Hany & _).
  destruct (Hany 1%nat 0%nat m' _ _ HT Hpass Hfail Hk) as (_ & Hrep).
  destruct Hrep as ([(Htime & _) | (_ & Hraise & Hctx)] & _ & Htr).
  { destruct Htime as [text Htext]. discriminate Htext. }
  split; [exact HT |]. split; [exact Hpass |].
  split; [exact Hraise |]. split; [exact Htr |].
  exact (f_equal state Hctx).
Defined.

(** C3 as stated fails where it says that the error carries the context.
    Two runs that differ in their input end with different contexts (the
    histories differ) and raise one and the same error, which holds the
    strand identifier and the error text only; the context was created
    inside [execute], so the caller has no other handle on it. *)
Lemma error_does_not_carry_context :
  fst (execute Sample.settings Sample.failing 5 "first question" None None
         (Sample.machine_of (Sample.context IDLE 0)))
    = Raise (GenAIAssistantError AgentExecutionError
               "Strand execution failed: bad input"
               [("strand_id", PStr "id-0"); ("error", PStr "bad input")]) /\
  fst (execute Sample.settings Sample.failing 5 "second question" None None
         (Sample.machine_of (Sample.context IDLE 0)))
    = Raise (GenAIAssistantError AgentExecutionError
               "Strand execution failed: bad input"
               [("strand_id", PStr "id-0"); ("error", PStr "bad input")]) /\
  messages (heap (mem (snd (execute Sample.settings Sample.failing 5 "first question"
                              None None (Sample.machine_of (Sample.context IDLE 0))))) 1%nat)
    = [mkMessage "user" "first question" (Sample.seconds 10) ∅] /\
  messages (heap (mem (snd (execute Sample.settings Sample.failing 5 "second question"
                              None None (Sample.machine_of (Sample.context IDLE 0))))) 1%nat)
    = [mkMessage "user" "second question" (Sample.seconds 10) ∅].
Proof. repeat split; reflexivity. Qed.

(** ** The run ends *)

Section Termination.

Variable settings : Config.Settings.
Variable P : StepPolicy.

(** Under a policy whose calls end and leave counter and budget alone,
    the loop ends within one pass more than there are steps left. *)
Lemma loop_ends :
  check_keeps_counters P -> steps_keep_counters P -> policy_ends P ->
  forall fuel r m,
    (steps_left (heap (mem m) r) < fuel)%nat ->
    fst (_execute_loop P fuel r m) <> OutOfFuel.
Proof.
  intros Hcheck Hkeep Hends.
  induction fuel as [|fuel IH]; intros r m Hfuel; [lia |].
  cbn [_execute_loop]. unfold bind at 1. unfold call_should_continue.
  destruct (Hcheck r (mem m)) as (Hit & Hmax).
  destruct (Hends r (mem m)) as (Hc & _).
  destruct (should_continue P r (mem m)) as [[b|e|] s1]; cbn [fst snd] in *;
    [| discriminate | congruence].
  destruct b; [| discriminate].
  unfold bind at 1. unfold read at 1. cbn beta iota.
  unfold bind at 1. unfold read at 1. cbn beta iota. cbn [mem].
  destruct (Z.leb_spec (max_iterations (heap s1 r)) (iteration (heap s1 r))) as [Hle|Hlt].
  { unfold bind, read, raise. discriminate. }
  unfold bind at 1. unfold call_process_step. cbn [mem trace].
  pose proof (Hkeep r s1) as Hk.
  destruct (Hends r s1) as (_ & Hs).
  destruct (process_step P r s1) as [[r'|e|] s2]; cbn [fst snd] in *;
    [| discriminate | congruence].
  destruct (Hk r' eq_refl) as (-> & Hit2 & Hmax2).
  unfold bind at 1. unfold assign. cbn [mem trace]. cbn beta iota.
  apply IH. cbn [mem]. rewrite heap_update_same.
  unfold steps_left in *. cbn [iteration max_iterations with_iteration].
  rewrite Hit2, Hmax2, Hit, Hmax. lia.
Qed.

Lemma execute_except_ends r T e m : fst (execute_except r T e m) <> OutOfFuel.
Proof.
  assert (Hc : (exists text, e = TimeoutError text) \/ (forall text, e <> TimeoutError text)).
  { destruct e; try (right; intros; discriminate). left. eexists. reflexivity. }
  destruct Hc as [[text ->] | Hnt].
  - destruct (execute_except_timeout r T text m) as (-> & _). discriminate.
  - destruct (execute_except_failure r T e m Hnt) as (-> & _). discriminate.
Qed.

(** The [try] statement ends when the awaited loop does. *)
Lemma execute_guarded_ends fuel r timeout m :
  fst (wait_for (timeout_or_default settings timeout) (_execute_loop P fuel r) m) <> OutOfFuel ->
  fst (execute_guarded settings P fuel r timeout m) <> OutOfFuel.
Proof.
  intros Hw. unfold execute_guarded, try_except.
  destruct (execute_try settings P fuel r timeout m) as [[res|e|] m'] eqn:E; cbn [fst].
  - discriminate.
  - apply execute_except_ends.
  - exfalso. unfold execute_try, bind in E.
    destruct (wait_for _ (_execute_loop P fuel r) m) as [[res0|e0|] m0]; cbn [fst] in Hw;
      [| discriminate | congruence].
    unfold assign, utcnow, read, ret, raise in E. cbn in E.
    destruct (decide (res0 = res0)) as [_|Hne]; [| congruence]. cbn in E.
    destruct (start_time (heap (mem m0) res0)); discriminate.
Qed.

(** [execute] on a given context, under such a policy, ends. *)
Lemma execute_ends fuel input r timeout m :
  check_keeps_counters P -> steps_keep_counters P -> policy_ends P ->
  (steps_left (heap (mem m) r) < fuel)%nat ->
  fst (execute settings P fuel input (Some r) timeout m) <> OutOfFuel.
Proof.
  intros Hcheck Hkeep Hends Hfuel. rewrite execute_unfold. cbn [context_of].
  apply execute_guarded_ends.
  destruct (wait_for_cases (timeout_or_default settings timeout)
              (_execute_loop P fuel r) (snd (execute_prologue settings input (Some r) m)))
    as [[_ ->] | [_ ->]]; [discriminate |].
  apply loop_ends; try assumption.
  destruct (prologue_fields settings input r m)
    as (_ & _ & _ & _ & _ & _ & Hit & Hmax & _).
  unfold steps_left in *. rewrite Hit, Hmax. exact Hfuel.
Qed.

End Termination.

(** Under the policy that takes every counted iteration back, the loop
    never ends on a context that has budget left. *)
Lemma rewinding_loop_never_ends fuel :
  forall r m,
    iteration (heap (mem m) r) < max_iterations (heap (mem m) r) ->
    fst (_execute_loop Sample5.rewinding fuel r m) = OutOfFuel.
Proof.
  induction fuel as [|fuel IH]; intros r m Hlt; [reflexivity |].
  cbn [_execute_loop]. unfold bind at 1. unfold call_should_continue.
  cbn [should_continue Sample5.rewinding]. cbn beta iota.
  unfold bind at 1. unfold read at 1. cbn beta iota.
  unfold bind at 1. unfold read at 1. cbn beta iota. cbn [mem].
  destruct (Z.leb_spec (max_iterations (heap (mem m) r)) (iteration (heap (mem m) r)));
    [lia |].
  unfold bind at 1. unfold call_process_step. cbn [process_step Sample5.rewinding mem trace].
  cbn beta iota. unfold bind at 1. unfold assign. cbn [mem trace]. cbn beta iota.
  apply IH. cbn [mem]. rewrite !heap_update_same.
  cbn [iteration max_iterations with_iteration]. lia.
Qed.

(** ** [pause] followed by [resume] *)

(** C5, as amended.  [pause] sets the state to PAUSED and changes no other
    field of the context, no other context, and neither the clock nor the
    trace.  [resume] on the paused context is the [try] statement of
    [execute] run after the prologue.  Whenever that run ends it ends in a
    terminal state; and it does end, within one pass of the loop more than
    there are steps left in the budget, under every policy whose calls
    end, whose [should_continue] leaves counter and budget alone and whose
    [process_step] returns its context with counter and budget untouched:
    then [resume] returns an object that is COMPLETED, or raises with the
    context FAILED or TIMEOUT.  (Without these conditions the run need
    not end: see [resume_need_not_end].)  When the loop starts the context
    has its variables, iteration, budget, identifiers, end time and error
    as before the pause, its state is RUNNING, its start time is the time
    of the resume, and its messages are as before the pause unless the
    history was empty, in which case one user message with empty text has
    been appended. *)
Theorem pause_then_resume :
  forall (settings : Config.Settings) (P : StepPolicy) (fuel : nat) (r : ref) (m : machine),
    let c := heap (mem m) r in
    let m1 := snd (pause r m) in
    let m2 := snd (execute_prologue settings "" (Some r) m1) in
    let c2 := heap (mem m2) r in
    (pause r m = (Ret tt, m1) /\
     heap (mem m1) r = with_state PAUSED c /\
     (forall r', r' <> r -> heap (mem m1) r' = heap (mem m) r') /\
     clock (mem m1) = clock (mem m) /\
     trace m1 = trace m) /\
    resume settings P fuel r m1 = execute_guarded settings P fuel r None m2 /\
    match fst (resume settings P fuel r m1) with
    | Ret result =>
        state (heap (mem (snd (resume settings P fuel r m1))) result) = COMPLETED
    | Raise _ =>
        state (heap (mem (snd (resume settings P fuel r m1))) r) = FAILED \/
        state (heap (mem (snd (resume settings P fuel r m1))) r) = TIMEOUT
    | OutOfFuel => True
    end /\
    (check_keeps_counters P -> steps_keep_counters P -> policy_ends P ->
     (steps_left c < fuel)%nat ->
     (exists result,
         fst (resume settings P fuel r m1) = Ret result /\
         state (heap (mem (snd (resume settings P fuel r m1))) result) = COMPLETED) \/
     (exists e,
         fst (resume settings P fuel r m1) = Raise e /\
         (state (heap (mem (snd (resume settings P fuel r m1))) r) = FAILED \/
          state (heap (mem (snd (resume settings P fuel r m1))) r) = TIMEOUT))) /\
    trace m2 = trace m /\
    state c2 = RUNNING /\
    variables c2 = variables c /\
    iteration c2 = iteration c /\
    max_iterations c2 = max_iterations c /\
    strand_id c2 = strand_id c /\
    session_id c2 = session_id c /\
    end_time c2 = end_time c /\
    error c2 = error c /\
    messages c2 =
      match messages c with
      | [] => [mkMessage "user" "" (clock (mem m) 0%nat) ∅]
      | _ => messages c
      end /\
    start_time c2 =
      Some (clock (mem m) (match messages c with [] => 1%nat | _ => 0%nat end)).
Proof.
  intros settings P fuel r m c m1 m2 c2.
  assert (Hc1 : heap (mem m1) r = with_state PAUSED c)
    by (subst m1 c; simpl; apply heap_update_same).
  split.
  { split; [reflexivity |]. split; [exact Hc1 |]. split.
    - intros r' Hne. subst m1. simpl. now apply heap_update_other.
    - split; reflexivity. }
  destruct (prologue_fields settings "" r m1)
    as (Hret & Htr & Hst & Hmsg & Hstart & Hvar & Hit & Hmax & Hsid & Hssid & Hend & Herr).
  fold m2 in Htr, Hst, Hmsg, Hstart, Hvar, Hit, Hmax, Hsid, Hssid, Hend, Herr.
  fold c2 in Hst, Hmsg, Hstart, Hvar, Hit, Hmax, Hsid, Hssid, Hend, Herr.
  rewrite Hc1 in Hmsg, Hstart, Hvar, Hit, Hmax, Hsid, Hssid, Hend, Herr.
  simpl in Hmsg, Hstart, Hvar, Hit, Hmax, Hsid, Hssid, Hend, Herr.
  assert (Hresume : resume settings P fuel r m1 = execute_guarded settings P fuel r None m2).
  { rewrite resume_paused by (rewrite Hc1; reflexivity).
    rewrite execute_unfold. reflexivity. }
  split; [exact Hresume |].
  assert (Hterminal :
            match fst (resume settings P fuel r m1) with
            | Ret result =>
                state (heap (mem (snd (resume settings P fuel r m1))) result) = COMPLETED
            | Raise _ =>
                state (heap (mem (snd (resume settings P fuel r m1))) r) = FAILED \/
                state (heap (mem (snd (resume settings P fuel r m1))) r) = TIMEOUT
            | OutOfFuel => True
            end)
    by (rewrite Hresume; apply execute_guarded_ends_terminal).
  split; [exact Hterminal |].
  split.
  { intros Hcheck Hkeep Hends Hfuel.
    assert (Hend' : fst (resume settings P fuel r m1) <> OutOfFuel).
    { rewrite Hresume. apply execute_guarded_ends.
      destruct (wait_for_cases (timeout_or_default settings None) (_execute_loop P fuel r) m2)
        as [[_ ->] | [_ ->]]; [discriminate |].
      apply loop_ends; try assumption.
      fold c2. unfold steps_left in *. rewrite Hit, Hmax. exact Hfuel. }
    destruct (fst (resume settings P fuel r m1)) as [result|e|].
    - left. exists result. split; [reflexivity | exact Hterminal].
    - right. exists e. split; [reflexivity | exact Hterminal].
    - congruence. }
  repeat split; assumption.
Qed.

(** The run that follows a resume need not end.  Under the policy that
    takes every counted iteration back, [resume] on a paused context with
    budget left is still running whatever the number of passes allowed. *)
Lemma resume_need_not_end :
  forall fuel,
    fst (resume Sample.settings Sample5.rewinding fuel 0%nat
           (snd (pause 0%nat (Sample.machine_of Sample.running)))) = OutOfFuel.
Proof.
  intros fuel. rewrite resume_paused by reflexivity. rewrite execute_unfold.
  cbn [context_of]. unfold execute_guarded, try_except, execute_try.
  rewrite wait_for_positive by (cbn; lia). unfold bind at 1.
  set (m2 := snd (execute_prologue _ _ _ _)).
  pose proof (rewinding_loop_never_ends fuel 0%nat m2) as H.
  destruct (_execute_loop Sample5.rewinding fuel 0%nat m2) as [o m3].
  cbn [fst] in H. rewrite H; [reflexivity |]. subst m2. vm_compute. reflexivity.
Qed.

(** C5 as stated fails: between the pause and the loop that follows the
    resume, the state is not the only field that changes.  On a running
    context started at second 0 and resumed at second 10 the start time is
    overwritten; on a running context with an empty history a message is
    appended. *)
Lemma pause_then_resume_counterexample :
  (state (heap (mem (Sample.machine_of Sample.running)) 0%nat) = RUNNING /\
   start_time (heap (mem (Sample.machine_of Sample.running)) 0%nat)
     = Some (Sample.seconds 0) /\
   start_time
     (heap (mem (snd (execute_prologue Sample.settings "" (Some 0%nat)
                        (snd (pause 0%nat (Sample.machine_of Sample.running)))))) 0%nat)
     = Some (Sample.seconds 10)) /\
  (state (heap (mem (Sample.machine_of Sample.silent)) 0%nat) = RUNNING /\
   messages (heap (mem (Sample.machine_of Sample.silent)) 0%nat) = [] /\
   messages
     (heap (mem (snd (execute_prologue Sample.settings "" (Some 0%nat)
                        (snd (pause 0%nat (Sample.machine_of Sample.silent)))))) 0%nat)
     = [mkMessage "user" "" (Sample.seconds 10) ∅]).
Proof. repeat split; reflexivity. Qed.

(** ** Terminal states *)

(** C7, as amended.  Of the three operations only [resume] refuses a
    context in a terminal state: it raises and leaves the machine as it
    was.  [pause] moves the context to PAUSED, and [execute] moves it to
    RUNNING in its prologue and, when it ends, to a terminal state again:
    COMPLETED on the object the loop returned, FAILED or TIMEOUT on the
    context itself. *)
Theorem terminal_states_under_core_operations :
  forall (settings : Config.Settings) (P : StepPolicy) (fuel : nat) (input : string)
         (r : ref) (m : machine),
    terminal (state (heap (mem m) r)) = true ->
    resume settings P fuel r m =
      (Raise (GenAIAssistantError AgentExecutionError
                "Cannot resume strand that is not paused"
                [("strand_id", PStr (strand_id (heap (mem m) r)));
                 ("state", PStr (state_value (state (heap (mem m) r))))]),
       m) /\
    state (heap (mem (snd (pause r m))) r) = PAUSED /\
    state (heap (mem (snd (execute_prologue settings input (Some r) m))) r) = RUNNING /\
    match fst (execute settings P fuel input (Some r) None m) with
    | Ret result =>
        state (heap (mem (snd (execute settings P fuel input (Some r) None m))) result)
          = COMPLETED
    | Raise _ =>
        state (heap (mem (snd (execute settings P fuel input (Some r) None m))) r) = FAILED \/
        state (heap (mem (snd (execute settings P fuel input (Some r) None m))) r) = TIMEOUT
    | OutOfFuel => True
    end.
Proof.
  intros settings P fuel input r m Hterm. split; [| split; [| split]].
  - apply resume_not_paused. intros Hp. rewrite Hp in Hterm. discriminate.
  - rewrite pause_spec. cbn [snd mem]. rewrite heap_update_same. reflexivity.
  - apply (prologue_fields settings input r m).
  - rewrite execute_unfold. apply execute_guarded_ends_terminal.
Qed.

Lemma terminal_states_under_core_operations_witness :
  terminal (state (heap (mem (Sample.machine_of (Sample.context FAILED 1))) 0%nat)) = true /\
  state (heap (mem (snd (pause 0%nat (Sample.machine_of (Sample.context FAILED 1))))) 0%nat)
    = PAUSED.
Proof.
  assert (H : terminal (state (heap (mem (Sample.machine_of (Sample.context FAILED 1))) 0%nat))
              = true) by reflexivity.
  split; [exact H |].
  exact (proj1 (proj2 (terminal_states_under_core_operations
                         Sample.settings Sample.idle 5 "again" 0%nat
                         (Sample.machine_of (Sample.context FAILED 1)) H))).
Defined.

(** C7 as stated fails: from a terminal state [pause] leads to PAUSED, and
    [execute] leads through RUNNING to COMPLETED. *)
Lemma terminal_states_counterexample :
  terminal (state (heap (mem (Sample.machine_of (Sample.context FAILED 1))) 0%nat)) = true /\
  state (heap (mem (snd (pause 0%nat (Sample.machine_of (Sample.context FAILED 1))))) 0%nat)
    = PAUSED /\
  state (heap (mem (snd (execute_prologue Sample.settings "again" (Some 0%nat)
                           (Sample.machine_of (Sample.context FAILED 1))))) 0%nat)
    = RUNNING /\
  fst (execute Sample.settings Sample.idle 5 "again" (Some 0%nat) None
         (Sample.machine_of (Sample.context FAILED 1))) = Ret 0%nat /\
  state (heap (mem (snd (execute Sample.settings Sample.idle 5 "again" (Some 0%nat) None
                           (Sample.machine_of (Sample.context FAILED 1))))) 0%nat)
    = COMPLETED.
Proof. repeat split; reflexivity. Qed.

(** ** [LearningAgent.should_continue] *)

(** C6, as amended.  [should_continue] returns a boolean and never raises.
    It leaves the clock, the allocator and every other context alone, and
    of the context it is given it leaves the messages, the iteration, the
    budget, the state, the timestamps, the error and the identifiers
    unchanged.  The variables are written in one case and in no other:
    when they have no [learning_complete] entry and the latest assistant
    message holds a completion phrase, the answer is false and the entry
    [learning_complete = True] is stored in them.  In every other case the
    store is left exactly as it was: with a [learning_complete] entry the
    answer is the negation of its truth value, and with no entry and no
    completion phrase in the latest assistant message (or no assistant
    message) the answer is [iteration < max_iterations]. *)
Theorem should_continue_frame :
  forall (r : ref) (s : store),
    let out := LearningAgent.should_continue r s in
    let c := heap s r in
    let c' := heap (snd out) r in
    (exists b : bool, fst out = Ret b) /\
    next_ref (snd out) = next_ref s /\
    clock (snd out) = clock s /\
    uuids (snd out) = uuids s /\
    (forall r', r' <> r -> heap (snd out) r' = heap s r') /\
    messages c' = messages c /\
    iteration c' = iteration c /\
    max_iterations c' = max_iterations c /\
    state c' = state c /\
    start_time c' = start_time c /\
    end_time c' = end_time c /\
    error c' = error c /\
    strand_id c' = strand_id c /\
    session_id c' = session_id c /\
    (variables c !! "learning_complete" = None ->
     announces_completion c = true ->
     fst out = Ret false /\
     variables c' = <["learning_complete" := PBool true]> (variables c)) /\
    (forall v,
        variables c !! "learning_complete" = Some v ->
        out = (Ret (negb (truthy v)), s)) /\
    (variables c !! "learning_complete" = None ->
     announces_completion c = false ->
     out = (Ret (iteration c <? max_iterations c), s)).
Proof.
  intros r s. unfold LearningAgent.should_continue, announces_completion. cbn zeta.
  destruct (variables (heap s r) !! "learning_complete") as [v|] eqn:Ev.
  { cbn [fst snd]. repeat split; eauto; try discriminate.
    intros v' [= <-]. reflexivity. }
  destruct (last _) as [msg|].
  2: { cbn [fst snd]. repeat split; eauto; discriminate. }
  destruct (existsb _ _).
  2: { cbn [fst snd]. repeat split; eauto; discriminate. }
  cbn [fst snd]. rewrite heap_update_same. cbn.
  repeat split; eauto; try discriminate.
  intros r' Hne. destruct (decide (r' = r)); [contradiction | reflexivity].
Qed.

(** C6 as stated fails: on a context without a [learning_complete] entry
    whose latest assistant message holds a completion phrase,
    [should_continue] answers false and writes the entry. *)
Lemma should_continue_mutates_variables :
  variables (heap (mem (Sample.machine_of Sample.finished)) 0%nat) !! "learning_complete"
    = None /\
  fst (LearningAgent.should_continue 0%nat (mem (Sample.machine_of Sample.finished)))
    = Ret false /\
  variables (heap (snd (LearningAgent.should_continue 0%nat
                          (mem (Sample.machine_of Sample.finished)))) 0%nat)
    !! "learning_complete"
    = Some (PBool true).
Proof. repeat split; vm_compute; reflexivity. Qed.

(** ** [BedrockService]: retries *)

(** The body of [invoke_model] turns every exception into [BedrockError],
    which is not of a retried type. *)
Lemma invoke_model_body_raises_bedrock_error prompt system_prompt n e n' :
  Bedrock.invoke_model_body prompt system_prompt n = (Raise e, n') ->
  Bedrock.retry_if_exception_type e = false.
Proof.
  unfold Bedrock.invoke_model_body, try_except.
  destruct (bind _ _ n) as [[a|e0|] n0]; intros H; try discriminate.
  destruct e0; unfold raise in H; injection H as <- _; reflexivity.
Qed.

Lemma retrying_not_retried {A} fuel attempt (fn : M Bedrock.net A) n :
  (forall e n', fn n = (Raise e, n') -> Bedrock.retry_if_exception_type e = false) ->
  Bedrock.retrying fuel attempt fn n = fn n.
Proof.
  intros H. destruct fuel; cbn [Bedrock.retrying];
    destruct (fn n) as [[a|e|] n'] eqn:E; try reflexivity;
    rewrite (H e n' eq_refl); reflexivity.
Qed.

(** The decorator always ends: three units of fuel are enough for the
    three attempts. *)
Lemma retrying_total {A} (fn : M Bedrock.net A) :
  (forall n, fst (fn n) <> OutOfFuel) ->
  forall fuel attempt n,
    (3 <= attempt + fuel)%nat ->
    fst (Bedrock.retrying fuel attempt fn n) <> OutOfFuel.
Proof.
  intros Hfn fuel. induction fuel as [|fuel IH]; intros attempt n Hle;
    cbn [Bedrock.retrying]; pose proof (Hfn n) as Hn;
    destruct (fn n) as [[a|e|] n'] eqn:E; cbn [fst] in *; try discriminate; try congruence.
  - destruct (Bedrock.retry_if_exception_type e); [| discriminate].
    unfold Bedrock.stop_after_attempt.
    destruct (Nat.leb_spec 3 attempt); [discriminate | lia].
  - destruct (Bedrock.retry_if_exception_type e); [| discriminate].
    destruct (Bedrock.stop_after_attempt 3 attempt); [discriminate |].
    unfold bind, Bedrock.sleep. apply IH. lia.
Qed.

Lemma retry_total {A} (fn : M Bedrock.net A) n :
  (forall n, fst (fn n) <> OutOfFuel) -> fst (Bedrock.retry fn n) <> OutOfFuel.
Proof. intros Hfn. unfold Bedrock.retry. apply retrying_total; [exact Hfn | lia]. Qed.

(** The body of [invoke_model] calls the endpoint once. *)
Lemma invoke_model_body_one_call prompt system_prompt n :
  Bedrock.attempted (snd (Bedrock.invoke_model_body prompt system_prompt n))
    = (Bedrock.attempted n ++ ["invoke_model"])%list /\
  Bedrock.sleeps (snd (Bedrock.invoke_model_body prompt system_prompt n))
    = Bedrock.sleeps n.
Proof.
  unfold Bedrock.invoke_model_body, try_except, bind, Bedrock.call_endpoint, lift, ret, raise.
  destruct (Bedrock.endpoint n 0%nat) as [body|e]; cbn.
  - destruct (Bedrock.usage_counter body "input_tokens") as [a|e|]; cbn;
      [| destruct e; cbn; split; reflexivity | split; reflexivity].
    destruct (Bedrock.usage_counter body "output_tokens") as [b|e|]; cbn;
      [| destruct e; cbn; split; reflexivity | split; reflexivity].
    destruct body; cbn; split; reflexivity.
  - destruct e; cbn; split; reflexivity.
Qed.

(** Whatever the endpoint does, [invoke_model] attempts it exactly once and
    never sleeps: the decorator never sees an exception of a retried
    type. *)
Lemma invoke_model_single_attempt prompt system_prompt n :
  Bedrock.invoke_model prompt system_prompt n
    = Bedrock.invoke_model_body prompt system_prompt n /\
  Bedrock.attempted (snd (Bedrock.invoke_model prompt system_prompt n))
    = (Bedrock.attempted n ++ ["invoke_model"])%list /\
  Bedrock.sleeps (snd (Bedrock.invoke_model prompt system_prompt n))
    = Bedrock.sleeps n.
Proof.
  assert (H : Bedrock.invoke_model prompt system_prompt n
              = Bedrock.invoke_model_body prompt system_prompt n).
  { unfold Bedrock.invoke_model, Bedrock.retry. apply retrying_not_retried.
    intros e n'. apply invoke_model_body_raises_bedrock_error. }
  split; [exact H |]. rewrite H. apply invoke_model_body_one_call.
Qed.

(** C1, at the failing input.  On an endpoint that fails twice with a
    connection error and then answers, [invoke_model] does not return the
    answer: it attempts the endpoint once, sleeps no delay, and raises the
    [BedrockError] made from the first connection error. *)
Theorem invoke_model_gives_up_on_first_transient_failure :
  fst (Bedrock.invoke_model "prompt" None (Sample.flaky Sample.hello_body))
    = Raise (GenAIAssistantError BedrockError
               "Unexpected error: connection reset"
               [("error", PStr "connection reset")]) /\
  Bedrock.attempted (snd (Bedrock.invoke_model "prompt" None (Sample.flaky Sample.hello_body)))
    = ["invoke_model"] /\
  Bedrock.sleeps (snd (Bedrock.invoke_model "prompt" None (Sample.flaky Sample.hello_body)))
    = [].
Proof. repeat split; reflexivity. Qed.

(** The sibling method [invoke_agent] does not catch [ConnectionError]
    inside the decorated function, and there the decorator retries: on the
    same endpoint the answer is returned at the third attempt.  The two
    delays are those of [wait_exponential(multiplier=1, min=2, max=10)],
    2 seconds and 2 seconds. *)
Lemma invoke_agent_retries_connection_errors :
  fst (Bedrock.invoke_agent Sample.with_agent "hi" "session-1" true
         (Sample.flaky (PDict [("completion",
                                PList [PDict [("chunk", PDict [("bytes", PStr "done")])]])])))
    = Ret (PDict [("completion", PStr "done"); ("traces", PList []);
                  ("session_id", PStr "session-1")]) /\
  Bedrock.attempted
    (snd (Bedrock.invoke_agent Sample.with_agent "hi" "session-1" true
            (Sample.flaky (PDict [("completion",
                                   PList [PDict [("chunk", PDict [("bytes", PStr "done")])]])]))))
    = ["invoke_agent"; "invoke_agent"; "invoke_agent"] /\
  Bedrock.sleeps
    (snd (Bedrock.invoke_agent Sample.with_agent "hi" "session-1" true
            (Sample.flaky (PDict [("completion",
                                   PList [PDict [("chunk", PDict [("bytes", PStr "done")])]])]))))
    = [2; 2].
Proof. repeat split; reflexivity. Qed.

(** A failure that the endpoint reports as a client error is attempted
    once and raised at once, with its code and message. *)
Lemma invoke_model_client_error_once :
  fst (Bedrock.invoke_model "prompt" None Sample.rejecting)
    = Raise (GenAIAssistantError BedrockError
               "Bedrock model invocation failed: malformed request"
               [("error_code", PStr "ValidationException");
                ("error_message", PStr "malformed request")]) /\
  Bedrock.attempted (snd (Bedrock.invoke_model "prompt" None Sample.rejecting))
    = ["invoke_model"] /\
  Bedrock.sleeps (snd (Bedrock.invoke_model "prompt" None Sample.rejecting)) = [].
Proof. repeat split; reflexivity. Qed.

(** The delays of the decorator are bounded by 2 and 10 and do not
    decrease, but the first two are equal. *)
Lemma wait_exponential_bounds attempt :
  2 <= Bedrock.wait_exponential 1 2 10 attempt <= 10.
Proof. unfold Bedrock.wait_exponential. lia. Qed.

Lemma wait_exponential_first_two :
  Bedrock.wait_exponential 1 2 10 1 = 2 /\ Bedrock.wait_exponential 1 2 10 2 = 2.
Proof. split; reflexivity. Qed.

(** ** [BedrockService]: missing configuration *)

(** C8.  When the agent identifier or its alias is not configured,
    [invoke_agent] raises the [BedrockError] that says so, and when the
    knowledge base identifier is not configured,
    [retrieve_from_knowledge_base] does: in both cases the network is left
    as it was, so the endpoint was not attempted and no delay was slept. *)
Theorem missing_configuration_fails_before_any_attempt :
  forall (settings : Config.Settings) (input_text session_id query : string)
         (enable_trace : bool) (max_results : Z) (n : Bedrock.net),
    (Bedrock.unset (Config.bedrock_agent_id settings)
       || Bedrock.unset (Config.bedrock_agent_alias_id settings) = true ->
     Bedrock.invoke_agent settings input_text session_id enable_trace n =
       (Raise (GenAIAssistantError BedrockError
                 "Bedrock Agent ID and Alias ID must be configured"
                 [("agent_id", opt_str (Config.bedrock_agent_id settings))]),
        n)) /\
    (Bedrock.unset (Config.bedrock_knowledge_base_id settings) = true ->
     Bedrock.retrieve_from_knowledge_base settings query max_results n =
       (Raise (GenAIAssistantError BedrockError
                 "Knowledge Base ID must be configured"
                 [("knowledge_base_id", PNone)]),
        n)).
Proof.
  intros settings input_text session_id query enable_trace max_results n. split.
  - intros H. unfold Bedrock.invoke_agent, Bedrock.retry.
    rewrite retrying_not_retried.
    + unfold Bedrock.invoke_agent_body. rewrite H. reflexivity.
    + intros e n'. unfold Bedrock.invoke_agent_body. rewrite H.
      unfold raise. intros [= <- _]. reflexivity.
  - intros H. unfold Bedrock.retrieve_from_knowledge_base. rewrite H. reflexivity.
Qed.

Lemma missing_configuration_fails_before_any_attempt_witness :
  (Bedrock.unset (Config.bedrock_agent_id Sample.settings)
     || Bedrock.unset (Config.bedrock_agent_alias_id Sample.settings) = true /\
   Bedrock.invoke_agent Sample.settings "hi" "session-1" true (Sample.flaky Sample.hello_body) =
     (Raise (GenAIAssistantError BedrockError
               "Bedrock Agent ID and Alias ID must be configured"
               [("agent_id", PNone)]),
      Sample.flaky Sample.hello_body)) /\
  (Bedrock.unset (Config.bedrock_knowledge_base_id Sample.settings) = true /\
   Bedrock.retrieve_from_knowledge_base Sample.settings "recursion" 5
       (Sample.flaky Sample.hello_body) =
     (Raise (GenAIAssistantError BedrockError
               "Knowledge Base ID must be configured"
               [("knowledge_base_id", PNone)]),
      Sample.flaky Sample.hello_body)).
Proof.
  split.
  - assert (H : Bedrock.unset (Config.bedrock_agent_id Sample.settings)
                  || Bedrock.unset (Config.bedrock_agent_alias_id Sample.settings) = true)
      by reflexivity.
    split; [exact H |].
    exact (proj1 (missing_configuration_fails_before_any_attempt Sample.settings
                    "hi" "session-1" "recursion" true 5 (Sample.flaky Sample.hello_body)) H).
  - assert (H : Bedrock.unset (Config.bedrock_knowledge_base_id Sample.settings) = true)
      by reflexivity.
    split; [exact H |].
    exact (proj2 (missing_configuration_fails_before_any_attempt Sample.settings
                    "hi" "session-1" "recursion" true 5 (Sample.flaky Sample.hello_body)) H).
Defined.

(** ** [StrandAgent.invoke_model] *)

Lemma text_items_blocks blocks :
  text_items (map PDict blocks) =
    Ret (map (fun b => default (PStr "") (dict_get "text" b))
             (List.filter is_text_block blocks)).
Proof.
  induction blocks as [|b rest IH]; [reflexivity |].
  cbn [map text_items List.filter]. rewrite IH.
  change (eq_str (default PNone (dict_get "type" b)) "text") with (is_text_block b).
  destruct (is_text_block b); reflexivity.
Qed.

Lemma all_str_from_blocks blocks :
  forallb well_formed_block blocks = true ->
  forall position,
    all_str_from position
                 (map (fun b => default (PStr "") (dict_get "text" b))
                      (List.filter is_text_block blocks)) =
      Ret (map block_text (List.filter is_text_block blocks)).
Proof.
  induction blocks as [|b rest IH]; [reflexivity |].
  cbn [forallb List.filter]. intros [Hb Hrest]%andb_prop position.
  destruct (is_text_block b) eqn:Et; [| auto].
  cbn [map all_str_from]. unfold well_formed_block in Hb. rewrite Et in Hb. cbn in Hb.
  unfold block_text at 1.
  destruct (dict_get "text" b) as [[| | |s| |]|]; try discriminate; cbn;
    rewrite (IH Hrest); reflexivity.
Qed.

Lemma all_str_blocks blocks :
  forallb well_formed_block blocks = true ->
  all_str (map (fun b => default (PStr "") (dict_get "text" b))
               (List.filter is_text_block blocks)) =
    Ret (map block_text (List.filter is_text_block blocks)).
Proof. intros H. unfold all_str. now apply all_str_from_blocks. Qed.

Lemma response_text_blocks response blocks :
  dict_get "content" response = Some (PList (map PDict blocks)) ->
  forallb well_formed_block blocks = true ->
  response_text response = Ret (text_of_blocks blocks).
Proof.
  intros Hc Hwf. unfold response_text. rewrite Hc. cbn [iterate].
  rewrite text_items_blocks, all_str_blocks by exact Hwf. reflexivity.
Qed.

(** C10.  When the service returns a response without a ["content"] key,
    [invoke_model] returns the empty string and raises nothing.  When
    ["content"] is a list of blocks, the result is the concatenation, in
    order, of the texts of the blocks whose type is ["text"], stripped of
    surrounding whitespace; the blocks of any other type contribute
    nothing. *)
Theorem invoke_model_extracts_text :
  forall (S : Type) (service : string -> option string -> M S (list (string * pyval)))
         (prompt : string) (system_prompt : option string) (m m' : S)
         (response : list (string * pyval)),
    service prompt system_prompt m = (Ret response, m') ->
    (dict_get "content" response = None ->
     invoke_model service prompt system_prompt m = (Ret "", m')) /\
    (forall blocks,
        dict_get "content" response = Some (PList (map PDict blocks)) ->
        forallb well_formed_block blocks = true ->
        invoke_model service prompt system_prompt m = (Ret (text_of_blocks blocks), m')).
Proof.
  intros S service prompt system_prompt m m' response Hs. split.
  - intros Hnone. unfold invoke_model, try_except, bind, lift. rewrite Hs.
    unfold response_text. rewrite Hnone. reflexivity.
  - intros blocks Hc Hwf. unfold invoke_model, try_except, bind, lift. rewrite Hs.
    rewrite (response_text_blocks response blocks Hc Hwf). reflexivity.
Qed.

Lemma invoke_model_extracts_text_witness :
  (dict_get "content" [("usage", PDict [])] = None /\
   invoke_model (Sample.answering [("usage", PDict [])]) "prompt" None tt = (Ret "", tt)) /\
  (forallb well_formed_block Sample.mixed_blocks = true /\
   invoke_model (Sample.answering [("content", PList (map PDict Sample.mixed_blocks))])
                "prompt" None tt
     = (Ret "Hello world", tt)).
Proof.
  split.
  - assert (H : dict_get "content" [("usage", PDict [])] = None) by reflexivity.
    split; [exact H |].
    exact (proj1 (invoke_model_extracts_text unit (Sample.answering [("usage", PDict [])])
                    "prompt" None tt tt [("usage", PDict [])] eq_refl) H).
  - assert (H : forallb well_formed_block Sample.mixed_blocks = true) by reflexivity.
    split; [exact H |].
    exact (proj2 (invoke_model_extracts_text unit
                    (Sample.answering [("content", PList (map PDict Sample.mixed_blocks))])
                    "prompt" None tt tt
                    [("content", PList (map PDict Sample.mixed_blocks))] eq_refl)
                 Sample.mixed_blocks eq_refl H).
Defined.

(** ** The transport shape and back *)

Section RoundTrip.

Import Iso FromWire.

Lemma digit_value_digit_char d :
  0 <= d < 10 -> digit_value (digit_char d) = Some d.
Proof.
  intros H.
  assert (Hd : d = 0 \/ d = 1 \/ d = 2 \/ d = 3 \/ d = 4 \/
               d = 5 \/ d = 6 \/ d = 7 \/ d = 8 \/ d = 9) by lia.
  repeat (destruct Hd as [-> | Hd]; [reflexivity |]). subst d. reflexivity.
Qed.

Lemma append_cons c s rest : String c s ++ rest = String c (s ++ rest).
Proof. reflexivity. Qed.

Lemma append_nil rest : "" ++ rest = rest.
Proof. reflexivity. Qed.

Lemma append_empty s : s ++ "" = s.
Proof. induction s as [|c s IH]; [reflexivity |]. now rewrite append_cons, IH. Qed.

(** Reading back [width] printed digits gives the number, on top of what
    was read before. *)
Lemma read_digits_digits width :
  forall n acc rest,
    read_digits width acc (digits width n ++ rest)
      = Some (acc * 10 ^ Z.of_nat width + n mod 10 ^ Z.of_nat width, rest).
Proof.
  induction width as [|w IH]; intros n acc rest.
  - cbn [read_digits digits]. rewrite append_nil. f_equal. f_equal.
    change (10 ^ Z.of_nat 0) with 1. rewrite Z.mod_1_r. lia.
  - cbn [digits]. rewrite append_cons. cbn [read_digits].
    rewrite digit_value_digit_char by (apply Z.mod_pos_bound; lia).
    rewrite IH. f_equal. f_equal.
    rewrite Nat2Z.inj_succ, Z.pow_succ_r by lia.
    rewrite (Z.mul_comm 10 (10 ^ Z.of_nat w)).
    rewrite (Z.rem_mul_r n (10 ^ Z.of_nat w) 10) by lia.
    ring.
Qed.

Lemma read_field width n rest :
  0 <= n < 10 ^ Z.of_nat width ->
  read_digits width 0 (digits width n ++ rest) = Some (n, rest).
Proof.
  intros H. rewrite read_digits_digits, Z.mod_small by exact H. reflexivity.
Qed.

Lemma expect_separator c rest : expect c (String c "" ++ rest) = Some rest.
Proof. rewrite append_cons, append_nil. cbn [expect]. now rewrite Ascii.eqb_refl. Qed.

Lemma fromisoformat_isoformat d :
  valid d -> fromisoformat (isoformat d) = Some d.
Proof.
  intros (Hy & Hmo & Hd & Hh & Hmi & Hs & Hus).
  destruct d as [y mo dd h mi sec us]. cbn [year month day hour minute second microsecond] in *.
  unfold fromisoformat, isoformat.
  cbn [year month day hour minute second microsecond].
  rewrite read_field by (cbn; lia). cbn [mbind option_bind].
  rewrite expect_separator. cbn [mbind option_bind].
  rewrite read_field by (cbn; lia). cbn [mbind option_bind].
  rewrite expect_separator. cbn [mbind option_bind].
  rewrite read_field by (cbn; lia). cbn [mbind option_bind].
  rewrite expect_separator. cbn [mbind option_bind].
  rewrite read_field by (cbn; lia). cbn [mbind option_bind].
  rewrite expect_separator. cbn [mbind option_bind].
  rewrite read_field by (cbn; lia). cbn [mbind option_bind].
  rewrite expect_separator. cbn [mbind option_bind].
  rewrite read_field by (cbn; lia). cbn [mbind option_bind].
  destruct (Z.eqb_spec us 0) as [-> | Hne].
  - reflexivity.
  - rewrite append_cons, append_nil. cbn [expect]. rewrite Ascii.eqb_refl.
    cbn [mbind option_bind].
    rewrite <- (append_empty (digits 6 us)).
    rewrite read_field by (cbn; lia). reflexivity.
Qed.

Lemma state_of_value_state_value st : state_of_value (state_value st) = Some st.
Proof. destruct st; reflexivity. Qed.

Lemma message_round_trip msg :
  valid (timestamp msg) -> message_from_dict (StrandMessage_to_dict msg) = Some msg.
Proof.
  intros H. unfold message_from_dict, StrandMessage_to_dict.
  cbn [Wire.timestamp Wire.role Wire.content Wire.metadata].
  rewrite (fromisoformat_isoformat _ H). destruct msg; reflexivity.
Qed.

Lemma messages_round_trip msgs :
  Forall (fun msg => valid (timestamp msg)) msgs ->
  mapM message_from_dict (map StrandMessage_to_dict msgs) = Some msgs.
Proof.
  induction 1 as [|msg rest Hmsg _ IH]; [reflexivity |].
  cbn [map mapM]. rewrite (message_round_trip _ Hmsg). cbn [mbind option_bind].
  rewrite IH. reflexivity.
Qed.

Lemma nullable_time_round_trip o :
  (forall t, o = Some t -> valid t) ->
  nullable_time (isoformat <$> o) = Some o.
Proof.
  intros H. destruct o as [t|]; [| reflexivity].
  cbn [fmap option_fmap option_map nullable_time].
  rewrite (fromisoformat_isoformat t (H t eq_refl)). reflexivity.
Qed.

Lemma context_from_dict_to_dict c :
  valid_context c -> context_from_dict (StrandContext_to_dict c) = Some c.
Proof.
  intros (Hmsgs & Hstart & Hend).
  unfold context_from_dict, StrandContext_to_dict.
  cbn [Wire.strand_id Wire.session_id Wire.state Wire.messages Wire.variables
       Wire.iteration Wire.max_iterations Wire.start_time Wire.end_time Wire.error].
  rewrite state_of_value_state_value. cbn [mbind option_bind].
  rewrite (messages_round_trip _ Hmsgs). cbn [mbind option_bind].
  rewrite (nullable_time_round_trip _ Hstart). cbn [mbind option_bind].
  rewrite (nullable_time_round_trip _ Hend). cbn [mbind option_bind].
  destruct c; reflexivity.
Qed.

(** [to_dict] loses nothing: two contexts with the same transport shape
    are the same context. *)
Lemma to_dict_injective c1 c2 :
  valid_context c1 -> valid_context c2 ->
  StrandContext_to_dict c1 = StrandContext_to_dict c2 -> c1 = c2.
Proof.
  intros H1 H2 Heq.
  pose proof (context_from_dict_to_dict c1 H1) as E1.
  pose proof (context_from_dict_to_dict c2 H2) as E2.
  rewrite Heq in E1. congruence.
Qed.

End RoundTrip.

(** C9.  Reading back the transport shape of a context gives the context
    itself: the messages in their order with their timestamps to the
    microsecond, the variables, and every other field. *)
Theorem context_round_trip :
  forall c : StrandContext,
    valid_context c ->
    FromWire.context_from_dict (StrandContext_to_dict c) = Some c /\
    (forall d,
        FromWire.context_from_dict (StrandContext_to_dict c) = Some d ->
        messages d = messages c /\
        map timestamp (messages d) = map timestamp (messages c) /\
        variables d = variables c).
Proof.
  intros c Hc. pose proof (context_from_dict_to_dict c Hc) as H.
  split; [exact H |].
  intros d Hd. rewrite H in Hd. injection Hd as <-. repeat split; reflexivity.
Qed.

Example isoformat_with_microseconds :
  Iso.isoformat (mkDatetime 2024 3 5 7 8 9 250000) = "2024-03-05T07:08:09.250000".
Proof. reflexivity. Qed.

Example isoformat_whole_second :
  Iso.isoformat (Sample.seconds 7) = "2024-01-01T00:00:07".
Proof. reflexivity. Qed.

Lemma archived_valid : valid_context Sample.archived.
Proof.
  unfold valid_context, Sample.archived, Iso.valid. cbn. split; [| split].
  - repeat constructor; cbn; lia.
  - intros t [= <-]. cbn. lia.
  - intros t [= <-]. cbn. lia.
Qed.

Lemma context_round_trip_witness :
  valid_context Sample.archived /\
  FromWire.context_from_dict (StrandContext_to_dict Sample.archived) = Some Sample.archived.
Proof.
  split; [exact archived_valid |].
  exact (proj1 (context_round_trip Sample.archived archived_valid)).
Defined.

(** * Further properties of the engine *)

(** ** The loop and its budget *)

Section LoopInvariant.

Variable P : StepPolicy.
Hypothesis Hpure : pure_check P.
Hypothesis Hkeep : steps_keep_counters P.

(** Whatever the policy answers and however much fuel there is, the loop
    makes no more calls of [process_step] than there are steps left in the
    budget; when it returns, it returns the context it was given, whose
    counter has advanced by the number of calls. *)
Lemma execute_loop_within_budget fuel :
  forall r m o m',
    _execute_loop P fuel r m = (o, m') ->
    let c0 := heap (mem m) r in
    (process_step_calls (trace m) <= process_step_calls (trace m')
       <= process_step_calls (trace m) + steps_left c0)%nat /\
    (forall res, o = Ret res ->
       res = r /\
       iteration (heap (mem m') r)
         = iteration c0
           + Z.of_nat (process_step_calls (trace m') - process_step_calls (trace m)) /\
       max_iterations (heap (mem m') r) = max_iterations c0).
Proof.
  induction fuel as [|fuel IH]; intros r m o m' E; cbn zeta.
  - cbn [_execute_loop] in E. unfold out_of_fuel in E. injection E as <- <-.
    split; [lia | intros res [=]].
  - cbn [_execute_loop] in E. unfold bind at 1 in E. unfold call_should_continue in E.
    pose proof (Hpure r (mem m)) as Hs.
    destruct (should_continue P r (mem m)) as [[b|e|] s]; cbn [snd] in Hs; subst s;
      cbn beta iota in E.
    2,3: injection E as <- <-; cbn [trace]; rewrite process_step_calls_app; cbn;
         split; [lia | intros res [=]].
    destruct b.
    2: { unfold ret in E. injection E as <- <-. cbn [trace mem].
         rewrite process_step_calls_app. cbn.
         split; [lia |]. intros res [= <-]. rewrite Nat.add_0_r, Nat.sub_diag, Z.add_0_r.
         repeat split; reflexivity. }
    unfold bind at 1 in E. unfold read at 1 in E. cbn beta iota in E.
    unfold bind at 1 in E. unfold read at 1 in E. cbn beta iota in E. cbn [mem] in E.
    destruct (Z.leb_spec (max_iterations (heap (mem m) r)) (iteration (heap (mem m) r)))
      as [Hle|Hlt].
    { unfold bind, read, raise in E. injection E as <- <-. cbn [trace].
      rewrite process_step_calls_app. cbn. split; [lia | intros res [=]]. }
    unfold bind at 1 in E. unfold call_process_step in E. cbn [mem trace] in E.
    pose proof (Hkeep r (mem m)) as Hk.
    destruct (process_step P r (mem m)) as [[r'|e|] s']; cbn [fst snd] in Hk;
      cbn beta iota in E.
    2,3: injection E as <- <-; cbn [trace]; rewrite !process_step_calls_app; cbn;
         unfold steps_left; split; [lia | intros res [=]].
    destruct (Hk r' eq_refl) as (-> & Hit & Hmax).
    unfold bind at 1 in E. unfold assign in E. cbn [mem trace] in E. cbn beta iota in E.
    set (m1 := mkMachine _ _) in E.
    specialize (IH r m1 o m' E). cbn zeta in IH. destruct IH as (Hcalls & Hret).
    assert (Hit1 : iteration (heap (mem m1) r) = iteration (heap (mem m) r) + 1)
      by (subst m1; cbn [mem]; rewrite heap_update_same; cbn; lia).
    assert (Hmax1 : max_iterations (heap (mem m1) r) = max_iterations (heap (mem m) r))
      by (subst m1; cbn [mem]; rewrite heap_update_same; cbn; lia).
    assert (Htr1 : process_step_calls (trace m1) = S (process_step_calls (trace m)))
      by (subst m1; cbn [trace]; rewrite !process_step_calls_app; cbn; lia).
    assert (Hleft : steps_left (heap (mem m) r) = S (steps_left (heap (mem m1) r)))
      by (unfold steps_left; rewrite Hit1, Hmax1; lia).
    split; [lia |].
    intros res Hres. destruct (Hret res Hres) as (-> & Hfin & Hfmax).
    split; [reflexivity |]. split; [| congruence].
    rewrite Hfin, Hit1. lia.
Qed.

End LoopInvariant.

(** ** What [execute] adds to the loop *)

Section Epilogue.

Variable settings : Config.Settings.
Variable P : StepPolicy.

Lemma execute_except_trace r T e m :
  trace (snd (execute_except r T e m)) = trace m.
Proof.
  assert (Hcases : (exists text, e = TimeoutError text) \/ (forall text, e <> TimeoutError text)).
  { destruct e; try (right; intros; discriminate). left. eexists. reflexivity. }
  destruct Hcases as [[text ->] | Hnt].
  - apply (execute_except_timeout r T text m).
  - apply (execute_except_failure r T e m Hnt).
Qed.

(** The body of the [try] once the loop has returned. *)
Lemma execute_try_after_loop fuel r timeout m res m2 :
  wait_for (timeout_or_default settings timeout) (_execute_loop P fuel r) m = (Ret res, m2) ->
  execute_try settings P fuel r timeout m =
    (match start_time (heap (mem m2) res) with
     | Some _ => Ret res
     | None =>
         Raise (Exception "TypeError"
                  "unsupported operand type(s) for -: 'datetime.datetime' and 'NoneType'")
     end,
     mkMachine
       (update res (with_end_time (Some (clock (mem m2) 0%nat)))
          (mkStore (heap (update res (with_state COMPLETED) (mem m2)))
                   (next_ref (mem m2)) (fun n => clock (mem m2) (S n)) (uuids (mem m2))))
       (trace m2)).
Proof.
  intros E. unfold execute_try. unfold bind at 1. rewrite E.
  unfold bind, assign, utcnow, read, ret, raise, update. cbn.
  destruct (decide (res = res)) as [_|Hne]; [| congruence]. cbn.
  destruct (start_time (heap (mem m2) res)); reflexivity.
Qed.

(** The [try] statement makes no call of the policy beyond those of the
    loop. *)
Lemma execute_guarded_trace fuel r timeout m o m2 :
  wait_for (timeout_or_default settings timeout) (_execute_loop P fuel r) m = (o, m2) ->
  trace (snd (execute_guarded settings P fuel r timeout m)) = trace m2.
Proof.
  intros E. unfold execute_guarded, try_except.
  destruct o as [res|e|].
  - rewrite (execute_try_after_loop fuel r timeout m res m2 E).
    destruct (start_time (heap (mem m2) res)); [reflexivity |].
    rewrite execute_except_trace. reflexivity.
  - rewrite (execute_try_raises settings P fuel r timeout m e m2 E).
    apply execute_except_trace.
  - unfold execute_try. unfold bind at 1. rewrite E. reflexivity.
Qed.

(** An awaited loop that returns did run: the deadline was positive. *)
Lemma wait_for_returns {A} T (body : M machine A) m res m2 :
  wait_for T body m = (Ret res, m2) -> 0 < T /\ body m = (Ret res, m2).
Proof.
  intros H. destruct (wait_for_cases T body m) as [[_ E] | [HT E]].
  - rewrite E in H. discriminate.
  - split; [exact HT | now rewrite <- E].
Qed.

(** The bound on the calls of the loop holds for the awaited loop, which
    makes the calls of the loop or none. *)
Lemma awaited_loop_within_budget T fuel r m o m' :
  pure_check P -> steps_keep_counters P ->
  wait_for T (_execute_loop P fuel r) m = (o, m') ->
  let c0 := heap (mem m) r in
  (process_step_calls (trace m) <= process_step_calls (trace m')
     <= process_step_calls (trace m) + steps_left c0)%nat /\
  (forall res, o = Ret res ->
     res = r /\
     iteration (heap (mem m') r)
       = iteration c0
         + Z.of_nat (process_step_calls (trace m') - process_step_calls (trace m)) /\
     max_iterations (heap (mem m') r) = max_iterations c0).
Proof.
  intros Hpure Hkeep E.
  destruct (wait_for_cases T (_execute_loop P fuel r) m) as [[_ Ew] | [_ Ew]];
    rewrite Ew in E.
  - injection E as <- <-. cbn zeta. split; [lia | intros res [=]].
  - exact (execute_loop_within_budget P Hpure Hkeep fuel r m o m' E).
Qed.

Lemma execute_except_never_returns r T e m res :
  fst (execute_except r T e m) <> Ret res.
Proof.
  assert (Hc : (exists text, e = TimeoutError text) \/ (forall text, e <> TimeoutError text)).
  { destruct e; try (right; intros; discriminate). left. eexists. reflexivity. }
  destruct Hc as [[text ->] | Hnt].
  - destruct (execute_except_timeout r T text m) as (-> & _). discriminate.
  - destruct (execute_except_failure r T e m Hnt) as (-> & _). discriminate.
Qed.

(** When the [try] statement returns, the loop returned the same object,
    which had a start time; the object is now COMPLETED with its end time
    set, and nothing else has changed since the loop ended. *)
Lemma execute_guarded_returns fuel r timeout m res m' :
  execute_guarded settings P fuel r timeout m = (Ret res, m') ->
  exists m2,
    _execute_loop P fuel r m = (Ret res, m2) /\
    start_time (heap (mem m2) res) <> None /\
    trace m' = trace m2 /\
    heap (mem m') res
      = with_end_time (Some (clock (mem m2) 0%nat)) (with_state COMPLETED (heap (mem m2) res)) /\
    (forall r', r' <> res -> heap (mem m') r' = heap (mem m2) r').
Proof.
  intros H. unfold execute_guarded, try_except in H.
  destruct (wait_for (timeout_or_default settings timeout) (_execute_loop P fuel r) m)
    as [[res0|e|] m2] eqn:E.
  - rewrite (execute_try_after_loop fuel r timeout m res0 m2 E) in H.
    destruct (start_time (heap (mem m2) res0)) as [t|] eqn:Est.
    + injection H as <- <-. exists m2.
      split; [exact (proj2 (wait_for_returns _ _ _ _ _ E)) |]. split; [congruence |].
      split; [reflexivity |]. cbn [mem]. rewrite heap_update_same. cbn [heap].
      destruct (decide (res0 = res0)) as [_|Hne]; [| congruence].
      split; [reflexivity |].
      intros r' Hne. rewrite heap_update_other by exact Hne. cbn [heap].
      destruct (decide (r' = res0)); [contradiction | reflexivity].
    + exfalso. eapply execute_except_never_returns. rewrite H. reflexivity.
  - rewrite (execute_try_raises settings P fuel r timeout m e m2 E) in H.
    exfalso. eapply execute_except_never_returns. rewrite H. reflexivity.
  - unfold execute_try in H. unfold bind at 1 in H. rewrite E in H. discriminate.
Qed.

(** The [try] statement returns only under a positive deadline. *)
Lemma execute_guarded_returns_in_time fuel r timeout m res m' :
  execute_guarded settings P fuel r timeout m = (Ret res, m') ->
  0 < timeout_or_default settings timeout.
Proof.
  intros H. destruct (Z.lt_ge_cases 0 (timeout_or_default settings timeout)) as [HT|HT];
    [exact HT | exfalso].
  rewrite (execute_guarded_raises settings P fuel r timeout m (TimeoutError "") m) in H
    by (now apply execute_try_elapsed).
  eapply execute_except_never_returns. rewrite H. reflexivity.
Qed.

End Epilogue.

(** ** Runs of [execute] *)

(** X1.  Under a policy whose check changes nothing and whose step, when
    it returns, returns its context with counter and budget untouched,
    [execute] on a given context never makes more calls of [process_step]
    than [max_iterations - iteration] (none when that is negative),
    whatever the fuel and however the run ends.  When [execute] returns,
    it returns that context, COMPLETED, and its counter has advanced by
    exactly the number of calls made. *)
Theorem execute_stays_within_budget :
  forall (settings : Config.Settings) (P : StepPolicy) (fuel : nat) (input : string)
         (r : ref) (timeout : option Z) (m : machine),
    pure_check P -> steps_keep_counters P ->
    let out := execute settings P fuel input (Some r) timeout m in
    (process_step_calls (trace m) <= process_step_calls (trace (snd out))
       <= process_step_calls (trace m) + steps_left (heap (mem m) r))%nat /\
    (forall res, fst out = Ret res ->
       res = r /\
       state (heap (mem (snd out)) r) = COMPLETED /\
       iteration (heap (mem (snd out)) r)
         = iteration (heap (mem m) r)
           + Z.of_nat (process_step_calls (trace (snd out)) - process_step_calls (trace m)) /\
       max_iterations (heap (mem (snd out)) r) = max_iterations (heap (mem m) r)).
Proof.
  intros settings P fuel input r timeout m Hpure Hkeep out. subst out.
  rewrite execute_unfold. cbn [context_of].
  destruct (prologue_fields settings input r m)
    as (_ & Htr & _ & _ & _ & _ & Hit1 & Hmax1 & _).
  set (m1 := snd (execute_prologue settings input (Some r) m)) in *.
  destruct (wait_for (timeout_or_default settings timeout) (_execute_loop P fuel r) m1)
    as [o m2] eqn:Eloop.
  destruct (awaited_loop_within_budget P (timeout_or_default settings timeout) fuel r m1 o m2
              Hpure Hkeep Eloop) as (Hcalls & Hret).
  rewrite (execute_guarded_trace settings P fuel r timeout m1 o m2 Eloop).
  unfold steps_left in *. rewrite Hit1, Hmax1, Htr in Hcalls.
  split; [exact Hcalls |].
  intros res Hres.
  destruct (execute_guarded settings P fuel r timeout m1) as [o' m'] eqn:Eg.
  cbn [fst snd] in *. subst o'.
  destruct (execute_guarded_returns settings P fuel r timeout m1 res m' Eg)
    as (m2' & Eloop' & _ & _ & Hheap & _).
  rewrite (wait_for_positive _ _ (execute_guarded_returns_in_time settings P fuel r timeout
                                    m1 res m' Eg)) in Eloop.
  rewrite Eloop in Eloop'. injection Eloop' as -> <-.
  destruct (Hret res eq_refl) as (-> & Hfin & Hfmax).
  rewrite Hheap. cbn. rewrite Hfin, Hfmax, Hit1, Hmax1, Htr.
  repeat split; reflexivity.
Qed.

Lemma two_steps_pure : pure_check Sample2.two_steps.
Proof. intros r s. reflexivity. Qed.

Lemma two_steps_keep_counters : steps_keep_counters Sample2.two_steps.
Proof. intros r s r' [= <-]. repeat split; reflexivity. Qed.

Lemma execute_stays_within_budget_witness :
  pure_check Sample2.two_steps /\
  steps_keep_counters Sample2.two_steps /\
  fst (execute Sample.settings Sample2.two_steps 9 "hello" (Some 0%nat) None
         (Sample.machine_of (Sample.context IDLE 0))) = Ret 0%nat /\
  iteration (heap (mem (snd (execute Sample.settings Sample2.two_steps 9 "hello" (Some 0%nat)
                               None (Sample.machine_of (Sample.context IDLE 0))))) 0%nat) = 2.
Proof.
  pose proof (execute_stays_within_budget Sample.settings Sample2.two_steps 9 "hello" 0%nat
                None (Sample.machine_of (Sample.context IDLE 0))
                two_steps_pure two_steps_keep_counters) as [_ Hret].
  cbn zeta in Hret.
  destruct (Hret 0%nat eq_refl) as (_ & _ & Hit & _).
  split; [exact two_steps_pure |]. split; [exact two_steps_keep_counters |].
  split; [reflexivity |]. etransitivity; [exact Hit | reflexivity].
Defined.



(** X3.  On a context that already has messages the initial input is
    dropped: whatever text is passed, [execute] does the same thing. *)
Theorem execute_ignores_input_after_first_message :
  forall (settings : Config.Settings) (P : StepPolicy) (fuel : nat)
         (input1 input2 : string) (r : ref) (timeout : option Z) (m : machine),
    messages (heap (mem m) r) <> [] ->
    execute settings P fuel input1 (Some r) timeout m
      = execute settings P fuel input2 (Some r) timeout m.
Proof.
  intros settings P fuel input1 input2 r timeout m Hne.
  unfold execute, bind.
  rewrite (prologue_nonempty settings input1 r m Hne).
  rewrite (prologue_nonempty settings input2 r m Hne). reflexivity.
Qed.

Lemma execute_ignores_input_after_first_message_witness :
  messages (heap (mem (Sample.machine_of (Sample.context COMPLETED 1))) 0%nat) <> [] /\
  execute Sample.settings Sample.echo 5 "What is Python?" (Some 0%nat) None
          (Sample.machine_of (Sample.context COMPLETED 1))
    = execute Sample.settings Sample.echo 5 "Can you give me an example?" (Some 0%nat) None
              (Sample.machine_of (Sample.context COMPLETED 1)).
Proof.
  assert (H : messages (heap (mem (Sample.machine_of (Sample.context COMPLETED 1))) 0%nat) <> [])
    by (cbn; discriminate).
  split; [exact H |].
  exact (execute_ignores_input_after_first_message Sample.settings Sample.echo 5
           "What is Python?" "Can you give me an example?" 0%nat None
           (Sample.machine_of (Sample.context COMPLETED 1)) H).
Defined.

(** ** Messages and new contexts *)

(** X4.  [add_message] puts the new message at the end: the conversation
    history afterwards is the history before followed by the new role and
    content; the message is stamped with the time of the call and gets an
    empty metadata map when none is passed; no other field of the context
    and no other context changes. *)
Theorem add_message_extends_history :
  forall (self : ref) (role0 content0 : string) (md : option (gmap string pyval))
         (m : machine),
    let out := add_message self role0 content0 md m in
    let c := heap (mem m) self in
    let c' := heap (mem (snd out)) self in
    fst out = Ret tt /\
    messages c' = (messages c ++ [mkMessage role0 content0 (clock (mem m) 0%nat) (default ∅ md)])%list /\
    get_conversation_history c' = (get_conversation_history c ++ [(role0, content0)])%list /\
    c' = with_messages (messages c') c /\
    (forall r', r' <> self -> heap (mem (snd out)) r' = heap (mem m) r') /\
    trace (snd out) = trace m.
Proof.
  intros self role0 content0 md m. cbn zeta.
  unfold add_message, bind, utcnow, assign. cbn [fst snd mem trace].
  rewrite heap_update_same. cbn [heap messages with_messages clock].
  split; [reflexivity |]. split; [reflexivity |]. split.
  { unfold get_conversation_history. cbn [messages]. apply List.map_app. }
  split; [reflexivity |]. split; [| reflexivity].
  intros r' Hne. rewrite heap_update_other by exact Hne. reflexivity.
Qed.

(** X5.  Without a context, the prologue of [execute] works on a new
    object: its identifiers are the next two values of the [uuid4] source,
    its budget is the configured [max_iterations], its counter is 0, its
    history is the initial input alone, it is RUNNING with a start time
    and without end time or error.  No object that existed before is
    changed. *)
Theorem execute_without_context_starts_fresh :
  forall (settings : Config.Settings) (input : string) (m : machine),
    let out := execute_prologue settings input None m in
    let r := next_ref (mem m) in
    fst out = Ret r /\
    heap (mem (snd out)) r
      = mkContext (uuids (mem m) 0%nat) (uuids (mem m) 1%nat) RUNNING
                  [mkMessage "user" input (clock (mem m) 0%nat) ∅] ∅ 0
                  (Config.max_iterations settings)
                  (Some (clock (mem m) 1%nat)) None None /\
    next_ref (mem (snd out)) = S r /\
    (forall r', r' <> r -> heap (mem (snd out)) r' = heap (mem m) r') /\
    trace (snd out) = trace m.
Proof.
  intros settings input m. cbn zeta.
  unfold execute_prologue, new_context, bind, ret, read, uuid4, alloc, add_message,
    utcnow, assign, update. cbn.
  destruct (decide (next_ref (mem m) = next_ref (mem m))) as [_|Hne]; [| congruence]. cbn.
  destruct (decide (next_ref (mem m) = next_ref (mem m))) as [_|Hne]; [| congruence].
  repeat split.
  intros r' Hne. destruct (decide (r' = next_ref (mem m))); [contradiction | reflexivity].
Qed.

(** X6.  Under a positive deadline, when the loop returns an object that
    has no start time and is not the context [execute] was given, the run
    fails although the loop completed: the returned object has been marked
    COMPLETED, the given context is marked FAILED with the text of the
    [TypeError], and the caller gets [AgentExecutionError]. *)
Theorem execute_fails_on_result_without_start_time :
  forall (settings : Config.Settings) (P : StepPolicy) (fuel : nat) (r res : ref)
         (timeout : option Z) (m m2 : machine),
    0 < timeout_or_default settings timeout ->
    _execute_loop P fuel r m = (Ret res, m2) ->
    start_time (heap (mem m2) res) = None ->
    res <> r ->
    let out := execute_guarded settings P fuel r timeout m in
    fst out =
      Raise (GenAIAssistantError AgentExecutionError
               "Strand execution failed: unsupported operand type(s) for -: 'datetime.datetime' and 'NoneType'"
               [("strand_id", PStr (strand_id (heap (mem m2) r)));
                ("error",
                 PStr "unsupported operand type(s) for -: 'datetime.datetime' and 'NoneType'")]) /\
    state (heap (mem (snd out)) res) = COMPLETED /\
    state (heap (mem (snd out)) r) = FAILED /\
    error (heap (mem (snd out)) r)
      = Some "unsupported operand type(s) for -: 'datetime.datetime' and 'NoneType'".
Proof.
  intros settings P fuel r res timeout m m2 HT Eloop Hst Hne out. subst out.
  unfold execute_guarded, try_except.
  rewrite <- (wait_for_positive (timeout_or_default settings timeout) (_execute_loop P fuel r) HT)
    in Eloop.
  rewrite (execute_try_after_loop settings P fuel r timeout m res m2 Eloop), Hst.
  set (m3 := mkMachine _ _).
  destruct (execute_except_failure r (timeout_or_default settings timeout)
              (Exception "TypeError"
                 "unsupported operand type(s) for -: 'datetime.datetime' and 'NoneType'") m3)
    as (Hraise & Hctx & Hother & _); [intros text; discriminate |].
  rewrite Hraise, Hctx, (Hother res Hne). subst m3. cbn [mem].
  rewrite heap_update_same. cbn [heap]. rewrite heap_update_same.
  rewrite heap_update_other by congruence. cbn [heap].
  rewrite heap_update_other by congruence.
  repeat split; reflexivity.
Qed.

Lemma execute_fails_on_result_without_start_time_witness :
  0 < timeout_or_default Sample.settings None /\
  _execute_loop Sample2.detour 5 0%nat
      (snd (execute_prologue Sample.settings "hello" (Some 0%nat)
              (Sample.machine_of (Sample.context IDLE 0))))
    = (Ret 7%nat,
       snd (_execute_loop Sample2.detour 5 0%nat
              (snd (execute_prologue Sample.settings "hello" (Some 0%nat)
                      (Sample.machine_of (Sample.context IDLE 0)))))) /\
  state (heap (mem (snd (execute Sample.settings Sample2.detour 5 "hello" (Some 0%nat) None
                           (Sample.machine_of (Sample.context IDLE 0))))) 7%nat) = COMPLETED /\
  state (heap (mem (snd (execute Sample.settings Sample2.detour 5 "hello" (Some 0%nat) None
                           (Sample.machine_of (Sample.context IDLE 0))))) 0%nat) = FAILED.
Proof.
  assert (HT : 0 < timeout_or_default Sample.settings None) by (cbn; lia).
  assert (E : _execute_loop Sample2.detour 5 0%nat
                (snd (execute_prologue Sample.settings "hello" (Some 0%nat)
                        (Sample.machine_of (Sample.context IDLE 0))))
              = (Ret 7%nat,
                 snd (_execute_loop Sample2.detour 5 0%nat
                        (snd (execute_prologue Sample.settings "hello" (Some 0%nat)
                                (Sample.machine_of (Sample.context IDLE 0)))))))
    by reflexivity.
  split; [exact HT |]. split; [exact E |].
  pose proof (execute_fails_on_result_without_start_time Sample.settings Sample2.detour 5
                0%nat 7%nat None _ _ HT E eq_refl (fun H => Nat.neq_succ_0 6 H))
    as (_ & Hres & Hctx & _).
  rewrite execute_unfold. cbn [context_of]. split; assumption.
Defined.

(** * Further properties of the Bedrock service *)

(** ** Stateless computations *)

Lemma stateless_ret {S A} (a : A) : stateless (ret a : M S A).
Proof. intros s. reflexivity. Qed.

Lemma stateless_raise {S A} (e : exn) : stateless (raise e : M S A).
Proof. intros s. reflexivity. Qed.

Lemma stateless_lift {S A} (o : outcome A) : stateless (lift o : M S A).
Proof. intros s. reflexivity. Qed.

Lemma stateless_bind {S A B} (c : M S A) (k : A -> M S B) :
  stateless c -> (forall a, stateless (k a)) -> stateless (bind c k).
Proof.
  intros Hc Hk s. unfold bind. pose proof (Hc s) as H.
  destruct (c s) as [[a|e|] s']; cbn [snd] in H; subst s'; [apply Hk | reflexivity | reflexivity].
Qed.

(** A call of the endpoint followed by stateless work, under stateless
    handlers, leaves the network one call further. *)
Lemma one_call_then_stateless {A} op (k : pyval -> M Bedrock.net A)
    (h : exn -> M Bedrock.net A) n :
  (forall b, stateless (k b)) -> (forall e, stateless (h e)) ->
  snd (try_except (bind (Bedrock.call_endpoint op) k) h n) = after_calls op 1 [] n.
Proof.
  intros Hk Hh. unfold try_except, bind, Bedrock.call_endpoint, after_calls.
  rewrite app_nil_r. cbn [repeat Nat.add].
  destruct (Bedrock.endpoint n 0%nat) as [body|e].
  - set (n1 := Bedrock.mkNet _ _ _). pose proof (Hk body n1) as H.
    destruct (k body n1) as [[a|e|] n2]; cbn [snd] in H; subst n2; [reflexivity | | reflexivity].
    apply Hh.
  - apply Hh.
Qed.

(** ** The decorator, unfolded *)

(** The decorated function is called once; if it raises an exception of a
    retried type it is called again after 2 seconds; if it does so again
    it is called a last time after 2 more seconds, and whatever that call
    does is the result. *)
Lemma retry_unfold {A} (fn : M Bedrock.net A) n :
  Bedrock.retry fn n =
    match fn n with
    | (Raise e1, n1) =>
        if Bedrock.retry_if_exception_type e1 then
          match fn (snd (Bedrock.sleep 2 n1)) with
          | (Raise e2, n2) =>
              if Bedrock.retry_if_exception_type e2 then fn (snd (Bedrock.sleep 2 n2))
              else (Raise e2, n2)
          | r => r
          end
        else (Raise e1, n1)
    | r => r
    end.
Proof.
  unfold Bedrock.retry. cbn [Bedrock.retrying].
  destruct (fn n) as [[a|e1|] n1]; try reflexivity.
  destruct (Bedrock.retry_if_exception_type e1); [| reflexivity].
  cbn. unfold bind, Bedrock.sleep. cbn.
  destruct (fn _) as [[a|e2|] n2]; try reflexivity.
  destruct (Bedrock.retry_if_exception_type e2); [| reflexivity].
  cbn. unfold bind, Bedrock.sleep. cbn.
  destruct (fn _) as [[a|e3|] n3]; try reflexivity.
  destruct (Bedrock.retry_if_exception_type e3); reflexivity.
Qed.

(** What holds of every result of the function holds of every result of
    the decorated function. *)
Lemma retry_result {A} (fn : M Bedrock.net A) (Q : outcome A -> Prop) n :
  (forall n0, Q (fst (fn n0))) -> Q (fst (Bedrock.retry fn n)).
Proof.
  intros H. rewrite retry_unfold.
  pose proof (H n) as H1. destruct (fn n) as [[a|e1|] n1]; cbn [fst] in *; try exact H1.
  destruct (Bedrock.retry_if_exception_type e1); [| exact H1].
  pose proof (H (snd (Bedrock.sleep 2 n1))) as H2.
  destruct (fn (snd (Bedrock.sleep 2 n1))) as [[a|e2|] n2]; cbn [fst] in *; try exact H2.
  destruct (Bedrock.retry_if_exception_type e2); [| exact H2].
  apply H.
Qed.

(** A decorated function that calls the endpoint once per invocation
    calls it one to three times, with a delay of 2 seconds between two
    calls. *)
Lemma retry_attempts {A} op (fn : M Bedrock.net A) n :
  (forall n0, snd (fn n0) = after_calls op 1 [] n0) ->
  snd (Bedrock.retry fn n) = after_calls op 1 [] n \/
  snd (Bedrock.retry fn n) = after_calls op 2 [2] n \/
  snd (Bedrock.retry fn n) = after_calls op 3 [2; 2] n.
Proof.
  intros H. rewrite retry_unfold.
  pose proof (H n) as H1. destruct (fn n) as [[a|e1|] n1]; cbn [snd] in *; auto.
  destruct (Bedrock.retry_if_exception_type e1); auto. right.
  pose proof (H (snd (Bedrock.sleep 2 n1))) as H2.
  assert (Hcomp2 : after_calls op 1 [] (snd (Bedrock.sleep 2 n1)) = after_calls op 2 [2] n).
  { subst n1. unfold after_calls, Bedrock.sleep. cbn.
    rewrite !app_nil_r, <- !app_assoc. reflexivity. }
  rewrite Hcomp2 in H2.
  destruct (fn (snd (Bedrock.sleep 2 n1))) as [[a|e2|] n2]; cbn [snd] in *; auto.
  destruct (Bedrock.retry_if_exception_type e2); auto. right.
  rewrite H. subst n2. unfold after_calls, Bedrock.sleep. cbn.
  rewrite !app_nil_r, <- !app_assoc. reflexivity.
Qed.

(** ** [invoke_agent] *)

Section AgentInvocation.

Variable settings : Config.Settings.
Hypothesis Hconfigured :
  Bedrock.unset (Config.bedrock_agent_id settings)
    || Bedrock.unset (Config.bedrock_agent_alias_id settings) = false.

Lemma invoke_agent_body_one_call input_text session_id enable_trace n :
  snd (Bedrock.invoke_agent_body settings input_text session_id enable_trace n)
    = after_calls "invoke_agent" 1 [] n.
Proof.
  unfold Bedrock.invoke_agent_body. rewrite Hconfigured.
  apply one_call_then_stateless.
  - intros b. apply stateless_bind; [apply stateless_lift |].
    intros events. apply stateless_bind; [apply stateless_lift |].
    intros out. apply stateless_ret.
  - intros e. destruct e; apply stateless_raise.
Qed.

(** What the body does with a fault of the endpoint. *)
Lemma invoke_agent_body_fault input_text session_id enable_trace n e :
  Bedrock.endpoint n 0%nat = Bedrock.Fault e ->
  fst (Bedrock.invoke_agent_body settings input_text session_id enable_trace n) =
    match e with
    | ClientError code message text =>
        Raise (GenAIAssistantError BedrockError
                 ("Agent invocation failed: " ++ default text message)
                 [("error_code", PStr (default "Unknown" code));
                  ("error_message", PStr (default text message))])
    | _ => Raise e
    end.
Proof.
  intros He. unfold Bedrock.invoke_agent_body. rewrite Hconfigured.
  unfold try_except, bind, Bedrock.call_endpoint. rewrite He.
  destruct e; reflexivity.
Qed.

End AgentInvocation.

(** X7.  With the agent configured, one invocation of [invoke_agent]
    calls the endpoint once, twice or three times and never more; between
    two calls it sleeps 2 seconds; it does nothing else to the network. *)
Theorem invoke_agent_attempts_bounded :
  forall (settings : Config.Settings) (input_text session_id : string)
         (enable_trace : bool) (n : Bedrock.net),
    Bedrock.unset (Config.bedrock_agent_id settings)
      || Bedrock.unset (Config.bedrock_agent_alias_id settings) = false ->
    let n' := snd (Bedrock.invoke_agent settings input_text session_id enable_trace n) in
    n' = after_calls "invoke_agent" 1 [] n \/
    n' = after_calls "invoke_agent" 2 [2] n \/
    n' = after_calls "invoke_agent" 3 [2; 2] n.
Proof.
  intros settings input_text session_id enable_trace n Hc. cbn zeta.
  unfold Bedrock.invoke_agent. apply retry_attempts.
  intros n0. now apply invoke_agent_body_one_call.
Qed.

Lemma invoke_agent_attempts_bounded_witness :
  Bedrock.unset (Config.bedrock_agent_id Sample3.configured)
    || Bedrock.unset (Config.bedrock_agent_alias_id Sample3.configured) = false /\
  List.length (Bedrock.attempted
                 (snd (Bedrock.invoke_agent Sample3.configured "hi" "s" true
                         Sample3.unreachable))) = 3%nat.
Proof.
  assert (H : Bedrock.unset (Config.bedrock_agent_id Sample3.configured)
                || Bedrock.unset (Config.bedrock_agent_alias_id Sample3.configured) = false)
    by reflexivity.
  split; [exact H |].
  destruct (invoke_agent_attempts_bounded Sample3.configured "hi" "s" true
              Sample3.unreachable H) as [E | [E | E]];
    cbn zeta in E; reflexivity.
Defined.

(** X8.  When the endpoint fails three times in a row with a connection
    error, [invoke_agent] makes exactly three calls with two delays of 2
    seconds and raises the third connection error as it is, not wrapped
    in [BedrockError]. *)
Theorem invoke_agent_reraises_third_connection_error :
  forall (settings : Config.Settings) (input_text session_id : string)
         (enable_trace : bool) (n : Bedrock.net) (t0 t1 t2 : string),
    Bedrock.unset (Config.bedrock_agent_id settings)
      || Bedrock.unset (Config.bedrock_agent_alias_id settings) = false ->
    Bedrock.endpoint n 0%nat = Bedrock.Fault (ConnectionError t0) ->
    Bedrock.endpoint n 1%nat = Bedrock.Fault (ConnectionError t1) ->
    Bedrock.endpoint n 2%nat = Bedrock.Fault (ConnectionError t2) ->
    Bedrock.invoke_agent settings input_text session_id enable_trace n
      = (Raise (ConnectionError t2), after_calls "invoke_agent" 3 [2; 2] n).
Proof.
  intros settings input_text session_id enable_trace n t0 t1 t2 Hc H0 H1 H2.
  unfold Bedrock.invoke_agent. rewrite retry_unfold.
  set (body := Bedrock.invoke_agent_body settings input_text session_id enable_trace).
  assert (Hbody : forall n0 t, Bedrock.endpoint n0 0%nat = Bedrock.Fault (ConnectionError t) ->
                    body n0 = (Raise (ConnectionError t), after_calls "invoke_agent" 1 [] n0)).
  { intros n0 t He. subst body.
    pose proof (invoke_agent_body_one_call settings Hc input_text session_id enable_trace n0) as Hs.
    pose proof (invoke_agent_body_fault settings Hc input_text session_id enable_trace n0 _ He) as Hf.
    destruct (Bedrock.invoke_agent_body _ _ _ _ n0) as [o n1]. cbn [fst snd] in *. congruence. }
  rewrite (Hbody n t0 H0). cbn [Bedrock.retry_if_exception_type].
  rewrite (Hbody _ t1) by (cbn; exact H1). cbn [Bedrock.retry_if_exception_type].
  rewrite (Hbody _ t2) by (cbn; exact H2).
  f_equal. unfold after_calls, Bedrock.sleep. cbn.
  rewrite !app_nil_r, <- !app_assoc. reflexivity.
Qed.

Lemma invoke_agent_reraises_third_connection_error_witness :
  Bedrock.invoke_agent Sample3.configured "hi" "s" true Sample3.unreachable
    = (Raise (ConnectionError "no route, try 2"),
       after_calls "invoke_agent" 3 [2; 2] Sample3.unreachable).
Proof.
  exact (invoke_agent_reraises_third_connection_error Sample3.configured "hi" "s" true
           Sample3.unreachable _ _ _ eq_refl eq_refl eq_refl eq_refl).
Defined.

(** X9.  A [ClientError] of the endpoint is never retried.
    [invoke_agent] and [retrieve_from_knowledge_base] raise a
    [BedrockError] after that one call, without sleeping; the error holds
    the code and the message of the endpoint, with ["Unknown"] for a
    missing code and the text of the exception for a missing message. *)
Theorem client_errors_are_wrapped_and_not_retried :
  forall (settings : Config.Settings) (input_text session_id query : string)
         (enable_trace : bool) (max_results : Z) (n : Bedrock.net)
         (code message : option string) (text : string),
    Bedrock.endpoint n 0%nat = Bedrock.Fault (ClientError code message text) ->
    (Bedrock.unset (Config.bedrock_agent_id settings)
       || Bedrock.unset (Config.bedrock_agent_alias_id settings) = false ->
     Bedrock.invoke_agent settings input_text session_id enable_trace n =
       (Raise (GenAIAssistantError BedrockError
                 ("Agent invocation failed: " ++ default text message)
                 [("error_code", PStr (default "Unknown" code));
                  ("error_message", PStr (default text message))]),
        after_calls "invoke_agent" 1 [] n)) /\
    (Bedrock.unset (Config.bedrock_knowledge_base_id settings) = false ->
     Bedrock.retrieve_from_knowledge_base settings query max_results n =
       (Raise (GenAIAssistantError BedrockError
                 ("Knowledge base retrieval failed: " ++ default text message)
                 [("error_code", PStr (default "Unknown" code));
                  ("error_message", PStr (default text message))]),
        after_calls "retrieve" 1 [] n)).
Proof.
  intros settings input_text session_id query enable_trace max_results n code message text He.
  split; intros Hc.
  - unfold Bedrock.invoke_agent. rewrite retry_unfold.
    pose proof (invoke_agent_body_one_call settings Hc input_text session_id enable_trace n) as Hs.
    pose proof (invoke_agent_body_fault settings Hc input_text session_id enable_trace n _ He) as Hf.
    destruct (Bedrock.invoke_agent_body _ _ _ _ n) as [o n1]. cbn [fst snd] in *. subst o n1.
    reflexivity.
  - unfold Bedrock.retrieve_from_knowledge_base. rewrite Hc.
    unfold try_except, bind, Bedrock.call_endpoint. rewrite He.
    unfold raise, after_calls. cbn. rewrite app_nil_r. reflexivity.
Qed.

Lemma client_errors_are_wrapped_and_not_retried_witness :
  Bedrock.endpoint Sample.rejecting 0%nat
    = Bedrock.Fault (ClientError (Some "ValidationException") (Some "malformed request")
                                 "An error occurred") /\
  Bedrock.invoke_agent Sample3.configured "hi" "s" true Sample.rejecting =
    (Raise (GenAIAssistantError BedrockError
              "Agent invocation failed: malformed request"
              [("error_code", PStr "ValidationException");
               ("error_message", PStr "malformed request")]),
     after_calls "invoke_agent" 1 [] Sample.rejecting).
Proof.
  split; [reflexivity |].
  exact (proj1 (client_errors_are_wrapped_and_not_retried Sample3.configured "hi" "s" "q"
                  true 5 Sample.rejecting _ _ _ eq_refl) eq_refl).
Defined.

(** ** The events of an agent completion *)

Lemma append_assoc (a b c : string) : (a ++ b) ++ c = a ++ (b ++ c).
Proof. induction a as [|x a IH]; [reflexivity |]. now rewrite !append_cons, IH. Qed.

Lemma event_traces_cons enable_trace ev rest :
  event_traces enable_trace (ev :: rest)
    = (event_traces enable_trace [ev] ++ event_traces enable_trace rest)%list.
Proof.
  unfold event_traces. destruct enable_trace; [| reflexivity].
  change (ev :: rest) with ([ev] ++ rest)%list. apply omap_app.
Qed.

Lemma agent_event_well_formed enable_trace ev acc :
  well_formed_event ev = true ->
  Bedrock.agent_event enable_trace (PDict ev) acc =
    Ret (fst acc ++ event_text ev, (snd acc ++ event_traces enable_trace [ev])%list).
Proof.
  unfold Bedrock.agent_event, Bedrock.contains_key, Bedrock.item, well_formed_event,
    event_text, event_traces, event_trace.
  intros Hwf. cbn [omap list_omap].
  destruct (dict_get "chunk" ev) as [[| | | | |chunk]|]; try discriminate.
  - destruct (dict_get "bytes" chunk) as [[| | |text| |]|]; try discriminate;
      cbn [default from_option id]; destruct (dict_get "trace" ev), enable_trace;
      cbn [andb]; rewrite ?app_nil_r, ?append_empty; reflexivity.
  - destruct (dict_get "trace" ev), enable_trace;
      cbn [andb]; rewrite ?app_nil_r, ?append_empty; reflexivity.
Qed.

Lemma agent_events_well_formed enable_trace events :
  forallb well_formed_event events = true ->
  forall acc,
    Bedrock.agent_events enable_trace (map PDict events) acc =
      Ret (fst acc ++ PyStr.join (map event_text events),
           (snd acc ++ event_traces enable_trace events)%list).
Proof.
  induction events as [|ev rest IH]; intros Hwf acc.
  - cbn [map Bedrock.agent_events PyStr.join fold_right].
    unfold event_traces. destruct enable_trace; cbn [omap list_omap];
      rewrite app_nil_r, append_empty; destruct acc; reflexivity.
  - cbn [forallb] in Hwf. apply andb_prop in Hwf as [Hev Hrest].
    cbn [map Bedrock.agent_events].
    rewrite (agent_event_well_formed enable_trace ev acc Hev), (IH Hrest).
    cbn [fst snd]. rewrite (event_traces_cons enable_trace ev rest).
    rewrite append_assoc, <- app_assoc. reflexivity.
Qed.

(** X10.  When the first call of the endpoint answers, [invoke_agent]
    returns at once, with no retry.  The completion it returns is the
    concatenation of the chunk texts of the events in their order; the
    traces are the ["trace"] entries of the events in their order when
    tracing is enabled and none when it is not; the session identifier is
    the one passed in.  A response without a ["completion"] key gives an
    empty completion and no trace. *)
Theorem invoke_agent_assembles_completion :
  forall (settings : Config.Settings) (input_text session_id : string)
         (enable_trace : bool) (n : Bedrock.net) (response : list (string * pyval)),
    Bedrock.unset (Config.bedrock_agent_id settings)
      || Bedrock.unset (Config.bedrock_agent_alias_id settings) = false ->
    Bedrock.endpoint n 0%nat = Bedrock.Answer (PDict response) ->
    (forall events,
        dict_get "completion" response = Some (PList (map PDict events)) ->
        forallb well_formed_event events = true ->
        Bedrock.invoke_agent settings input_text session_id enable_trace n =
          (Ret (PDict [("completion", PStr (PyStr.join (map event_text events)));
                       ("traces", PList (event_traces enable_trace events));
                       ("session_id", PStr session_id)]),
           after_calls "invoke_agent" 1 [] n)) /\
    (dict_get "completion" response = None ->
     Bedrock.invoke_agent settings input_text session_id enable_trace n =
       (Ret (PDict [("completion", PStr ""); ("traces", PList []);
                    ("session_id", PStr session_id)]),
        after_calls "invoke_agent" 1 [] n)).
Proof.
  intros settings input_text session_id enable_trace n response Hc He.
  assert (Hbody : forall events,
             default (PList []) (dict_get "completion" response) = PList (map PDict events) ->
             forallb well_formed_event events = true ->
             Bedrock.invoke_agent settings input_text session_id enable_trace n =
               (Ret (PDict [("completion", PStr (PyStr.join (map event_text events)));
                            ("traces", PList (event_traces enable_trace events));
                            ("session_id", PStr session_id)]),
                after_calls "invoke_agent" 1 [] n)).
  { intros events Hev Hwf. unfold Bedrock.invoke_agent. rewrite retry_unfold.
    pose proof (invoke_agent_body_one_call settings Hc input_text session_id enable_trace n) as Hs.
    unfold Bedrock.invoke_agent_body in *. rewrite Hc in *.
    unfold try_except, bind, Bedrock.call_endpoint, lift, ret in *. rewrite He in *.
    rewrite Hev in *. cbn [iterate] in *.
    rewrite (agent_events_well_formed enable_trace events Hwf) in *.
    cbn [fst snd] in *. rewrite Hs. rewrite append_nil. reflexivity. }
  split.
  - intros events Hev Hwf. apply Hbody; [now rewrite Hev | exact Hwf].
  - intros Hnone. rewrite (Hbody []); [| now rewrite Hnone | reflexivity].
    destruct enable_trace; reflexivity.
Qed.

Lemma invoke_agent_assembles_completion_witness :
  forallb well_formed_event Sample3.events = true /\
  Bedrock.invoke_agent Sample3.configured "hi" "session-9" false Sample3.chatty
    = (Ret (PDict [("completion", PStr "Hello"); ("traces", PList []);
                   ("session_id", PStr "session-9")]),
       after_calls "invoke_agent" 1 [] Sample3.chatty) /\
  fst (Bedrock.invoke_agent Sample3.configured "hi" "session-9" true Sample3.chatty)
    = Ret (PDict [("completion", PStr "Hello");
                  ("traces", PList [PStr "step 1"; PStr "step 2"]);
                  ("session_id", PStr "session-9")]).
Proof.
  assert (Hwf : forallb well_formed_event Sample3.events = true) by reflexivity.
  split; [exact Hwf |]. split.
  - exact (proj1 (invoke_agent_assembles_completion Sample3.configured "hi" "session-9" false
                    Sample3.chatty Sample3.completion eq_refl eq_refl)
                 Sample3.events eq_refl Hwf).
  - rewrite (proj1 (invoke_agent_assembles_completion Sample3.configured "hi" "session-9" true
                      Sample3.chatty Sample3.completion eq_refl eq_refl)
                   Sample3.events eq_refl Hwf).
    reflexivity.
Defined.

(** ** [retrieve_from_knowledge_base] *)

(** X11.  With the knowledge base configured,
    [retrieve_from_knowledge_base] calls the endpoint exactly once and
    never sleeps, whatever the endpoint does.  The ["retrievalResults"]
    entry of a dict answer, or the empty list when it has none, is
    returned when it has a length (a list, a string or a dict); when it
    has none (None, a boolean, a number), counting it for the log line
    raises [TypeError] and nothing is returned.  An answer that is not a
    dict raises [AttributeError].  A failure other than [ClientError]
    reaches the caller as it is. *)
Theorem retrieve_makes_one_attempt :
  forall (settings : Config.Settings) (query : string) (max_results : Z) (n : Bedrock.net),
    Bedrock.unset (Config.bedrock_knowledge_base_id settings) = false ->
    let out := Bedrock.retrieve_from_knowledge_base settings query max_results n in
    snd out = after_calls "retrieve" 1 [] n /\
    (forall response,
        Bedrock.endpoint n 0%nat = Bedrock.Answer (PDict response) ->
        let results := default (PList []) (dict_get "retrievalResults" response) in
        fst out =
          match results with
          | PList _ | PStr _ | PDict _ => Ret results
          | _ => Raise (Exception "TypeError"
                          ("object of type '" ++ type_name results ++ "' has no len()"))
          end) /\
    (forall body,
        Bedrock.endpoint n 0%nat = Bedrock.Answer body ->
        (forall response, body <> PDict response) ->
        fst out = Raise (Exception "AttributeError"
                           ("'" ++ type_name body ++ "' object has no attribute 'get'"))) /\
    (forall e,
        Bedrock.endpoint n 0%nat = Bedrock.Fault e ->
        not_client_error e = true ->
        fst out = Raise e).
Proof.
  intros settings query max_results n Hc. cbn zeta.
  unfold Bedrock.retrieve_from_knowledge_base. rewrite Hc. split; [| split; [| split]].
  - apply one_call_then_stateless.
    + intros b. apply stateless_bind; [apply stateless_lift |].
      intros results. apply stateless_bind; [apply stateless_lift |].
      intros _. apply stateless_ret.
    + intros e. destruct e; apply stateless_raise.
  - intros response He. unfold try_except, bind, Bedrock.call_endpoint, lift, ret. rewrite He.
    destruct (default (PList []) (dict_get "retrievalResults" response)); reflexivity.
  - intros body He Hnd. unfold try_except, bind, Bedrock.call_endpoint, lift, ret. rewrite He.
    destruct body; try reflexivity. exfalso. eapply Hnd. reflexivity.
  - intros e He Hn. unfold try_except, bind, Bedrock.call_endpoint. rewrite He.
    destruct e; try discriminate; reflexivity.
Qed.

Lemma retrieve_makes_one_attempt_witness :
  Bedrock.unset (Config.bedrock_knowledge_base_id Sample3.configured) = false /\
  Bedrock.retrieve_from_knowledge_base Sample3.configured "recursion" 5 Sample3.unreachable
    = (Raise (ConnectionError "no route, try 0"),
       after_calls "retrieve" 1 [] Sample3.unreachable).
Proof.
  assert (H : Bedrock.unset (Config.bedrock_knowledge_base_id Sample3.configured) = false)
    by reflexivity.
  split; [exact H |].
  destruct (retrieve_makes_one_attempt Sample3.configured "recursion" 5 Sample3.unreachable H)
    as (Hnet & _ & _ & Hfault).
  specialize (Hfault (ConnectionError "no route, try 0") eq_refl eq_refl).
  destruct (Bedrock.retrieve_from_knowledge_base Sample3.configured "recursion" 5
              Sample3.unreachable) as [o n'].
  cbn [fst snd] in *. subst. reflexivity.
Defined.

(** The results are counted for the log line before they are returned:
    an answer whose ["retrievalResults"] entry is [None] fails, and one
    without the entry gives the empty list. *)
Example retrieve_counts_results :
  fst (Bedrock.retrieve_from_knowledge_base Sample3.configured "recursion" 5
         (Bedrock.mkNet (fun _ => Bedrock.Answer (PDict [("retrievalResults", PNone)])) [] []))
    = Raise (Exception "TypeError" "object of type 'NoneType' has no len()") /\
  fst (Bedrock.retrieve_from_knowledge_base Sample3.configured "recursion" 5 Sample3.chatty)
    = Ret (PList []).
Proof. split; reflexivity. Qed.

(** An event that is not a dict is tested for containment: a string or a
    list without the words is passed over, and a number is not iterable. *)
Example agent_event_not_a_dict :
  Bedrock.agent_event true (PStr "ping") ("so far", []) = Ret ("so far", []) /\
  Bedrock.agent_event true (PList [PInt 1]) ("so far", []) = Ret ("so far", []) /\
  Bedrock.agent_event true (PInt 1) ("so far", [])
    = Raise (Exception "TypeError" "argument of type 'int' is not iterable").
Proof. repeat split; reflexivity. Qed.

(** ** [invoke_model] *)

(** X12.  [BedrockService.invoke_model] always ends, and its caller sees
    nothing but [BedrockError]: whatever the endpoint raises, and whatever
    goes wrong with the answer, is raised as a [BedrockError].  When it
    returns, it returns the dict that the first call of the endpoint
    answered, unchanged. *)
Theorem invoke_model_normalises_failures :
  forall (prompt : string) (system_prompt : option string) (n : Bedrock.net),
    let out := Bedrock.invoke_model prompt system_prompt n in
    fst out <> OutOfFuel /\
    (forall e, fst out = Raise e ->
       exists message details, e = GenAIAssistantError BedrockError message details) /\
    (forall response, fst out = Ret response ->
       Bedrock.endpoint n 0%nat = Bedrock.Answer (PDict response)).
Proof.
  intros prompt system_prompt n. cbn zeta.
  destruct (invoke_model_single_attempt prompt system_prompt n) as (-> & _).
  unfold Bedrock.invoke_model_body, try_except, bind, Bedrock.call_endpoint, lift, ret, raise.
  destruct (Bedrock.endpoint n 0%nat) as [body|e0]; cbn.
  - destruct (Bedrock.usage_counter body "input_tokens") as [a|e1|] eqn:E1; cbn.
    + destruct (Bedrock.usage_counter body "output_tokens") as [b|e2|] eqn:E2; cbn.
      * destruct body; cbn in E1; try discriminate. cbn.
        split; [discriminate |]. split; [intros e [=] |]. intros response [= <-]. reflexivity.
      * destruct e2; cbn; (split; [discriminate |]); (split; [| intros r [=]]);
          intros e [= <-]; eauto.
      * unfold Bedrock.usage_counter, Bedrock.no_get in E2.
        destruct body; try discriminate.
        destruct (default (PDict []) (dict_get "usage" entries)); discriminate.
    + destruct e1; cbn; (split; [discriminate |]); (split; [| intros r [=]]);
        intros e [= <-]; eauto.
    + unfold Bedrock.usage_counter, Bedrock.no_get in E1.
      destruct body; try discriminate.
      destruct (default (PDict []) (dict_get "usage" entries)); discriminate.
  - destruct e0; cbn; (split; [discriminate |]); (split; [| intros r [=]]);
      intros e [= <-]; eauto.
Qed.

(** * Further properties of the learning agent *)

(** ** Steps that only append *)

Lemma with_fields_absorb V M V' M' (c : StrandContext) :
  with_variables V (with_messages M (with_variables V' (with_messages M' c)))
    = with_variables V (with_messages M c).
Proof. destruct c; reflexivity. Qed.

Lemma with_fields_self (c : StrandContext) :
  with_variables (variables c) (with_messages (messages c) c) = c.
Proof. destruct c; reflexivity. Qed.

Section Confined.

Variable keys : string -> bool.
Variable may_append : bool.
Variable r : ref.

Lemma confined_refl m : confined keys may_append r m m.
Proof.
  unfold confined. cbn zeta. split; [reflexivity |]. split; [reflexivity |].
  split; [apply with_fields_self |]. split; [| reflexivity].
  exists []. split; [now rewrite app_nil_r |]. split; [constructor | reflexivity].
Qed.

Lemma confined_trans m1 m2 m3 :
  confined keys may_append r m1 m2 -> confined keys may_append r m2 m3 ->
  confined keys may_append r m1 m3.
Proof.
  unfold confined. cbn zeta.
  intros (Ht1 & Ho1 & Hf1 & (x1 & Hm1 & Ha1 & Hn1) & Hv1)
         (Ht2 & Ho2 & Hf2 & (x2 & Hm2 & Ha2 & Hn2) & Hv2).
  split; [congruence |]. split; [intros r' Hne; rewrite Ho2, Ho1; auto |]. split.
  { rewrite <- (with_fields_absorb _ _ (variables (heap (mem m2) r))
                  (messages (heap (mem m2) r)) (heap (mem m3) r)).
    rewrite Hf2. exact Hf1. }
  split.
  - exists (x1 ++ x2)%list. split; [rewrite Hm2, Hm1; now rewrite app_assoc |]. split.
    + apply Forall_app; split; assumption.
    + intros Hb. rewrite (Hn1 Hb), (Hn2 Hb). reflexivity.
  - intros k Hk. rewrite Hv2, Hv1; auto.
Qed.

Lemma confined_same_heap m m' :
  heap (mem m') = heap (mem m) -> trace m' = trace m -> confined keys may_append r m m'.
Proof.
  intros Hh Ht. unfold confined. cbn zeta. rewrite Hh. split; [exact Ht |].
  split; [reflexivity |]. split; [apply with_fields_self |]. split; [| reflexivity].
  exists []. split; [now rewrite app_nil_r |]. split; [constructor | reflexivity].
Qed.

Lemma step_spec_ret {A} (Q : A -> Prop) a : Q a -> step_spec keys may_append r Q (ret a).
Proof. intros H m. split; [apply confined_refl | exact H]. Qed.

Lemma step_spec_raise {A} (Q : A -> Prop) e : step_spec keys may_append r Q (raise e).
Proof. intros m. split; [apply confined_refl | exact I]. Qed.

Lemma step_spec_lift {A} (o : outcome A) :
  step_spec keys may_append r (fun a => o = Ret a) (lift o).
Proof.
  intros m. split; [apply confined_refl |]. cbn. destruct o; auto.
Qed.

Lemma step_spec_read {A} (f : StrandContext -> A) r0 :
  step_spec keys may_append r (fun _ => True) (read f r0).
Proof. intros m. split; [apply confined_refl | exact I]. Qed.

Lemma step_spec_bind {A B} (Q1 : A -> Prop) (Q2 : B -> Prop) (c : M machine A)
    (k : A -> M machine B) :
  step_spec keys may_append r Q1 c ->
  (forall a, Q1 a -> step_spec keys may_append r Q2 (k a)) ->
  step_spec keys may_append r Q2 (bind c k).
Proof.
  intros Hc Hk m. unfold bind. destruct (Hc m) as [Hm HQ].
  destruct (c m) as [[a|e|] m1]; cbn [fst snd] in *.
  - destruct (Hk a HQ m1) as [Hm1 HQ2]. split; [| exact HQ2].
    eapply confined_trans; eassumption.
  - split; [exact Hm | exact I].
  - split; [exact Hm | exact I].
Qed.

Lemma step_spec_try {A} (Q : A -> Prop) (body : M machine A) (h : exn -> M machine A) :
  step_spec keys may_append r Q body ->
  (forall e, step_spec keys may_append r Q (h e)) ->
  step_spec keys may_append r Q (try_except body h).
Proof.
  intros Hb Hh m. unfold try_except. destruct (Hb m) as [Hm HQ].
  destruct (body m) as [[a|e|] m1]; cbn [fst snd] in *.
  - split; assumption.
  - destruct (Hh e m1) as [Hm1 HQ1]. split; [| exact HQ1].
    eapply confined_trans; eassumption.
  - split; [exact Hm | exact I].
Qed.

Lemma step_spec_weaken {A} (Q Q' : A -> Prop) (c : M machine A) :
  (forall a, Q a -> Q' a) ->
  step_spec keys may_append r Q c -> step_spec keys may_append r Q' c.
Proof.
  intros H Hc m. destruct (Hc m) as [Hm HQ]. split; [exact Hm |].
  destruct (fst (c m)); auto.
Qed.

Lemma step_spec_set_variable key v :
  keys key = true ->
  step_spec keys may_append r (fun _ => True) (Learning.set_variable r key v).
Proof.
  intros Hkey m. split; [| exact I].
  unfold Learning.set_variable, assign, confined. cbn [snd mem trace].
  rewrite heap_update_same. split; [reflexivity |]. split.
  { intros r' Hne. now apply heap_update_other. }
  split; [destruct (heap (mem m) r); reflexivity |]. split.
  { exists []. cbn. split; [now rewrite app_nil_r |]. split; [constructor | reflexivity]. }
  intros k Hk. cbn. apply lookup_insert_ne. intros ->. congruence.
Qed.

End Confined.

(** A step confined to fewer keys and no new message is confined to more
    keys and some new messages. *)
Lemma confined_weaken (keys keys' : string -> bool) may_append r m m' :
  (forall k, keys k = true -> keys' k = true) ->
  confined keys false r m m' -> confined keys' may_append r m m'.
Proof.
  intros Hsub (Ht & Ho & Hf & (x & Hm & Ha & Hn) & Hv).
  split; [exact Ht |]. split; [exact Ho |]. split; [exact Hf |]. split.
  - exists x. split; [exact Hm |]. split; [exact Ha |]. intros _. now apply Hn.
  - intros k Hk. apply Hv. destruct (keys k) eqn:E; [| reflexivity].
    rewrite (Hsub k E) in Hk. discriminate.
Qed.

Lemma step_spec_confined_weaken {A} (keys keys' : string -> bool) may_append r
    (Q : A -> Prop) (c : M machine A) :
  (forall k, keys k = true -> keys' k = true) ->
  step_spec keys false r Q c -> step_spec keys' may_append r Q c.
Proof.
  intros Hsub Hc m. destruct (Hc m) as [Hm HQ]. split; [| exact HQ].
  now apply confined_weaken with (keys := keys).
Qed.

Lemma step_spec_add_assistant_message keys r content0 md :
  step_spec keys true r (fun _ => True) (add_message r "assistant" content0 md).
Proof.
  intros m. split; [| exact I].
  unfold add_message, bind, utcnow, assign, confined. cbn [snd mem trace].
  rewrite heap_update_same. cbn [heap]. split; [reflexivity |]. split.
  { intros r' Hne. rewrite heap_update_other by exact Hne. reflexivity. }
  split; [destruct (heap (mem m) r); reflexivity |]. split.
  { eexists. cbn. split; [reflexivity |]. split; [repeat constructor | discriminate]. }
  intros k Hk. reflexivity.
Qed.

Section SpecTrue.

Variable keys : string -> bool.
Variable may_append : bool.
Variable r : ref.

Lemma step_spec_lift_any {A} (o : outcome A) :
  step_spec keys may_append r (fun _ => True) (lift o).
Proof. eapply step_spec_weaken; [| apply step_spec_lift]. auto. Qed.

Lemma step_spec_then {A B} (Q : B -> Prop) (c : M machine A) (k : A -> M machine B) :
  step_spec keys may_append r (fun _ => True) c ->
  (forall a, step_spec keys may_append r Q (k a)) ->
  step_spec keys may_append r Q (bind c k).
Proof. intros Hc Hk. eapply step_spec_bind; [exact Hc |]. intros a _. apply Hk. Qed.

End SpecTrue.

(** ** The parts of a learning step *)

Lemma update_learning_progress_spec r response :
  step_spec progress_key false r (fun _ => True)
            (Learning._update_learning_progress r response).
Proof.
  unfold Learning._update_learning_progress.
  apply step_spec_then; [apply step_spec_read |]. intros vars.
  apply step_spec_then.
  { destruct (vars !! "progress"); [now apply step_spec_ret |].
    apply step_spec_then; [now apply step_spec_set_variable |].
    intros _. now apply step_spec_ret. }
  intros progress. apply step_spec_then.
  { destruct (PyStr.contains "?" response); [| now apply step_spec_ret].
    apply step_spec_then; [apply step_spec_lift_any |]. intros asked.
    apply step_spec_then; [apply step_spec_lift_any |]. intros asked'.
    destruct progress; try (now apply step_spec_ret).
    now apply step_spec_set_variable. }
  intros _. destruct (Learning.any_in _ _); [| now apply step_spec_ret].
  apply step_spec_then; [apply step_spec_read |]. intros vars'.
  apply step_spec_then; [apply step_spec_lift_any |]. intros level.
  now apply step_spec_set_variable.
Qed.

Section LearningStep.

Variable upper : string -> string.
Variable format : pyval -> string.
Variable service : string -> option string -> store -> outcome (list (string * pyval)) * store.
Hypothesis Hservice : keeps_heap service.

Lemma call_service_spec keys may_append r prompt system :
  step_spec keys may_append r (fun _ => True) (Learning.call_service service prompt system).
Proof.
  intros m. unfold Learning.call_service.
  pose proof (Hservice prompt system (mem m)) as H.
  destruct (service prompt system (mem m)) as [o s]. cbn [fst snd mem trace] in *.
  split; [now apply confined_same_heap | destruct o; exact I].
Qed.

Lemma invoke_model_spec keys may_append r prompt system :
  step_spec keys may_append r (fun _ => True)
            (invoke_model (Learning.call_service service) prompt system).
Proof.
  unfold invoke_model. apply step_spec_try.
  - apply step_spec_then; [apply call_service_spec |]. intros response.
    apply step_spec_lift_any.
  - intros e. apply step_spec_raise.
Qed.

Lemma process_step_spec r :
  step_spec bookkeeping_key true r (fun r' => r' = r)
            (Learning.process_step upper format service r).
Proof.
  unfold Learning.process_step. apply step_spec_try.
  2: { intros e. apply step_spec_then; [apply step_spec_read |]. intros sid.
       apply step_spec_raise. }
  unfold Learning.process_step_try.
  apply step_spec_then; [apply step_spec_read |]. intros msgs.
  destruct (last _) as [latest|].
  2: { apply step_spec_then; [apply step_spec_read |]. intros sid. apply step_spec_raise. }
  apply step_spec_then; [apply step_spec_read |]. intros vars.
  apply step_spec_then.
  { destruct (vars !! "learning_goal"); [now apply step_spec_ret |].
    apply step_spec_then; [now apply step_spec_set_variable |].
    intros _. now apply step_spec_ret. }
  intros learning_goal.
  apply step_spec_then; [apply step_spec_read |]. intros c.
  apply step_spec_then; [apply invoke_model_spec |]. intros response.
  apply step_spec_then; [apply step_spec_read |]. intros it.
  apply step_spec_then; [apply step_spec_add_assistant_message |]. intros _.
  apply step_spec_then.
  { apply step_spec_confined_weaken with (keys := progress_key);
      [| apply update_learning_progress_spec].
    intros k Hk. unfold bookkeeping_key. rewrite Hk. apply orb_true_r. }
  intros _. now apply step_spec_ret.
Qed.

End LearningStep.

(** What [confined] says field by field. *)
Lemma confined_fields keys may_append r m m' :
  confined keys may_append r m m' ->
  let c := heap (mem m) r in
  let c' := heap (mem m') r in
  strand_id c' = strand_id c /\ session_id c' = session_id c /\ state c' = state c /\
  iteration c' = iteration c /\ max_iterations c' = max_iterations c /\
  start_time c' = start_time c /\ end_time c' = end_time c /\ error c' = error c.
Proof.
  intros (_ & _ & Hf & _). cbn zeta.
  split; [exact (f_equal strand_id Hf) |]. split; [exact (f_equal session_id Hf) |].
  split; [exact (f_equal state Hf) |]. split; [exact (f_equal iteration Hf) |].
  split; [exact (f_equal max_iterations Hf) |]. split; [exact (f_equal start_time Hf) |].
  split; [exact (f_equal end_time Hf) | exact (f_equal error Hf)].
Qed.

(** X13.  Whatever the model answers and however the step ends,
    [LearningAgent.process_step] leaves the trace and every other context
    alone, and of its own context it changes neither the identifiers, the
    state, the iteration counter, the budget, the timestamps nor the
    error; the messages it found are all still there, in order, followed
    by nothing but assistant messages; and the only variables it may have
    written are [learning_goal], [progress] and [comprehension_level].
    When it returns, it returns the context it was given. *)
Theorem process_step_only_appends :
  forall (upper : string -> string) (format : pyval -> string)
         (service : string -> option string -> store
                    -> outcome (list (string * pyval)) * store)
         (r : ref) (m : machine),
    keeps_heap service ->
    let out := Learning.process_step upper format service r m in
    let c := heap (mem m) r in
    let c' := heap (mem (snd out)) r in
    trace (snd out) = trace m /\
    (forall r', r' <> r -> heap (mem (snd out)) r' = heap (mem m) r') /\
    (strand_id c' = strand_id c /\ session_id c' = session_id c /\ state c' = state c /\
     iteration c' = iteration c /\ max_iterations c' = max_iterations c /\
     start_time c' = start_time c /\ end_time c' = end_time c /\ error c' = error c) /\
    (exists extra,
        messages c' = (messages c ++ extra)%list /\
        Forall (fun msg => role msg = "assistant") extra) /\
    (forall k, k <> "learning_goal" -> k <> "progress" -> k <> "comprehension_level" ->
               variables c' !! k = variables c !! k) /\
    (forall r', fst out = Ret r' -> r' = r).
Proof.
  intros upper format service r m Hs. cbn zeta.
  destruct (process_step_spec upper format service Hs r m) as [Hconf Hret].
  pose proof (confined_fields _ _ _ _ _ Hconf) as Hfields. cbn zeta in Hfields.
  destruct Hconf as (Ht & Ho & _ & (extra & Hm & Ha & _) & Hv).
  split; [exact Ht |]. split; [exact Ho |]. split; [exact Hfields |].
  split; [exists extra; split; assumption |]. split.
  - intros k H1 H2 H3. apply Hv. unfold bookkeeping_key, progress_key.
    rewrite !orb_false_iff, !String.eqb_neq. repeat split; assumption.
  - intros r' Hr. rewrite Hr in Hret. exact Hret.
Qed.

Lemma process_step_only_appends_witness :
  keeps_heap (fun _ _ s => (Ret [("content", PList [])], s)) /\
  iteration (heap (mem (snd (Learning.process_step (fun s => s) (fun _ => "")
                               (fun _ _ s => (Ret [("content", PList [])], s))
                               0%nat (Sample.machine_of (Sample.context RUNNING 1))))) 0%nat)
    = 1.
Proof.
  assert (H : keeps_heap (fun _ _ s => (Ret [("content", PList [])], s)))
    by (intros p sy s; reflexivity).
  split; [exact H |].
  destruct (process_step_only_appends (fun s => s) (fun _ => "")
              (fun _ _ s => (Ret [("content", PList [])], s))
              0%nat (Sample.machine_of (Sample.context RUNNING 1)) H)
    as (_ & _ & (_ & _ & _ & Hit & _) & _).
  exact Hit.
Defined.

Lemma add_message_extends_history_aux r role0 content0 md m :
  fst (add_message r role0 content0 md m) = Ret tt /\
  messages (heap (mem (snd (add_message r role0 content0 md m))) r)
    = (messages (heap (mem m) r)
         ++ [mkMessage role0 content0 (clock (mem m) 0%nat) (default ∅ md)])%list /\
  variables (heap (mem (snd (add_message r role0 content0 md m))) r)
    = variables (heap (mem m) r).
Proof.
  unfold add_message, bind, utcnow, assign. cbn [fst snd mem trace].
  rewrite heap_update_same. repeat split; reflexivity.
Qed.

Lemma no_user_message msgs :
  Forall (fun msg => role msg <> "user") msgs ->
  last (filter (fun msg => role msg = "user") msgs) = None.
Proof.
  induction 1 as [|msg rest Hmsg _ IH]; [reflexivity |].
  rewrite filter_cons. destruct (decide (role msg = "user")); [contradiction | exact IH].
Qed.

(** X14.  On a context in which no message has the role [user],
    [LearningAgent.process_step] raises [AgentExecutionError] saying that
    no user message was found, wrapped as a failed learning step; the
    model is not called and nothing is changed. *)
Theorem process_step_needs_user_message :
  forall (upper : string -> string) (format : pyval -> string)
         (service : string -> option string -> store
                    -> outcome (list (string * pyval)) * store)
         (r : ref) (m : machine),
    Forall (fun msg => role msg <> "user") (messages (heap (mem m) r)) ->
    Learning.process_step upper format service r m =
      (Raise (GenAIAssistantError AgentExecutionError
                "Failed to process learning step: No user message found in context"
                [("strand_id", PStr (strand_id (heap (mem m) r)));
                 ("error", PStr "No user message found in context")]),
       m).
Proof.
  intros upper format service r m Hno.
  unfold Learning.process_step, try_except, Learning.process_step_try.
  unfold bind at 1. unfold read at 1. cbn beta iota.
  rewrite (no_user_message _ Hno). reflexivity.
Qed.

Lemma process_step_needs_user_message_witness :
  Forall (fun msg => role msg <> "user")
         (messages (heap (mem (Sample.machine_of Sample.silent)) 0%nat)) /\
  fst (Learning.process_step (fun s => s) (fun _ => "")
         (fun _ _ s => (Ret [("content", PList [])], s))
         0%nat (Sample.machine_of Sample.silent))
    = Raise (GenAIAssistantError AgentExecutionError
               "Failed to process learning step: No user message found in context"
               [("strand_id", PStr "strand-1");
                ("error", PStr "No user message found in context")]).
Proof.
  assert (H : Forall (fun msg => role msg <> "user")
                     (messages (heap (mem (Sample.machine_of Sample.silent)) 0%nat)))
    by constructor.
  split; [exact H |].
  rewrite (process_step_needs_user_message (fun s => s) (fun _ => "")
             (fun _ _ s => (Ret [("content", PList [])], s))
             0%nat (Sample.machine_of Sample.silent) H).
  reflexivity.
Defined.

Section LearningSuccess.

Variable upper : string -> string.
Variable format : pyval -> string.
Variable service : string -> option string -> store -> outcome (list (string * pyval)) * store.
Hypothesis Hservice : keeps_heap service.

(** [invoke_model] leaves the contexts and the trace as they are. *)
Lemma invoke_model_keeps_heap prompt system m :
  heap (mem (snd (invoke_model (Learning.call_service service) prompt system m)))
    = heap (mem m) /\
  trace (snd (invoke_model (Learning.call_service service) prompt system m)) = trace m.
Proof.
  unfold invoke_model, try_except, bind, Learning.call_service, lift, raise.
  pose proof (Hservice prompt system (mem m)) as H.
  destruct (service prompt system (mem m)) as [[response|e|] s]; cbn [snd] in H; cbn.
  - destruct (response_text response); cbn; split; auto.
  - split; auto.
  - split; auto.
Qed.

(** The goal that a step works with: the one stored, or the one
    identified from the latest user message. *)
Lemma process_step_success r m r' :
  fst (Learning.process_step upper format service r m) = Ret r' ->
  let c := heap (mem m) r in
  let c' := heap (mem (snd (Learning.process_step upper format service r m))) r in
  exists latest text t,
    last (filter (fun msg => role msg = "user") (messages c)) = Some latest /\
    let goal := default (PStr (Learning._identify_learning_goal (content latest)))
                        (variables c !! "learning_goal") in
    messages c' =
      (messages c
         ++ [mkMessage "assistant" text t
                       {["learning_goal" := goal; "iteration" := PInt (iteration c)]}])%list /\
    variables c' !! "learning_goal" = Some goal.
Proof.
  cbn zeta. unfold Learning.process_step, try_except.
  destruct (Learning.process_step_try upper format service r m) as [[res|e|] mf] eqn:E;
    cbn [fst snd]; [intros _ | | discriminate].
  2: { unfold bind, read, raise. cbn. discriminate. }
  unfold Learning.process_step_try in E.
  unfold bind at 1 in E. unfold read at 1 in E. cbn beta iota in E.
  destruct (last _) as [latest|] eqn:Elast.
  2: { unfold bind, read, raise in E. discriminate. }
  exists latest.
  unfold bind at 1 in E. unfold read at 1 in E. cbn beta iota in E.
  unfold bind at 1 in E.
  set (goal := default (PStr (Learning._identify_learning_goal (content latest)))
                       (variables (heap (mem m) r) !! "learning_goal")).
  (* the machine once the goal is known *)
  assert (Hgoal : exists m1,
             (match variables (heap (mem m) r) !! "learning_goal" with
              | Some g => ret g
              | None =>
                  bind (Learning.set_variable r "learning_goal"
                          (PStr (Learning._identify_learning_goal (content latest))))
                       (fun _ => ret (PStr (Learning._identify_learning_goal (content latest))))
              end) m = (Ret goal, m1) /\
             messages (heap (mem m1) r) = messages (heap (mem m) r) /\
             iteration (heap (mem m1) r) = iteration (heap (mem m) r) /\
             variables (heap (mem m1) r) !! "learning_goal" = Some goal).
  { subst goal. destruct (variables (heap (mem m) r) !! "learning_goal") as [g|] eqn:Eg.
    - exists m. repeat split; auto.
    - eexists. split; [reflexivity |].
      unfold Learning.set_variable, assign. cbn [snd mem].
      rewrite heap_update_same. cbn. split; [reflexivity |]. split; [reflexivity |].
      apply lookup_insert_eq. }
  destruct Hgoal as (m1 & Eg & Hm1 & Hi1 & Hv1). rewrite Eg in E. cbn beta iota in E.
  unfold bind at 1 in E. unfold read at 1 in E. cbn beta iota in E.
  unfold bind at 1 in E.
  match type of E with
  | context [invoke_model ?s ?p ?sy m1] =>
      destruct (invoke_model_keeps_heap p sy m1) as [Hh2 Ht2];
      destruct (invoke_model s p sy m1) as [[text|e|] m2]; try discriminate
  end.
  cbn [snd] in Hh2, Ht2. cbn beta iota in E.
  unfold bind at 1 in E. unfold read at 1 in E. cbn beta iota in E.
  unfold bind at 1 in E.
  pose proof (add_message_extends_history_aux r "assistant" text
                (Some {["learning_goal" := goal;
                        "iteration" := PInt (iteration (heap (mem m2) r))]}) m2) as Hadd.
  destruct (add_message r "assistant" text _ m2) as [o3 m3]. cbn [fst snd] in Hadd.
  destruct Hadd as (-> & Hm3 & Hv3). cbn beta iota in E.
  unfold bind at 1 in E.
  destruct (update_learning_progress_spec r text m3) as [Hconf _].
  destruct (Learning._update_learning_progress r text m3) as [[[]|e|] m4]; try discriminate.
  cbn [snd] in Hconf. unfold ret in E. injection E as _ <-.
  destruct Hconf as (_ & _ & _ & (extra & Hm4 & _ & Hnil) & Hv4).
  rewrite (Hnil eq_refl), app_nil_r in Hm4.
  exists text, (clock (mem m2) 0%nat). split; [reflexivity |]. cbn zeta.
  rewrite Hm4, Hm3, Hh2, Hm1, Hi1. split; [reflexivity |].
  rewrite Hv4 by reflexivity. rewrite Hv3, Hh2. exact Hv1.
Qed.

End LearningSuccess.

(** X15.  When [LearningAgent.process_step] returns, the context has a
    user message, and exactly one message has been added to the history:
    an assistant message whose metadata holds the learning goal and the
    iteration at which the step ran.  The learning goal is the one the
    variables held, or else the one identified from the latest user
    message, and it is in the variables afterwards. *)
Theorem process_step_appends_one_message :
  forall (upper : string -> string) (format : pyval -> string)
         (service : string -> option string -> store
                    -> outcome (list (string * pyval)) * store)
         (r r' : ref) (m : machine),
    keeps_heap service ->
    fst (Learning.process_step upper format service r m) = Ret r' ->
    let c := heap (mem m) r in
    let c' := heap (mem (snd (Learning.process_step upper format service r m))) r in
    exists latest text t,
      last (filter (fun msg => role msg = "user") (messages c)) = Some latest /\
      let goal := default (PStr (Learning._identify_learning_goal (content latest)))
                          (variables c !! "learning_goal") in
      messages c' =
        (messages c
           ++ [mkMessage "assistant" text t
                         {["learning_goal" := goal; "iteration" := PInt (iteration c)]}])%list /\
      variables c' !! "learning_goal" = Some goal.
Proof.
  intros upper format service r r' m Hs Hret.
  exact (process_step_success upper format service Hs r m r' Hret).
Qed.

Lemma agreeable_keeps_heap : keeps_heap Sample3.agreeable.
Proof. intros p sy s. reflexivity. Qed.

Lemma process_step_appends_one_message_witness :
  keeps_heap Sample3.agreeable /\
  fst (Learning.process_step (fun s => s) (fun _ => "") Sample3.agreeable
         0%nat (Sample.machine_of (Sample.context RUNNING 1))) = Ret 0%nat /\
  List.length
    (messages (heap (mem (snd (Learning.process_step (fun s => s) (fun _ => "")
                                 Sample3.agreeable 0%nat
                                 (Sample.machine_of (Sample.context RUNNING 1))))) 0%nat))
    = 2%nat.
Proof.
  assert (Hret : fst (Learning.process_step (fun s => s) (fun _ => "") Sample3.agreeable
                        0%nat (Sample.machine_of (Sample.context RUNNING 1))) = Ret 0%nat)
    by (vm_compute; reflexivity).
  split; [exact agreeable_keeps_heap |]. split; [exact Hret |].
  destruct (process_step_appends_one_message (fun s => s) (fun _ => "") Sample3.agreeable
              0%nat 0%nat (Sample.machine_of (Sample.context RUNNING 1))
              agreeable_keeps_heap Hret) as (latest & text & t & _ & Hmsgs & _).
  rewrite Hmsgs. reflexivity.
Defined.

(** ** [should_continue], again *)

Lemma should_continue_cases r s :
  let out := LearningAgent.should_continue r s in
  exists b : bool,
    fst out = Ret b /\
    iteration (heap (snd out) r) = iteration (heap s r) /\
    max_iterations (heap (snd out) r) = max_iterations (heap s r) /\
    (not_marked_incomplete (heap s r) -> not_marked_incomplete (heap (snd out) r)) /\
    (b = true ->
     snd out = s /\
     (not_marked_incomplete (heap s r) ->
      iteration (heap s r) < max_iterations (heap s r))).
Proof.
  cbn zeta. unfold LearningAgent.should_continue, not_marked_incomplete.
  destruct (variables (heap s r) !! "learning_complete") as [v|] eqn:Ev.
  { exists (negb (truthy v)). cbn [fst snd]. rewrite Ev.
    split; [reflexivity |]. split; [reflexivity |]. split; [reflexivity |].
    split; [auto |]. intros Hb. split; [reflexivity |].
    intros Ht. rewrite Ht in Hb. discriminate. }
  assert (Hbudget : forall b : bool,
             b = (iteration (heap s r) <? max_iterations (heap s r)) ->
             b = true -> iteration (heap s r) < max_iterations (heap s r)).
  { intros b -> Hb. now apply Z.ltb_lt. }
  destruct (last _) as [msg|].
  2: { eexists. cbn [fst snd]. rewrite Ev. repeat split; eauto. }
  destruct (existsb _ _).
  2: { eexists. cbn [fst snd]. rewrite Ev. repeat split; eauto. }
  exists false. cbn [fst snd]. rewrite heap_update_same. cbn.
  rewrite lookup_insert_eq. repeat split; auto; discriminate.
Qed.

(** X16.  Asking [should_continue] again gives the same answer and
    changes nothing more: the entry it may write on the first call is the
    one it reads on the second. *)
Theorem should_continue_settles :
  forall (r : ref) (s : store),
    LearningAgent.should_continue r (snd (LearningAgent.should_continue r s))
      = (fst (LearningAgent.should_continue r s), snd (LearningAgent.should_continue r s)).
Proof.
  intros r s. unfold LearningAgent.should_continue at 2 3 4.
  destruct (variables (heap s r) !! "learning_complete") as [v|] eqn:Ev.
  { cbn [fst snd]. unfold LearningAgent.should_continue. rewrite Ev. reflexivity. }
  destruct (last (filter _ (messages (heap s r)))) as [msg|] eqn:El.
  2: { cbn [fst snd]. unfold LearningAgent.should_continue. rewrite Ev, El. reflexivity. }
  destruct (existsb _ _) eqn:Ee.
  2: { cbn [fst snd]. unfold LearningAgent.should_continue. rewrite Ev, El, Ee. reflexivity. }
  cbn [fst snd]. unfold LearningAgent.should_continue.
  rewrite heap_update_same. cbn [variables with_variables].
  rewrite lookup_insert_eq. reflexivity.
Qed.

(** ** Computations that always end *)

Lemma total_ret {S A} (a : A) : total (ret a : M S A).
Proof. intros s. discriminate. Qed.

Lemma total_raise {S A} (e : exn) : total (raise e : M S A).
Proof. intros s. discriminate. Qed.

Lemma total_lift {S A} (o : outcome A) : o <> OutOfFuel -> total (lift o : M S A).
Proof. intros H s. exact H. Qed.

Lemma total_bind {S A B} (c : M S A) (k : A -> M S B) :
  total c -> (forall a, total (k a)) -> total (bind c k).
Proof.
  intros Hc Hk s. unfold bind. pose proof (Hc s) as H.
  destruct (c s) as [[a|e|] s']; cbn [fst] in *; [apply Hk | discriminate | congruence].
Qed.

Lemma total_try {S A} (body : M S A) (h : exn -> M S A) :
  total body -> (forall e, total (h e)) -> total (try_except body h).
Proof.
  intros Hb Hh s. unfold try_except. pose proof (Hb s) as H.
  destruct (body s) as [[a|e|] s']; cbn [fst] in *; [discriminate | apply Hh | congruence].
Qed.

Lemma total_read {A} (f : StrandContext -> A) r : total (read f r).
Proof. intros s. discriminate. Qed.

Lemma total_assign r f : total (assign r f).
Proof. intros s. discriminate. Qed.

Lemma total_add_message r role0 content0 md : total (add_message r role0 content0 md).
Proof. intros s. discriminate. Qed.

Lemma text_items_ends blocks : text_items blocks <> OutOfFuel.
Proof.
  induction blocks as [|b rest IH]; [discriminate |].
  destruct b; cbn; try discriminate.
  destruct (text_items rest); try discriminate; [| congruence].
  destruct (eq_str _ _); discriminate.
Qed.

Lemma all_str_ends items : all_str items <> OutOfFuel.
Proof.
  unfold all_str. generalize 0%nat.
  induction items as [|v rest IH]; intros position; [discriminate |].
  destruct v; cbn; try discriminate.
  specialize (IH (S position)).
  destruct (all_str_from (S position) rest); try discriminate. congruence.
Qed.

Lemma response_text_ends response : response_text response <> OutOfFuel.
Proof.
  unfold response_text. destruct (dict_get "content" response) as [v|]; [| discriminate].
  destruct (iterate v) as [blocks|e|] eqn:Ei; [| discriminate |].
  - pose proof (text_items_ends blocks) as Ht.
    destruct (text_items blocks) as [items|e|]; [| discriminate | congruence].
    pose proof (all_str_ends items) as Ha.
    destruct (all_str items); [discriminate | discriminate | congruence].
  - destruct v; discriminate.
Qed.

Lemma total_update_learning_progress r response :
  total (Learning._update_learning_progress r response).
Proof.
  unfold Learning._update_learning_progress, Learning.set_variable.
  apply total_bind; [apply total_read |]. intros vars.
  apply total_bind.
  { destruct (vars !! "progress"); [apply total_ret |].
    apply total_bind; [apply total_assign |]. intros _. apply total_ret. }
  intros progress. apply total_bind.
  { destruct (PyStr.contains "?" response); [| apply total_ret].
    apply total_bind.
    { apply total_lift. destruct progress; cbn; try discriminate.
      destruct (dict_get _ _); discriminate. }
    intros asked. apply total_bind.
    { apply total_lift. destruct asked; discriminate. }
    intros asked'. destruct progress; first [apply total_ret | apply total_assign]. }
  intros _. destruct (Learning.any_in _ _); [| apply total_ret].
  apply total_bind; [apply total_read |]. intros vars'.
  apply total_bind.
  { apply total_lift. destruct (default _ _); discriminate. }
  intros level. apply total_assign.
Qed.

Section LearningTotal.

Variable upper : string -> string.
Variable format : pyval -> string.
Variable service : string -> option string -> store -> outcome (list (string * pyval)) * store.
Hypothesis Hends : forall prompt system s, fst (service prompt system s) <> OutOfFuel.

Lemma total_process_step r : total (Learning.process_step upper format service r).
Proof.
  unfold Learning.process_step. apply total_try.
  2: { intros e. apply total_bind; [apply total_read |]. intros sid. apply total_raise. }
  unfold Learning.process_step_try.
  apply total_bind; [apply total_read |]. intros msgs.
  destruct (last _) as [latest|].
  2: { apply total_bind; [apply total_read |]. intros sid. apply total_raise. }
  apply total_bind; [apply total_read |]. intros vars.
  apply total_bind.
  { destruct (vars !! "learning_goal"); [apply total_ret |].
    apply total_bind; [apply total_assign |]. intros _. apply total_ret. }
  intros goal. apply total_bind; [apply total_read |]. intros c.
  apply total_bind.
  { unfold invoke_model. apply total_try; [| intros e; apply total_raise].
    apply total_bind.
    - intros m. unfold Learning.call_service.
      pose proof (Hends (Learning._build_learning_prompt upper format c (content latest) goal)
                        (Some Learning.system_prompt) (mem m)) as H.
      destruct (service _ _ (mem m)) as [o s]. exact H.
    - intros response. apply total_lift. apply response_text_ends. }
  intros response. apply total_bind; [apply total_read |]. intros it.
  apply total_bind; [apply total_add_message |]. intros _.
  apply total_bind; [apply total_update_learning_progress |]. intros _. apply total_ret.
Qed.

End LearningTotal.

(** ** Runs of the learning agent *)

Lemma append_inv_head (p x y : string) : p ++ x = p ++ y -> x = y.
Proof.
  induction p as [|a p IH]; [now rewrite !append_nil |].
  rewrite !append_cons. intros [= H]. auto.
Qed.

Lemma step_failure_not_budget text n :
  "Failed to process learning step: " ++ text <> budget_text n.
Proof. unfold budget_text. rewrite !append_cons. discriminate. Qed.

Lemma type_error_not_budget n :
  "unsupported operand type(s) for -: 'datetime.datetime' and 'NoneType'" <> budget_text n.
Proof. unfold budget_text. rewrite append_cons. discriminate. Qed.

Lemma process_step_raises_step_failure upper format service r m e :
  fst (Learning.process_step upper format service r m) = Raise e ->
  exists text det,
    e = GenAIAssistantError AgentExecutionError
          ("Failed to process learning step: " ++ text) det.
Proof.
  unfold Learning.process_step, try_except.
  destruct (Learning.process_step_try upper format service r m) as [[r'|e0|] m1].
  - discriminate.
  - unfold bind, read, raise. cbn [fst]. intros [= <-]. eauto.
  - discriminate.
Qed.

Section GuardedOutcome.

Variable settings : Config.Settings.
Variable P : StepPolicy.

(** Under a deadline that is not positive the [try] statement ends in
    the handler of [asyncio.TimeoutError], no call of the policy made. *)
Lemma execute_guarded_elapsed fuel r timeout m :
  timeout_or_default settings timeout <= 0 ->
  let T := timeout_or_default settings timeout in
  let out := execute_guarded settings P fuel r timeout m in
  fst out =
    Raise (GenAIAssistantError AgentTimeoutError
             ("Strand execution timed out after " ++ PyStr.of_int T ++ " seconds")
             [("strand_id", PStr (strand_id (heap (mem m) r))); ("timeout", PInt T)]) /\
  heap (mem (snd out)) r =
    ended TIMEOUT (clock (mem m) 0%nat)
          ("Execution timed out after " ++ PyStr.of_int T ++ " seconds")
          (heap (mem m) r) /\
  (forall r', r' <> r -> heap (mem (snd out)) r' = heap (mem m) r') /\
  trace (snd out) = trace m.
Proof.
  intros HT. cbn zeta.
  rewrite (execute_guarded_raises settings P fuel r timeout m (TimeoutError "") m)
    by (now apply execute_try_elapsed).
  apply execute_except_timeout.
Qed.

Lemma timed_out_not_failed (x y : string) :
  "Strand execution timed out after " ++ x <> "Strand execution failed: " ++ y.
Proof. rewrite !append_cons. discriminate. Qed.

(** How the [try] statement of [execute] ends, from how the awaited loop
    ends. *)
Lemma execute_guarded_outcome fuel r timeout m o m2 :
  wait_for (timeout_or_default settings timeout) (_execute_loop P fuel r) m = (o, m2) ->
  let out := execute_guarded settings P fuel r timeout m in
  (o = OutOfFuel <-> fst out = OutOfFuel) /\
  (forall res, fst out = Ret res -> o = Ret res) /\
  (forall e', fst out = Raise e' ->
     exists e m3,
       fst (execute_except r (timeout_or_default settings timeout) e m3) = Raise e' /\
       (o = Raise e \/
        e = Exception "TypeError"
              "unsupported operand type(s) for -: 'datetime.datetime' and 'NoneType'")).
Proof.
  intros E. cbn zeta. unfold execute_guarded, try_except.
  destruct o as [res|e|].
  - rewrite (execute_try_after_loop settings P fuel r timeout m res m2 E).
    destruct (start_time (heap (mem m2) res)).
    + cbn [fst]. split; [split; discriminate |]. split; [intros res' [= <-]; reflexivity |].
      discriminate.
    + split.
      { split; [discriminate |]. intros H.
        exfalso. revert H.
        match goal with
        | |- fst (execute_except ?r ?T ?e ?m) = _ -> _ =>
            destruct (execute_except_failure r T e m) as (-> & _);
              [intros; discriminate | discriminate]
        end. }
      split.
      { intros res' H. exfalso. eapply execute_except_never_returns. exact H. }
      intros e' H. eexists _, _. split; [exact H |]. right. reflexivity.
  - rewrite (execute_try_raises settings P fuel r timeout m e m2 E).
    split.
    { split; [discriminate |].
      assert (Hc : (exists text, e = TimeoutError text) \/ (forall text, e <> TimeoutError text)).
      { destruct e; try (right; intros; discriminate). left. eexists. reflexivity. }
      intros H. exfalso.
      destruct Hc as [[text ->] | Hnt].
      - destruct (execute_except_timeout r (timeout_or_default settings timeout) text m2)
          as (H' & _). rewrite H' in H. discriminate.
      - destruct (execute_except_failure r (timeout_or_default settings timeout) e m2 Hnt)
          as (H' & _). rewrite H' in H. discriminate. }
    split.
    { intros res' H. exfalso. eapply execute_except_never_returns. exact H. }
    intros e' H. eexists _, _. split; [exact H |]. left. reflexivity.
  - assert (Et : execute_try settings P fuel r timeout m = (OutOfFuel, m2))
      by (unfold execute_try, bind; now rewrite E).
    rewrite Et. cbn [fst].
    split; [split; reflexivity |]. split; intros ? H; discriminate H.
Qed.

End GuardedOutcome.

Section LearningRun.

Variable upper : string -> string.
Variable format : pyval -> string.
Variable service : string -> option string -> store -> outcome (list (string * pyval)) * store.
Hypothesis Hservice : keeps_heap service.

Let P : StepPolicy := Learning.policy upper format service.

(** A step of the policy, seen from the loop. *)
Lemma policy_step r s :
  let out := process_step P r s in
  iteration (heap (snd out) r) = iteration (heap s r) /\
  max_iterations (heap (snd out) r) = max_iterations (heap s r) /\
  variables (heap (snd out) r) !! "learning_complete"
    = variables (heap s r) !! "learning_complete" /\
  (forall r', fst out = Ret r' -> r' = r) /\
  (forall e, fst out = Raise e ->
     exists text det,
       e = GenAIAssistantError AgentExecutionError
             ("Failed to process learning step: " ++ text) det) /\
  (service_ends service -> fst out <> OutOfFuel).
Proof.
  cbn zeta. subst P. cbn [process_step Learning.policy]. unfold Learning.on_store.
  destruct (process_step_spec upper format service Hservice r (mkMachine s [])) as [Hc HQ].
  pose proof (process_step_raises_step_failure upper format service r (mkMachine s [])) as Hr.
  pose proof (fun H => total_process_step upper format service H r (mkMachine s [])) as Ht.
  destruct (Learning.process_step upper format service r (mkMachine s [])) as [o m1].
  cbn [fst snd] in *.
  destruct (confined_fields _ _ _ _ _ Hc) as (_ & _ & _ & Hit & Hmax & _).
  destruct Hc as (_ & _ & _ & _ & Hvars). cbn [mem] in *.
  split; [exact Hit |]. split; [exact Hmax |].
  split; [apply Hvars; reflexivity |].
  split; [intros r' ->; exact HQ |].
  split; [exact Hr | exact Ht].
Qed.

(** The loop on a context that is not marked incomplete. *)
Lemma learning_loop fuel :
  forall r m o m',
    _execute_loop P fuel r m = (o, m') ->
    not_marked_incomplete (heap (mem m) r) ->
    (process_step_calls (trace m')
       <= process_step_calls (trace m) + steps_left (heap (mem m) r))%nat /\
    (forall e, o = Raise e ->
       exists text det,
         e = GenAIAssistantError AgentExecutionError
               ("Failed to process learning step: " ++ text) det) /\
    (service_ends service -> (steps_left (heap (mem m) r) < fuel)%nat -> o <> OutOfFuel).
Proof.
  induction fuel as [|fuel IH]; intros r m o m' E Hnm.
  - cbn [_execute_loop] in E. unfold out_of_fuel in E. injection E as <- <-.
    split; [lia |]. split; [discriminate | lia].
  - cbn [_execute_loop] in E. unfold bind at 1 in E. unfold call_should_continue in E.
    replace (should_continue P) with LearningAgent.should_continue in E by reflexivity.
    destruct (should_continue_cases r (mem m)) as (b & Hb & _ & _ & _ & Htrue).
    destruct (LearningAgent.should_continue r (mem m)) as [ob s]. cbn [fst snd] in *.
    subst ob. cbn beta iota in E.
    destruct b.
    2: { unfold ret in E. injection E as <- <-. cbn [trace].
         rewrite process_step_calls_app. cbn.
         split; [lia |]. split; discriminate. }
    destruct (Htrue eq_refl) as [-> Hlt]. specialize (Hlt Hnm).
    unfold bind at 1 in E. unfold read at 1 in E. cbn beta iota in E.
    unfold bind at 1 in E. unfold read at 1 in E. cbn beta iota in E. cbn [mem] in E.
    destruct (Z.leb_spec (max_iterations (heap (mem m) r)) (iteration (heap (mem m) r)))
      as [Hle|_]; [lia |].
    unfold bind at 1 in E. unfold call_process_step in E. cbn [mem trace] in E.
    destruct (policy_step r (mem m)) as (Hit & Hmax & Hvars & Hsame & Hraise & Hends).
    destruct (process_step P r (mem m)) as [[r'|e|] s']; cbn [fst snd] in *;
      cbn beta iota in E.
    2: { injection E as <- <-. cbn [trace]. rewrite !process_step_calls_app. cbn.
         unfold steps_left. split; [lia |]. split; [| discriminate].
         intros e0 [= <-]. apply Hraise. reflexivity. }
    2: { injection E as <- <-. cbn [trace]. rewrite !process_step_calls_app. cbn.
         unfold steps_left. split; [lia |]. split; [discriminate |].
         intros He _. exact (Hends He). }
    rewrite (Hsame r' eq_refl) in E.
    unfold bind at 1 in E. unfold assign in E. cbn [mem trace] in E. cbn beta iota in E.
    set (m1 := mkMachine _ _) in E.
    assert (Hit1 : iteration (heap (mem m1) r) = iteration (heap (mem m) r) + 1)
      by (subst m1; cbn [mem]; rewrite heap_update_same; cbn; lia).
    assert (Hmax1 : max_iterations (heap (mem m1) r) = max_iterations (heap (mem m) r))
      by (subst m1; cbn [mem]; rewrite heap_update_same; cbn; lia).
    assert (Htr1 : process_step_calls (trace m1) = S (process_step_calls (trace m)))
      by (subst m1; cbn [trace]; rewrite !process_step_calls_app; cbn; lia).
    assert (Hnm1 : not_marked_incomplete (heap (mem m1) r)).
    { unfold not_marked_incomplete in *. subst m1. cbn [mem].
      rewrite heap_update_same. cbn [variables with_iteration]. rewrite Hvars. exact Hnm. }
    assert (Hleft : steps_left (heap (mem m) r) = S (steps_left (heap (mem m1) r)))
      by (unfold steps_left; rewrite Hit1, Hmax1; lia).
    destruct (IH r m1 o m' E Hnm1) as (Hcalls & Hfail & Hfuel).
    split; [lia |]. split; [exact Hfail |].
    intros He Hlt'. apply Hfuel; [exact He | lia].
Qed.

(** The loop on a context that is marked incomplete. *)
Lemma marked_incomplete_loop fuel :
  forall r m o m',
    _execute_loop P fuel r m = (o, m') ->
    marked_incomplete (heap (mem m) r) ->
    (forall res, o <> Ret res) /\
    (service_ends service -> (steps_left (heap (mem m) r) < fuel)%nat -> o <> OutOfFuel).
Proof.
  induction fuel as [|fuel IH]; intros r m o m' E Hmi.
  - cbn [_execute_loop] in E. unfold out_of_fuel in E. injection E as <- <-.
    split; [discriminate | lia].
  - cbn [_execute_loop] in E. unfold bind at 1 in E. unfold call_should_continue in E.
    replace (should_continue P) with LearningAgent.should_continue in E by reflexivity.
    destruct Hmi as (v & Hv & Hfalse).
    unfold LearningAgent.should_continue in E. rewrite Hv, Hfalse in E.
    cbn [negb] in E. cbn beta iota in E.
    unfold bind at 1 in E. unfold read at 1 in E. cbn beta iota in E.
    unfold bind at 1 in E. unfold read at 1 in E. cbn beta iota in E. cbn [mem] in E.
    destruct (Z.leb_spec (max_iterations (heap (mem m) r)) (iteration (heap (mem m) r)))
      as [Hle|Hlt].
    { unfold bind, read, raise in E. injection E as <- <-. split; discriminate. }
    unfold bind at 1 in E. unfold call_process_step in E. cbn [mem trace] in E.
    destruct (policy_step r (mem m)) as (Hit & Hmax & Hvars & Hsame & _ & Hends).
    destruct (process_step P r (mem m)) as [[r'|e|] s']; cbn [fst snd] in *;
      cbn beta iota in E.
    2: { injection E as <- <-. split; discriminate. }
    2: { injection E as <- <-. split; [discriminate |]. intros He _. exact (Hends He). }
    rewrite (Hsame r' eq_refl) in E.
    unfold bind at 1 in E. unfold assign in E. cbn [mem trace] in E. cbn beta iota in E.
    set (m1 := mkMachine _ _) in E.
    assert (Hit1 : iteration (heap (mem m1) r) = iteration (heap (mem m) r) + 1)
      by (subst m1; cbn [mem]; rewrite heap_update_same; cbn; lia).
    assert (Hmax1 : max_iterations (heap (mem m1) r) = max_iterations (heap (mem m) r))
      by (subst m1; cbn [mem]; rewrite heap_update_same; cbn; lia).
    assert (Hmi1 : marked_incomplete (heap (mem m1) r)).
    { exists v. split; [| exact Hfalse]. subst m1. cbn [mem].
      rewrite heap_update_same. cbn [variables with_iteration]. rewrite Hvars. exact Hv. }
    assert (Hleft : steps_left (heap (mem m) r) = S (steps_left (heap (mem m1) r)))
      by (unfold steps_left; rewrite Hit1, Hmax1; lia).
    destruct (IH r m1 o m' E Hmi1) as (Hnever & Hfuel).
    split; [exact Hnever |].
    intros He Hlt'. apply Hfuel; [exact He | lia].
Qed.

End LearningRun.

(** X17.  A run of the learning agent on a context whose
    [learning_complete] variable is absent or true never trips the budget
    check of the loop: [should_continue] stops the run first.  The run
    makes at most [max_iterations - iteration] calls of [process_step],
    the error it may raise is not the one of the exceeded budget, and when
    every call of the model ends the run ends, after at most one pass of
    the loop more than there are steps left. *)
Theorem learning_run_never_exhausts_budget :
  forall (settings : Config.Settings) (upper : string -> string) (format : pyval -> string)
         (service : string -> option string -> store -> outcome (list (string * pyval)) * store)
         (fuel : nat) (input : string) (r : ref) (timeout : option Z) (m : machine),
    keeps_heap service ->
    not_marked_incomplete (heap (mem m) r) ->
    let out := execute settings (Learning.policy upper format service) fuel input (Some r)
                       timeout m in
    (process_step_calls (trace (snd out))
       <= process_step_calls (trace m) + steps_left (heap (mem m) r))%nat /\
    (forall e n, fst out = Raise e ->
       str_exn e <> "Strand execution failed: " ++ budget_text n) /\
    (service_ends service -> (steps_left (heap (mem m) r) < fuel)%nat ->
     fst out <> OutOfFuel).
Proof.
  intros settings upper format service fuel input r timeout m Hs Hnm out. subst out.
  rewrite execute_unfold. cbn [context_of].
  destruct (prologue_fields settings input r m)
    as (_ & Htr & _ & _ & _ & Hvars & Hit1 & Hmax1 & _).
  set (m1 := snd (execute_prologue settings input (Some r) m)) in *.
  destruct (Z.lt_ge_cases 0 (timeout_or_default settings timeout)) as [HT|HT].
  2: { destruct (execute_guarded_elapsed settings (Learning.policy upper format service)
                   fuel r timeout m1 HT) as (Hf & _ & _ & Htr').
       rewrite Hf, Htr', Htr. split; [lia |]. split; [| discriminate].
       intros e n [= <-]. cbn [str_exn]. apply timed_out_not_failed. }
  assert (Hnm1 : not_marked_incomplete (heap (mem m1) r))
    by (unfold not_marked_incomplete in *; rewrite Hvars; exact Hnm).
  destruct (_execute_loop (Learning.policy upper format service) fuel r m1) as [o m2] eqn:Eloop.
  destruct (learning_loop upper format service Hs fuel r m1 o m2 Eloop Hnm1)
    as (Hcalls & Hfail & Hfuel).
  assert (Ew : wait_for (timeout_or_default settings timeout)
                 (_execute_loop (Learning.policy upper format service) fuel r) m1 = (o, m2))
    by (rewrite wait_for_positive by exact HT; exact Eloop).
  destruct (execute_guarded_outcome settings _ fuel r timeout m1 o m2 Ew)
    as (Hout & _ & Hraise).
  rewrite (execute_guarded_trace settings _ fuel r timeout m1 o m2 Ew).
  unfold steps_left in *. rewrite Hit1, Hmax1, Htr in Hcalls. rewrite Hit1, Hmax1 in Hfuel.
  split; [exact Hcalls |]. split.
  - intros e n He Heq.
    destruct (Hraise e He) as (e0 & m3 & Hex & Horigin).
    assert (Hnt : forall text, e0 <> TimeoutError text).
    { destruct Horigin as [-> | ->]; [| discriminate].
      destruct (Hfail e0 eq_refl) as (text & det & ->). discriminate. }
    destruct (execute_except_failure r (timeout_or_default settings timeout) e0 m3 Hnt)
      as (Hform & _).
    rewrite Hform in Hex. injection Hex as <-. cbn [str_exn] in Heq.
    apply append_inv_head in Heq.
    destruct Horigin as [-> | ->].
    + destruct (Hfail e0 eq_refl) as (text & det & ->). cbn [str_exn] in Heq.
      exact (step_failure_not_budget text n Heq).
    + cbn [str_exn] in Heq. exact (type_error_not_budget n Heq).
  - intros He Hlt Hoof. apply Hout in Hoof. exact (Hfuel He Hlt Hoof).
Qed.

Lemma agreeable_ends : service_ends Sample3.agreeable.
Proof. intros p sy s. discriminate. Qed.

Lemma learning_run_never_exhausts_budget_witness :
  keeps_heap Sample3.agreeable /\
  not_marked_incomplete (heap (mem (Sample.machine_of (Sample.context IDLE 0))) 0%nat) /\
  (process_step_calls
     (trace (snd (execute Sample.settings
                          (Learning.policy (fun s => s) (fun _ => "") Sample3.agreeable)
                          5 "hi" (Some 0%nat) None
                          (Sample.machine_of (Sample.context IDLE 0))))) <= 3)%nat /\
  fst (execute Sample.settings
               (Learning.policy (fun s => s) (fun _ => "") Sample3.agreeable)
               5 "hi" (Some 0%nat) None
               (Sample.machine_of (Sample.context IDLE 0))) <> OutOfFuel.
Proof.
  assert (Hnm : not_marked_incomplete
                  (heap (mem (Sample.machine_of (Sample.context IDLE 0))) 0%nat))
    by exact I.
  split; [exact agreeable_keeps_heap |]. split; [exact Hnm |].
  destruct (learning_run_never_exhausts_budget
              Sample.settings (fun s => s) (fun _ => "") Sample3.agreeable
              5 "hi" 0%nat None (Sample.machine_of (Sample.context IDLE 0))
              agreeable_keeps_heap Hnm) as (Hcalls & _ & Hends).
  split; [exact Hcalls |].
  apply Hends; [exact agreeable_ends |]. vm_compute. lia.
Defined.

(** X18.  A context whose [learning_complete] variable is present with a
    false value can never be completed by the learning agent:
    [should_continue] answers yes whatever the counter, so a run either
    fails in a step or runs into the budget check.  [execute] never
    returns on it, and raises when every call of the model ends. *)
Theorem marked_incomplete_never_completes :
  forall (settings : Config.Settings) (upper : string -> string) (format : pyval -> string)
         (service : string -> option string -> store -> outcome (list (string * pyval)) * store)
         (fuel : nat) (input : string) (r : ref) (timeout : option Z) (m : machine),
    keeps_heap service ->
    marked_incomplete (heap (mem m) r) ->
    let out := execute settings (Learning.policy upper format service) fuel input (Some r)
                       timeout m in
    (forall res, fst out <> Ret res) /\
    (service_ends service -> (steps_left (heap (mem m) r) < fuel)%nat ->
     exists e, fst out = Raise e).
Proof.
  intros settings upper format service fuel input r timeout m Hs Hmi out. subst out.
  rewrite execute_unfold. cbn [context_of].
  destruct (prologue_fields settings input r m)
    as (_ & _ & _ & _ & _ & Hvars & Hit1 & Hmax1 & _).
  set (m1 := snd (execute_prologue settings input (Some r) m)) in *.
  assert (Hmi1 : marked_incomplete (heap (mem m1) r)).
  { destruct Hmi as (v & Hv & Hf). exists v. rewrite Hvars. split; assumption. }
  destruct (Z.lt_ge_cases 0 (timeout_or_default settings timeout)) as [HT|HT].
  2: { destruct (execute_guarded_elapsed settings (Learning.policy upper format service)
                   fuel r timeout m1 HT) as (Hf & _).
       rewrite Hf. split; [discriminate |]. intros _ _. eexists. reflexivity. }
  destruct (_execute_loop (Learning.policy upper format service) fuel r m1) as [o m2] eqn:Eloop.
  destruct (marked_incomplete_loop upper format service Hs fuel r m1 o m2 Eloop Hmi1)
    as (Hnever & Hfuel).
  assert (Ew : wait_for (timeout_or_default settings timeout)
                 (_execute_loop (Learning.policy upper format service) fuel r) m1 = (o, m2))
    by (rewrite wait_for_positive by exact HT; exact Eloop).
  destruct (execute_guarded_outcome settings _ fuel r timeout m1 o m2 Ew)
    as (Hout & Hret & _).
  unfold steps_left in *. rewrite Hit1, Hmax1 in *.
  assert (Hno : forall res,
             fst (execute_guarded settings (Learning.policy upper format service)
                                  fuel r timeout m1) <> Ret res).
  { intros res H. exact (Hnever res (Hret res H)). }
  split; [exact Hno |].
  intros He Hlt.
  destruct (fst (execute_guarded settings (Learning.policy upper format service)
                                 fuel r timeout m1)) as [res|e|] eqn:Eg.
  - exfalso. exact (Hno res eq_refl).
  - exists e. reflexivity.
  - exfalso. apply (Hfuel He Hlt). apply Hout. reflexivity.
Qed.

Lemma marked_incomplete_never_completes_witness :
  keeps_heap Sample3.agreeable /\
  marked_incomplete (heap (mem (Sample.machine_of Sample4.reopened)) 0%nat) /\
  exists e,
    fst (execute Sample.settings
                 (Learning.policy (fun s => s) (fun _ => "") Sample3.agreeable)
                 5 "hi" (Some 0%nat) None (Sample.machine_of Sample4.reopened)) = Raise e.
Proof.
  assert (Hmi : marked_incomplete (heap (mem (Sample.machine_of Sample4.reopened)) 0%nat))
    by (exists (PBool false); split; reflexivity).
  split; [exact agreeable_keeps_heap |]. split; [exact Hmi |].
  destruct (marked_incomplete_never_completes
              Sample.settings (fun s => s) (fun _ => "") Sample3.agreeable
              5 "hi" 0%nat None (Sample.machine_of Sample4.reopened)
              agreeable_keeps_heap Hmi) as (_ & Hraise).
  apply Hraise; [exact agreeable_ends |]. vm_compute. lia.
Defined.

(** ** [_update_learning_progress] *)

Lemma dict_get_set_same key v entries :
  dict_get key (Learning.dict_set key v entries) = Some v.
Proof.
  induction entries as [|[k x] rest IH]; cbn.
  - now rewrite String.eqb_refl.
  - destruct (String.eqb k key) eqn:E; cbn; rewrite E; [reflexivity | exact IH].
Qed.

Lemma dict_get_set_other key key' v entries :
  key' <> key ->
  dict_get key' (Learning.dict_set key v entries) = dict_get key' entries.
Proof.
  intros Hne. induction entries as [|[k x] rest IH]; cbn.
  - destruct (String.eqb_spec key key'); [congruence | reflexivity].
  - destruct (String.eqb_spec k key) as [->|Hk]; cbn.
    + destruct (String.eqb_spec key key'); [congruence | reflexivity].
    + destruct (String.eqb k key'); [reflexivity | exact IH].
Qed.

Lemma set_variable_spec r key v m :
  fst (Learning.set_variable r key v m) = Ret tt /\
  variables (heap (mem (snd (Learning.set_variable r key v m))) r)
    = <[key := v]> (variables (heap (mem m) r)).
Proof.
  unfold Learning.set_variable, assign. cbn [fst snd mem].
  rewrite heap_update_same. split; reflexivity.
Qed.

(** X19.  [_update_learning_progress] on a context whose progress record,
    the fresh one when there is none, is a dict with an integer under
    [questions_asked], and whose comprehension level, zero when there is
    none, is an integer: it returns; the count of questions has gone up by
    one exactly when the response contains a question mark; every other
    entry of the record, the counts of concepts and problems among them,
    is as it was; and the comprehension level has gone up by one exactly
    when the response contains one of the four phrases of praise, in
    any case of the letters. *)
Theorem update_learning_progress_counts :
  forall (r : ref) (response : string) (m : machine)
         (entries : list (string * pyval)) (n k : Z),
    default Learning.new_progress (variables (heap (mem m) r) !! "progress") = PDict entries ->
    dict_get "questions_asked" entries = Some (PInt n) ->
    default (PInt 0) (variables (heap (mem m) r) !! "comprehension_level") = PInt k ->
    let out := Learning._update_learning_progress r response m in
    let vars' := variables (heap (mem (snd out)) r) in
    let asks := PyStr.contains "?" response in
    let praise :=
      Learning.any_in ["you understand"; "well done"; "excellent work"; "mastered"]
                      (PyStr.lower response) in
    fst out = Ret tt /\
    (exists entries',
        vars' !! "progress" = Some (PDict entries') /\
        dict_get "questions_asked" entries'
          = Some (PInt (if asks then n + 1 else n)) /\
        forall key, key <> "questions_asked" ->
                    dict_get key entries' = dict_get key entries) /\
    vars' !! "comprehension_level"
      = if praise then Some (PInt (k + 1))
        else variables (heap (mem m) r) !! "comprehension_level".
Proof.
  intros r response m entries n k Hprog Hasked Hlevel. cbn zeta.
  destruct (Learning._update_learning_progress r response m) as [o mf] eqn:E.
  cbn [fst snd]. unfold Learning._update_learning_progress in E.
  (* the progress record *)
  set (first :=
         match variables (heap (mem m) r) !! "progress" with
         | Some p => ret p
         | None => bind (Learning.set_variable r "progress" Learning.new_progress)
                        (fun _ => ret Learning.new_progress)
         end).
  assert (H1 : exists m1,
             first m = (Ret (PDict entries), m1) /\
             variables (heap (mem m1) r) !! "progress" = Some (PDict entries) /\
             variables (heap (mem m1) r) !! "comprehension_level"
               = variables (heap (mem m) r) !! "comprehension_level").
  { subst first. destruct (variables (heap (mem m) r) !! "progress") as [p|] eqn:Ep.
    - cbn [from_option id] in Hprog. subst p. exists m. unfold ret.
      repeat split. exact Ep.
    - cbn [from_option] in Hprog. unfold bind, ret.
      destruct (set_variable_spec r "progress" Learning.new_progress m) as [Hr Hv].
      destruct (Learning.set_variable r "progress" Learning.new_progress m) as [o1 m1].
      cbn [fst snd] in *. subst o1. exists m1. split; [rewrite Hprog; reflexivity |].
      rewrite Hv. rewrite lookup_insert_eq, lookup_insert_ne by discriminate.
      split; [congruence | reflexivity]. }
  destruct H1 as (m1 & E1 & Hp1 & Hc1).
  unfold bind at 1 in E. unfold read at 1 in E. cbn beta iota in E. fold first in E.
  unfold bind at 1 in E. rewrite E1 in E.
  (* the count of questions *)
  set (second := if PyStr.contains "?" response then _ else ret tt) in E.
  assert (H2 : exists m2 entries',
             second m1 = (Ret tt, m2) /\
             variables (heap (mem m2) r) !! "progress" = Some (PDict entries') /\
             dict_get "questions_asked" entries'
               = Some (PInt (if PyStr.contains "?" response then n + 1 else n)) /\
             (forall key, key <> "questions_asked" ->
                          dict_get key entries' = dict_get key entries) /\
             variables (heap (mem m2) r) !! "comprehension_level"
               = variables (heap (mem m) r) !! "comprehension_level").
  { subst second. destruct (PyStr.contains "?" response).
    - unfold bind at 1. unfold lift at 1. cbn [Learning.getitem]. rewrite Hasked.
      unfold bind at 1. unfold lift at 1. cbn [Learning.plus_one].
      destruct (set_variable_spec r "progress"
                  (PDict (Learning.dict_set "questions_asked" (PInt (n + 1)) entries)) m1)
        as [Hr Hv].
      destruct (Learning.set_variable r "progress" _ m1) as [o2 m2].
      cbn [fst snd] in *. subst o2. exists m2. eexists. split; [reflexivity |].
      rewrite Hv, lookup_insert_eq, lookup_insert_ne by discriminate.
      split; [reflexivity |]. split; [apply dict_get_set_same |].
      split; [| exact Hc1]. intros key Hne. now apply dict_get_set_other.
    - exists m1, entries. unfold ret. repeat split; assumption. }
  destruct H2 as (m2 & entries' & E2 & Hp2 & Hq2 & Hrest & Hc2).
  unfold bind at 1 in E. rewrite E2 in E.
  (* the comprehension level *)
  destruct (Learning.any_in _ (PyStr.lower response)).
  - unfold bind at 1 in E. unfold read at 1 in E. cbn beta iota in E.
    rewrite Hc2, Hlevel in E. unfold bind at 1 in E. unfold lift at 1 in E.
    cbn [Learning.plus_one] in E.
    destruct (set_variable_spec r "comprehension_level" (PInt (k + 1)) m2) as [Hr Hv].
    rewrite E in Hr, Hv. cbn [fst snd] in Hr, Hv. split; [exact Hr |].
    rewrite Hv, lookup_insert_eq, lookup_insert_ne by discriminate.
    split; [| reflexivity]. exists entries'. repeat split; assumption.
  - unfold ret in E. injection E as <- <-. split; [reflexivity |].
    split; [| exact Hc2]. exists entries'. repeat split; assumption.
Qed.

Lemma update_learning_progress_counts_witness :
  default Learning.new_progress
          (variables (heap (mem (Sample.machine_of (Sample.context RUNNING 1))) 0%nat)
             !! "progress") = Learning.new_progress /\
  fst (Learning._update_learning_progress 0%nat "Well done! Ready for more?"
         (Sample.machine_of (Sample.context RUNNING 1))) = Ret tt /\
  variables
    (heap (mem (snd (Learning._update_learning_progress 0%nat "Well done! Ready for more?"
                       (Sample.machine_of (Sample.context RUNNING 1))))) 0%nat)
    !! "comprehension_level" = Some (PInt 1).
Proof.
  split; [reflexivity |].
  destruct (update_learning_progress_counts
              0%nat "Well done! Ready for more?"
              (Sample.machine_of (Sample.context RUNNING 1))
              [("topics_covered", PList []); ("questions_asked", PInt 0);
               ("concepts_explained", PInt 0); ("problems_solved", PInt 0)]
              0 0 eq_refl eq_refl eq_refl) as (Hret & _ & Hlevel).
  split; [exact Hret | exact Hlevel].
Defined.

(** ** [_identify_learning_goal] *)

Lemma lower_app a b : PyStr.lower (a ++ b) = PyStr.lower a ++ PyStr.lower b.
Proof.
  induction a as [|c a IH]; [reflexivity |].
  rewrite append_cons. cbn [PyStr.lower]. rewrite append_cons, IH. reflexivity.
Qed.

Lemma prefix_app w rest : String.prefix w (w ++ rest) = true.
Proof.
  induction w as [|c w IH]; [rewrite append_nil; destruct rest; reflexivity |].
  rewrite append_cons. cbn [String.prefix].
  destruct (Ascii.ascii_dec c c); [exact IH | congruence].
Qed.

Lemma contains_unfold needle hay :
  PyStr.contains needle hay =
    String.prefix needle hay ||
    match hay with
    | EmptyString => false
    | String _ r => PyStr.contains needle r
    end.
Proof. destruct hay; reflexivity. Qed.

Lemma contains_inside pre w post : PyStr.contains w (pre ++ w ++ post) = true.
Proof.
  induction pre as [|c pre IH].
  - rewrite append_nil, contains_unfold, prefix_app. reflexivity.
  - rewrite append_cons, contains_unfold, IH. apply orb_true_r.
Qed.

(** X20.  The goal of an input is found without regard to the case of
    its letters or to where the keyword stands, and the first group of
    keywords has precedence: an input that contains [explain], [what is],
    [how does] or [understand], in any case of the letters, is a request
    for the explanation of a concept whatever else it contains. *)
Theorem explanation_keywords_take_precedence :
  forall (pre word post : string),
    In (PyStr.lower word) ["explain"; "what is"; "how does"; "understand"] ->
    Learning._identify_learning_goal (pre ++ word ++ post) = "concept_explanation".
Proof.
  intros pre word post Hin. unfold Learning._identify_learning_goal. cbn zeta.
  rewrite !lower_app.
  assert (H : Learning.any_in ["explain"; "what is"; "how does"; "understand"]
                (PyStr.lower pre ++ PyStr.lower word ++ PyStr.lower post) = true).
  { unfold Learning.any_in. apply existsb_exists. exists (PyStr.lower word).
    split; [exact Hin | apply contains_inside]. }
  rewrite H. reflexivity.
Qed.

Lemma explanation_keywords_take_precedence_witness :
  In (PyStr.lower "Explain") ["explain"; "what is"; "how does"; "understand"] /\
  Learning._identify_learning_goal ("Please " ++ "Explain" ++ " how to solve this problem")
    = "concept_explanation".
Proof.
  assert (Hin : In (PyStr.lower "Explain") ["explain"; "what is"; "how does"; "understand"])
    by (left; reflexivity).
  split; [exact Hin |].
  exact (explanation_keywords_take_precedence "Please " "Explain"
           " how to solve this problem" Hin).
Defined.

(** ** A run that has completed *)

Lemma settled_ext r s s' :
  settled r s ->
  variables (heap s' r) = variables (heap s r) ->
  messages (heap s' r) = messages (heap s r) ->
  iteration (heap s' r) = iteration (heap s r) ->
  max_iterations (heap s' r) = max_iterations (heap s r) ->
  settled r s'.
Proof.
  unfold settled, LearningAgent.should_continue. intros H Hv Hm Hi Hx.
  rewrite Hv, Hm, Hi, Hx.
  destruct (variables (heap s r) !! "learning_complete") as [v|] eqn:Ev.
  { injection H as H. now rewrite H. }
  destruct (last _) as [msg|].
  2: { injection H as H. now rewrite H. }
  destruct (existsb _ _).
  2: { injection H as H. now rewrite H. }
  exfalso. injection H as H.
  apply (f_equal (fun s0 => variables (heap s0 r) !! "learning_complete")) in H.
  cbn beta in H. rewrite heap_update_same in H. cbn [variables with_variables] in H.
  rewrite lookup_insert_eq, Ev in H. discriminate.
Qed.

Lemma should_continue_false_settled r s :
  fst (LearningAgent.should_continue r s) = Ret false ->
  settled r (snd (LearningAgent.should_continue r s)).
Proof.
  unfold settled.
  destruct (LearningAgent.should_continue r s) as [o s'] eqn:E. cbn [fst snd].
  intros ->. unfold LearningAgent.should_continue in E.
  destruct (variables (heap s r) !! "learning_complete") as [v|] eqn:Ev.
  { injection E as H <-. unfold LearningAgent.should_continue.
    rewrite Ev, H. reflexivity. }
  destruct (last (filter _ (messages (heap s r)))) as [msg|] eqn:El.
  2: { injection E as H <-. unfold LearningAgent.should_continue.
       rewrite Ev, El, H. reflexivity. }
  destruct (existsb _ _) eqn:Ee.
  2: { injection E as H <-. unfold LearningAgent.should_continue.
       rewrite Ev, El, Ee, H. reflexivity. }
  injection E as <-. unfold LearningAgent.should_continue.
  rewrite heap_update_same. cbn [variables with_variables].
  rewrite lookup_insert_eq. reflexivity.
Qed.

Lemma should_continue_messages r s :
  messages (heap (snd (LearningAgent.should_continue r s)) r) = messages (heap s r).
Proof.
  unfold LearningAgent.should_continue.
  destruct (variables (heap s r) !! "learning_complete"); [reflexivity |].
  destruct (last _); [| reflexivity].
  destruct (existsb _ _); [| reflexivity].
  cbn [snd]. rewrite heap_update_same. reflexivity.
Qed.

Lemma should_continue_session r s :
  session_id (heap (snd (LearningAgent.should_continue r s)) r) = session_id (heap s r).
Proof.
  unfold LearningAgent.should_continue.
  destruct (variables (heap s r) !! "learning_complete"); [reflexivity |].
  destruct (last _); [| reflexivity].
  destruct (existsb _ _); [| reflexivity].
  cbn [snd]. rewrite heap_update_same. reflexivity.
Qed.

Section LearningRunOver.

Variable settings : Config.Settings.
Variable upper : string -> string.
Variable format : pyval -> string.
Variable service : string -> option string -> store -> outcome (list (string * pyval)) * store.
Hypothesis Hservice : keeps_heap service.

Let P : StepPolicy := Learning.policy upper format service.

Lemma policy_step_messages r s :
  (messages (heap s r) <> [] ->
   messages (heap (snd (process_step P r s)) r) <> []) /\
  session_id (heap (snd (process_step P r s)) r) = session_id (heap s r).
Proof.
  subst P. cbn [process_step Learning.policy]. unfold Learning.on_store.
  destruct (process_step_spec upper format service Hservice r (mkMachine s [])) as [Hc _].
  destruct (Learning.process_step upper format service r (mkMachine s [])) as [o m1].
  cbn [fst snd mem] in *.
  destruct (confined_fields _ _ _ _ _ Hc) as (_ & Hsid & _). cbn [mem] in Hsid.
  split; [| exact Hsid].
  destruct Hc as (_ & _ & _ & (extra & Hm & _) & _). cbn [mem] in Hm.
  rewrite Hm. intros Hne Happ. apply app_eq_nil in Happ. tauto.
Qed.

(** When the loop returns, it returns its context, on which the agent has
    nothing more to do. *)
Lemma learning_loop_returns fuel :
  forall r m res m2,
    _execute_loop P fuel r m = (Ret res, m2) ->
    messages (heap (mem m) r) <> [] ->
    res = r /\ settled r (mem m2) /\ messages (heap (mem m2) r) <> [] /\
    session_id (heap (mem m2) r) = session_id (heap (mem m) r).
Proof.
  induction fuel as [|fuel IH]; intros r m res m2 E Hne.
  - discriminate.
  - cbn [_execute_loop] in E. unfold bind at 1 in E. unfold call_should_continue in E.
    replace (should_continue P) with LearningAgent.should_continue in E by reflexivity.
    destruct (should_continue_cases r (mem m)) as (b & Hb & _ & _ & _ & Htrue).
    pose proof (should_continue_false_settled r (mem m)) as Hset.
    pose proof (should_continue_messages r (mem m)) as Hmsg.
    pose proof (should_continue_session r (mem m)) as Hsid.
    destruct (LearningAgent.should_continue r (mem m)) as [ob s]. cbn [fst snd] in *.
    subst ob. cbn beta iota in E.
    destruct b.
    2: { unfold ret in E. injection E as <- <-. cbn [mem].
         split; [reflexivity |]. split; [exact (Hset eq_refl) |].
         split; [congruence | exact Hsid]. }
    destruct (Htrue eq_refl) as [-> _].
    unfold bind at 1 in E. unfold read at 1 in E. cbn beta iota in E.
    unfold bind at 1 in E. unfold read at 1 in E. cbn beta iota in E. cbn [mem] in E.
    destruct (max_iterations (heap (mem m) r) <=? iteration (heap (mem m) r)).
    { unfold bind, read, raise in E. discriminate. }
    unfold bind at 1 in E. unfold call_process_step in E. cbn [mem trace] in E.
    destruct (policy_step upper format service Hservice r (mem m))
      as (_ & _ & _ & Hsame & _).
    destruct (policy_step_messages r (mem m)) as [Hne1 Hsid1]. specialize (Hne1 Hne).
    fold P in Hsame.
    destruct (process_step P r (mem m)) as [[r'|e|] s']; cbn [fst snd] in *;
      cbn beta iota in E; try discriminate.
    rewrite (Hsame r' eq_refl) in E.
    unfold bind at 1 in E. unfold assign in E. cbn [mem trace] in E. cbn beta iota in E.
    set (m1 := mkMachine _ _) in E.
    assert (Hne' : messages (heap (mem m1) r) <> [])
      by (subst m1; cbn [mem]; rewrite heap_update_same; exact Hne1).
    destruct (IH r m1 res m2 E Hne') as (Hres & Hset2 & Hne2 & Hsid2).
    split; [exact Hres |]. split; [exact Hset2 |]. split; [exact Hne2 |].
    rewrite Hsid2. subst m1. cbn [mem]. rewrite heap_update_same. exact Hsid1.
Qed.

(** [execute], under a positive deadline, on a context on which the
    agent has nothing more to do. *)
Lemma execute_settled fuel input r timeout m :
  settled r (mem m) ->
  messages (heap (mem m) r) <> [] ->
  0 < timeout_or_default settings timeout ->
  let out := execute settings P (S fuel) input (Some r) timeout m in
  fst out = Ret r /\
  trace (snd out) = (trace m ++ [ShouldContinue r])%list /\
  heap (mem (snd out)) r
    = with_end_time (Some (clock (mem m) 1%nat))
        (with_state COMPLETED
           (with_start_time (Some (clock (mem m) 0%nat)) (heap (mem m) r))).
Proof.
  intros Hset Hne HT. cbn zeta. rewrite execute_unfold. cbn [context_of].
  rewrite (prologue_nonempty settings input r m Hne). cbn [snd].
  set (m1 := mkMachine _ (trace m)).
  assert (Hset1 : settled r (mem m1)).
  { apply (settled_ext r (mem m)); [exact Hset | | | |];
      subst m1; cbn [mem]; rewrite heap_update_same; cbn [heap];
      rewrite heap_update_same; reflexivity. }
  assert (Eloop : wait_for (timeout_or_default settings timeout) (_execute_loop P (S fuel) r) m1
                  = (Ret r, mkMachine (mem m1) (trace m1 ++ [ShouldContinue r]))).
  { rewrite wait_for_positive by exact HT.
    cbn [_execute_loop]. unfold bind at 1. unfold call_should_continue.
    replace (should_continue P) with LearningAgent.should_continue by reflexivity.
    rewrite Hset1. reflexivity. }
  unfold execute_guarded, try_except.
  rewrite (execute_try_after_loop settings P (S fuel) r timeout m1 r _ Eloop). cbn [mem trace].
  assert (Hst : start_time (heap (mem m1) r) = Some (clock (mem m) 0%nat))
    by (subst m1; cbn [mem]; rewrite heap_update_same; reflexivity).
  rewrite Hst. cbn [fst snd mem trace].
  split; [reflexivity |]. split; [reflexivity |].
  rewrite heap_update_same. cbn [heap]. rewrite heap_update_same.
  subst m1. cbn [mem clock]. rewrite heap_update_same. cbn [heap].
  rewrite heap_update_same. reflexivity.
Qed.

End LearningRunOver.

(** X21.  A context that a run of the learning agent has completed is
    finished for good.  When [execute] has returned on it, a further
    [execute] on the same context under a positive deadline, whatever its
    input, returns at the first pass of the loop: it makes no call of
    [process_step], adds no message (the new input is not recorded, the
    history not being empty), and leaves the variables and the counter as
    they were. *)
Theorem completed_learning_run_is_final :
  forall (settings : Config.Settings) (upper : string -> string) (format : pyval -> string)
         (service : string -> option string -> store -> outcome (list (string * pyval)) * store)
         (fuel : nat) (input : string) (r : ref) (timeout : option Z) (m : machine)
         (res : ref) (fuel' : nat) (input' : string) (timeout' : option Z),
    keeps_heap service ->
    fst (execute settings (Learning.policy upper format service) fuel input (Some r)
                 timeout m) = Ret res ->
    0 < timeout_or_default settings timeout' ->
    let m' := snd (execute settings (Learning.policy upper format service) fuel input
                           (Some r) timeout m) in
    let out := execute settings (Learning.policy upper format service) (S fuel') input'
                       (Some r) timeout' m' in
    res = r /\
    fst out = Ret r /\
    process_step_calls (trace (snd out)) = process_step_calls (trace m') /\
    messages (heap (mem (snd out)) r) = messages (heap (mem m') r) /\
    variables (heap (mem (snd out)) r) = variables (heap (mem m') r) /\
    iteration (heap (mem (snd out)) r) = iteration (heap (mem m') r).
Proof.
  intros settings upper format service fuel input r timeout m res fuel' input' timeout'
         Hs Hret HT. cbn zeta.
  destruct (execute settings (Learning.policy upper format service) fuel input (Some r)
                    timeout m) as [o m'] eqn:E1.
  cbn [fst snd] in *. subst o.
  rewrite execute_unfold in E1. cbn [context_of] in E1.
  destruct (prologue_fields settings input r m) as (_ & _ & _ & Hmsgs & _).
  set (m1 := snd (execute_prologue settings input (Some r) m)) in *.
  assert (Hne1 : messages (heap (mem m1) r) <> [])
    by (rewrite Hmsgs; destruct (messages (heap (mem m) r)); discriminate).
  destruct (execute_guarded_returns settings _ fuel r timeout m1 res m' E1)
    as (m2 & Eloop & _ & _ & Hheap & _).
  destruct (learning_loop_returns upper format service Hs fuel r m1 res m2 Eloop Hne1)
    as (-> & Hset & Hne2 & _).
  assert (Hset' : settled r (mem m'))
    by (apply (settled_ext r (mem m2)); [exact Hset | | | |]; rewrite Hheap; reflexivity).
  assert (Hne' : messages (heap (mem m') r) <> []) by (rewrite Hheap; exact Hne2).
  destruct (execute_settled settings upper format service fuel' input' r timeout' m'
              Hset' Hne' HT) as (Hout & Htr & Hh).
  split; [reflexivity |]. split; [exact Hout |].
  rewrite Htr, Hh, process_step_calls_app. cbn.
  split; [lia |]. repeat split; reflexivity.
Qed.

Lemma completed_learning_run_is_final_witness :
  keeps_heap Sample3.agreeable /\
  fst (execute Sample.settings
               (Learning.policy (fun s => s) (fun _ => "") Sample3.agreeable)
               5 "hi" (Some 0%nat) None
               (Sample.machine_of (Sample.context IDLE 0))) = Ret 0%nat /\
  0 < timeout_or_default Sample.settings None /\
  fst (execute Sample.settings
               (Learning.policy (fun s => s) (fun _ => "") Sample3.agreeable)
               1 "and now?" (Some 0%nat) None
               (snd (execute Sample.settings
                             (Learning.policy (fun s => s) (fun _ => "") Sample3.agreeable)
                             5 "hi" (Some 0%nat) None
                             (Sample.machine_of (Sample.context IDLE 0))))) = Ret 0%nat.
Proof.
  assert (Hret : fst (execute Sample.settings
                        (Learning.policy (fun s => s) (fun _ => "") Sample3.agreeable)
                        5 "hi" (Some 0%nat) None
                        (Sample.machine_of (Sample.context IDLE 0))) = Ret 0%nat)
    by (vm_compute; reflexivity).
  assert (HT : 0 < timeout_or_default Sample.settings None) by (cbn; lia).
  split; [exact agreeable_keeps_heap |]. split; [exact Hret |]. split; [exact HT |].
  destruct (completed_learning_run_is_final
              Sample.settings (fun s => s) (fun _ => "") Sample3.agreeable
              5 "hi" 0%nat None (Sample.machine_of (Sample.context IDLE 0))
              0%nat 0%nat "and now?" None agreeable_keeps_heap Hret HT) as (_ & Hout & _).
  exact Hout.
Defined.

(** ** [ask_question] *)

Section Asking.

Variable settings : Config.Settings.
Variable P : StepPolicy.

(** [ask_question], from what [execute] does. *)
Lemma ask_question_unfold fuel question sid a :
  ask_question settings P fuel question sid a =
    match execute settings P fuel question (known_context sid a) None (engine a) with
    | (Ret r, m) =>
        (Ret (answer_of (heap (mem m) r)),
         mkAgent m (Some (<[session_id (heap (mem m) r) := r]>
                            (default ∅ (_active_contexts a)))))
    | (Raise e, m) => (Raise e, mkAgent m (_active_contexts a))
    | (OutOfFuel, m) => (OutOfFuel, mkAgent m (_active_contexts a))
    end.
Proof.
  unfold ask_question, bind, on_engine, read, keep_context, ret.
  destruct (execute settings P fuel question (known_context sid a) None (engine a))
    as [[r|e|] m]; reflexivity.
Qed.

(** [execute] returns only under a positive deadline. *)
Lemma execute_returns_in_time fuel input context timeout m res m' :
  execute settings P fuel input context timeout m = (Ret res, m') ->
  0 < timeout_or_default settings timeout.
Proof.
  rewrite execute_unfold. apply execute_guarded_returns_in_time.
Qed.

(** What [execute] raises is an [AgentExecutionError] or an
    [AgentTimeoutError]. *)
Lemma execute_raises_agent_error fuel input context timeout m e :
  fst (execute settings P fuel input context timeout m) = Raise e ->
  exists cls message details,
    e = GenAIAssistantError cls message details /\
    (cls = AgentExecutionError \/ cls = AgentTimeoutError).
Proof.
  rewrite execute_unfold.
  set (r := context_of context m). set (m1 := snd (execute_prologue _ _ _ _)).
  destruct (wait_for (timeout_or_default settings timeout) (_execute_loop P fuel r) m1)
    as [o m2] eqn:Eloop.
  destruct (execute_guarded_outcome settings P fuel r timeout m1 o m2 Eloop) as (_ & _ & Hraise).
  intros He. destruct (Hraise e He) as (e0 & m3 & Hex & _).
  assert (Hc : (exists text, e0 = TimeoutError text) \/ (forall text, e0 <> TimeoutError text)).
  { destruct e0; try (right; intros; discriminate). left. eexists. reflexivity. }
  destruct Hc as [[text ->] | Hnt].
  - destruct (execute_except_timeout r (timeout_or_default settings timeout) text m3)
      as (Hform & _).
    rewrite Hform in Hex. injection Hex as <-. eauto 6.
  - destruct (execute_except_failure r (timeout_or_default settings timeout) e0 m3 Hnt)
      as (Hform & _).
    rewrite Hform in Hex. injection Hex as <-. eauto 6.
Qed.

End Asking.

(** X22.  Whatever the step policy does, a question that fails fails with
    an [AgentExecutionError] or an [AgentTimeoutError], and the sessions
    the agent keeps are as they were.  The [/ask] route therefore answers
    every failure of [ask_question] with status 500, the message and the
    details of that error: its clause for [BedrockError], status 503, is
    never the one taken. *)
Theorem ask_question_fails_with_agent_error :
  forall (settings : Config.Settings) (P : StepPolicy) (fuel : nat) (question : string)
         (sid : option string) (a : agent) (e : exn),
    fst (ask_question settings P fuel question sid a) = Raise e ->
    (exists cls message details,
        e = GenAIAssistantError cls message details /\
        (cls = AgentExecutionError \/ cls = AgentTimeoutError) /\
        ask_route_except e
          = mkHTTPException 500 [("error", PStr message); ("details", PDict details)]) /\
    _active_contexts (snd (ask_question settings P fuel question sid a))
      = _active_contexts a.
Proof.
  intros settings P fuel question sid a e. rewrite ask_question_unfold.
  pose proof (execute_raises_agent_error settings P fuel question (known_context sid a)
                None (engine a)) as Hagent.
  destruct (execute settings P fuel question (known_context sid a) None (engine a))
    as [[r|e0|] m]; cbn [fst snd]; intros He; try discriminate.
  injection He as ->. split; [| reflexivity].
  destruct (Hagent e eq_refl) as (cls & message & details & -> & Hcls).
  exists cls, message, details. split; [reflexivity |]. split; [exact Hcls |].
  destruct Hcls as [-> | ->]; reflexivity.
Qed.

Lemma ask_question_fails_with_agent_error_witness :
  fst (ask_question Sample.settings Sample.failing 3 "hi" None
         (new_agent (Sample.machine_of (Sample.context IDLE 0))))
    = Raise (GenAIAssistantError AgentExecutionError "Strand execution failed: bad input"
               [("strand_id", PStr "id-0"); ("error", PStr "bad input")]) /\
  _active_contexts
    (snd (ask_question Sample.settings Sample.failing 3 "hi" None
            (new_agent (Sample.machine_of (Sample.context IDLE 0))))) = None.
Proof.
  assert (Hraise : fst (ask_question Sample.settings Sample.failing 3 "hi" None
                          (new_agent (Sample.machine_of (Sample.context IDLE 0))))
                   = Raise (GenAIAssistantError AgentExecutionError
                              "Strand execution failed: bad input"
                              [("strand_id", PStr "id-0"); ("error", PStr "bad input")]))
    by (vm_compute; reflexivity).
  split; [exact Hraise |].
  exact (proj2 (ask_question_fails_with_agent_error
                  Sample.settings Sample.failing 3 "hi" None
                  (new_agent (Sample.machine_of (Sample.context IDLE 0))) _ Hraise)).
Defined.

Section LearningAsk.

Variable settings : Config.Settings.
Variable upper : string -> string.
Variable format : pyval -> string.
Variable service : string -> option string -> store -> outcome (list (string * pyval)) * store.
Hypothesis Hservice : keeps_heap service.

Let P : StepPolicy := Learning.policy upper format service.

(** The context after the prologue of [execute]. *)
Lemma prologue_session input context m :
  let m1 := snd (execute_prologue settings input context m) in
  let r := context_of context m in
  messages (heap (mem m1) r) <> [] /\
  session_id (heap (mem m1) r)
    = match context with
      | Some r0 => session_id (heap (mem m) r0)
      | None => uuids (mem m) 1%nat
      end.
Proof.
  destruct context as [r|]; cbn zeta; cbn [context_of].
  - destruct (prologue_fields settings input r m)
      as (_ & _ & _ & Hmsgs & _ & _ & _ & _ & _ & Hsid & _).
    split; [| exact Hsid].
    rewrite Hmsgs. destruct (messages (heap (mem m) r)); discriminate.
  - unfold execute_prologue, new_context, bind, ret, read, uuid4, alloc, add_message,
      utcnow, assign, update. cbn.
    destruct (decide (next_ref (mem m) = next_ref (mem m))) as [_|Hne]; [| congruence]. cbn.
    destruct (decide (next_ref (mem m) = next_ref (mem m))) as [_|Hne]; [| congruence].
    split; [discriminate | reflexivity].
Qed.

(** When a run of the learning agent returns, it returns the context it
    worked on, on which the agent has nothing more to do. *)
Lemma learning_execute_returns fuel input context timeout m res m' :
  execute settings P fuel input context timeout m = (Ret res, m') ->
  res = context_of context m /\
  settled res (mem m') /\
  messages (heap (mem m') res) <> [] /\
  session_id (heap (mem m') res)
    = match context with
      | Some r0 => session_id (heap (mem m) r0)
      | None => uuids (mem m) 1%nat
      end.
Proof.
  intros E. rewrite execute_unfold in E.
  destruct (prologue_session input context m) as (Hne1 & Hsid1).
  set (m1 := snd (execute_prologue settings input context m)) in *.
  set (r := context_of context m) in *.
  destruct (execute_guarded_returns settings P fuel r timeout m1 res m' E)
    as (m2 & Eloop & _ & _ & Hheap & _).
  destruct (learning_loop_returns upper format service Hservice fuel r m1 res m2 Eloop Hne1)
    as (-> & Hset & Hne2 & Hsid2).
  split; [reflexivity |].
  split; [apply (settled_ext r (mem m2)); [exact Hset | | | |]; rewrite Hheap; reflexivity |].
  rewrite Hheap. cbn [messages session_id with_end_time with_state].
  split; [exact Hne2 |]. rewrite Hsid2. exact Hsid1.
Qed.

(** A question, under a positive deadline, on a session the agent has
    nothing more to do on. *)
Lemma ask_settled fuel question key r a known :
  _active_contexts a = Some known ->
  known !! key = Some r ->
  key <> "" ->
  session_id (heap (mem (engine a)) r) = key ->
  settled r (mem (engine a)) ->
  messages (heap (mem (engine a)) r) <> [] ->
  0 < Config.agent_timeout settings ->
  let out := ask_question settings P (S fuel) question (Some key) a in
  fst out = Ret (answer_of (heap (mem (engine a)) r)) /\
  _active_contexts (snd out) = Some known /\
  trace (engine (snd out)) = (trace (engine a) ++ [ShouldContinue r])%list.
Proof.
  intros Hknown Hr Hkey Hsid Hset Hne HT. cbn zeta. rewrite ask_question_unfold.
  assert (Hctx : known_context (Some key) a = Some r).
  { unfold known_context. rewrite Hknown.
    destruct (String.eqb_spec key ""); [contradiction | exact Hr]. }
  rewrite Hctx.
  destruct (execute_settled settings upper format service fuel question r None (engine a)
              Hset Hne HT) as (Hout & Htr & Hh).
  fold P in Hout, Htr, Hh.
  destruct (execute settings P (S fuel) question (Some r) None (engine a)) as [o m].
  cbn [fst snd] in *. subst o. cbn [fst snd engine _active_contexts].
  rewrite Hh. cbn [session_id with_end_time with_state with_start_time].
  split; [reflexivity |]. split; [| exact Htr].
  rewrite Hsid, Hknown. cbn [from_option id]. f_equal.
  apply insert_id. exact Hr.
Qed.

End LearningAsk.

Lemma answer_session c : dict_get "session_id" (answer_of c) = Some (PStr (session_id c)).
Proof. reflexivity. Qed.

(** X23.  A session identifier that the agent does not know, or an empty
    one, or any identifier before the first question has been answered,
    is not used: the learning agent starts on a new context, and the
    answer carries the session identifier of that context, a fresh
    [uuid4] value, under which the context is kept from then on. *)
Theorem unknown_session_starts_a_new_one :
  forall (settings : Config.Settings) (upper : string -> string) (format : pyval -> string)
         (service : string -> option string -> store -> outcome (list (string * pyval)) * store)
         (fuel : nat) (question : string) (sid : option string) (a : agent)
         (response : list (string * pyval)),
    keeps_heap service ->
    known_context sid a = None ->
    fst (ask_question settings (Learning.policy upper format service) fuel question sid a)
      = Ret response ->
    let a' := snd (ask_question settings (Learning.policy upper format service) fuel
                                question sid a) in
    let fresh := uuids (mem (engine a)) 1%nat in
    let r := next_ref (mem (engine a)) in
    dict_get "session_id" response = Some (PStr fresh) /\
    _active_contexts a' = Some (<[fresh := r]> (default ∅ (_active_contexts a))) /\
    response = answer_of (heap (mem (engine a')) r).
Proof.
  intros settings upper format service fuel question sid a response Hs Hknown Hret.
  cbn zeta. revert Hret. rewrite ask_question_unfold, Hknown.
  destruct (execute settings (Learning.policy upper format service) fuel question None None
                    (engine a)) as [[res|e|] m'] eqn:E;
    cbn [fst snd]; intros Hret; try discriminate.
  injection Hret as <-.
  destruct (learning_execute_returns settings upper format service Hs fuel question None None
              (engine a) res m' E) as (-> & _ & _ & Hsid).
  cbn [context_of] in *. cbn [engine _active_contexts]. rewrite answer_session, Hsid.
  split; [reflexivity |]. split; reflexivity.
Qed.

Lemma unknown_session_starts_a_new_one_witness :
  keeps_heap Sample3.agreeable /\
  known_context (Some "session-9") (new_agent (Sample.machine_of (Sample.context IDLE 0)))
    = None /\
  fst (ask_question Sample.settings
         (Learning.policy (fun s => s) (fun _ => "") Sample3.agreeable)
         12 "hi" (Some "session-9")
         (new_agent (Sample.machine_of (Sample.context IDLE 0))))
    = Ret [("answer", PStr "ok"); ("session_id", PStr "id-1"); ("strand_id", PStr "id-0");
           ("learning_goal", PStr "concept_explanation"); ("iteration", PInt 10);
           ("complete", PBool false)] /\
  _active_contexts
    (snd (ask_question Sample.settings
            (Learning.policy (fun s => s) (fun _ => "") Sample3.agreeable)
            12 "hi" (Some "session-9")
            (new_agent (Sample.machine_of (Sample.context IDLE 0)))))
    = Some (<["id-1" := 1%nat]> ∅).
Proof.
  assert (Hret : fst (ask_question Sample.settings
                        (Learning.policy (fun s => s) (fun _ => "") Sample3.agreeable)
                        12 "hi" (Some "session-9")
                        (new_agent (Sample.machine_of (Sample.context IDLE 0))))
                 = Ret [("answer", PStr "ok"); ("session_id", PStr "id-1");
                        ("strand_id", PStr "id-0");
                        ("learning_goal", PStr "concept_explanation");
                        ("iteration", PInt 10); ("complete", PBool false)])
    by (vm_compute; reflexivity).
  split; [exact agreeable_keeps_heap |]. split; [reflexivity |]. split; [exact Hret |].
  destruct (unknown_session_starts_a_new_one
              Sample.settings (fun s => s) (fun _ => "") Sample3.agreeable
              12 "hi" (Some "session-9")
              (new_agent (Sample.machine_of (Sample.context IDLE 0)))
              _ agreeable_keeps_heap eq_refl Hret) as (_ & Hkept & _).
  exact Hkept.
Defined.

(** X24.  A session of the learning agent answers one question.  When a
    question has been answered, a further question asked with the session
    identifier of that answer gets the same answer again, field for
    field: the new question is not recorded, the model is not called, and
    the sessions the agent keeps are as they were. *)
Theorem follow_up_question_repeats_answer :
  forall (settings : Config.Settings) (upper : string -> string) (format : pyval -> string)
         (service : string -> option string -> store -> outcome (list (string * pyval)) * store)
         (fuel : nat) (question : string) (sid : option string) (a : agent)
         (response : list (string * pyval)) (key : string)
         (fuel' : nat) (question' : string),
    keeps_heap service ->
    fst (ask_question settings (Learning.policy upper format service) fuel question sid a)
      = Ret response ->
    dict_get "session_id" response = Some (PStr key) ->
    key <> "" ->
    let a' := snd (ask_question settings (Learning.policy upper format service) fuel
                                question sid a) in
    let out := ask_question settings (Learning.policy upper format service) (S fuel')
                            question' (Some key) a' in
    fst out = Ret response /\
    _active_contexts (snd out) = _active_contexts a' /\
    process_step_calls (trace (engine (snd out))) = process_step_calls (trace (engine a')).
Proof.
  intros settings upper format service fuel question sid a response key fuel' question'
         Hs Hret Hkey Hne. cbn zeta.
  destruct (ask_question settings (Learning.policy upper format service) fuel question sid a)
    as [o a'] eqn:E1.
  cbn [fst snd] in *. subst o. rewrite ask_question_unfold in E1.
  destruct (execute settings (Learning.policy upper format service) fuel question
                    (known_context sid a) None (engine a)) as [[r|e|] m'] eqn:E;
    try discriminate.
  injection E1 as <- <-.
  destruct (learning_execute_returns settings upper format service Hs fuel question
              (known_context sid a) None (engine a) r m' E) as (_ & Hset & Hnem & _).
  assert (Hsid : session_id (heap (mem m') r) = key)
    by (rewrite answer_session in Hkey; congruence).
  set (known := <[session_id (heap (mem m') r) := r]> (default ∅ (_active_contexts a))).
  assert (Hr : known !! key = Some r) by (subst known; rewrite Hsid; apply lookup_insert_eq).
  destruct (ask_settled settings upper format service fuel' question' key r
              (mkAgent m' (Some known)) known eq_refl Hr Hne Hsid Hset Hnem
              (execute_returns_in_time settings _ fuel question (known_context sid a) None
                 (engine a) r m' E))
    as (Hout & Hkept & Htr).
  split; [exact Hout |]. split; [exact Hkept |].
  rewrite Htr, process_step_calls_app. cbn. lia.
Qed.

Lemma follow_up_question_repeats_answer_witness :
  keeps_heap Sample3.agreeable /\
  fst (ask_question Sample.settings
         (Learning.policy (fun s => s) (fun _ => "") Sample3.agreeable)
         12 "hi" None (new_agent (Sample.machine_of (Sample.context IDLE 0))))
    = Ret [("answer", PStr "ok"); ("session_id", PStr "id-1"); ("strand_id", PStr "id-0");
           ("learning_goal", PStr "concept_explanation"); ("iteration", PInt 10);
           ("complete", PBool false)] /\
  fst (ask_question Sample.settings
         (Learning.policy (fun s => s) (fun _ => "") Sample3.agreeable)
         1 "and what is a loop?" (Some "id-1")
         (snd (ask_question Sample.settings
                 (Learning.policy (fun s => s) (fun _ => "") Sample3.agreeable)
                 12 "hi" None (new_agent (Sample.machine_of (Sample.context IDLE 0))))))
    = Ret [("answer", PStr "ok"); ("session_id", PStr "id-1"); ("strand_id", PStr "id-0");
           ("learning_goal", PStr "concept_explanation"); ("iteration", PInt 10);
           ("complete", PBool false)].
Proof.
  assert (Hret : fst (ask_question Sample.settings
                        (Learning.policy (fun s => s) (fun _ => "") Sample3.agreeable)
                        12 "hi" None
                        (new_agent (Sample.machine_of (Sample.context IDLE 0))))
                 = Ret [("answer", PStr "ok"); ("session_id", PStr "id-1");
                        ("strand_id", PStr "id-0");
                        ("learning_goal", PStr "concept_explanation");
                        ("iteration", PInt 10); ("complete", PBool false)])
    by (vm_compute; reflexivity).
  assert (Hne : "id-1" <> "") by discriminate.
  split; [exact agreeable_keeps_heap |]. split; [exact Hret |].
  destruct (follow_up_question_repeats_answer
              Sample.settings (fun s => s) (fun _ => "") Sample3.agreeable
              12 "hi" None (new_agent (Sample.machine_of (Sample.context IDLE 0)))
              _ "id-1" 0%nat "and what is a loop?"
              agreeable_keeps_heap Hret eq_refl Hne) as (Hout & _).
  exact Hout.
Defined.

(** ** [cors_origins_list] *)

Lemma list_of_append a b :
  list_ascii_of_string (a ++ b) = (list_ascii_of_string a ++ list_ascii_of_string b)%list.
Proof.
  induction a as [|c a IH]; [reflexivity |].
  rewrite append_cons. cbn [list_ascii_of_string]. rewrite IH. reflexivity.
Qed.

Lemma string_of_app l1 l2 :
  string_of_list_ascii (l1 ++ l2)%list = string_of_list_ascii l1 ++ string_of_list_ascii l2.
Proof.
  induction l1 as [|c l1 IH]; [reflexivity |].
  cbn [app string_of_list_ascii]. rewrite IH, append_cons. reflexivity.
Qed.

Lemma reverse_involutive s : PyStr.reverse (PyStr.reverse s) = s.
Proof.
  unfold PyStr.reverse.
  rewrite list_ascii_of_string_of_list_ascii, rev_involutive.
  apply string_of_list_ascii_of_string.
Qed.

Lemma reverse_cons c s : PyStr.reverse (String c s) = PyStr.reverse s ++ String c "".
Proof.
  unfold PyStr.reverse. cbn [list_ascii_of_string rev]. now rewrite string_of_app.
Qed.

Lemma reverse_snoc c s : PyStr.reverse (s ++ String c "") = String c (PyStr.reverse s).
Proof.
  unfold PyStr.reverse. rewrite list_of_append, rev_app_distr. reflexivity.
Qed.

Lemma lstrip_starts_clean s : starts_clean (PyStr.lstrip s).
Proof.
  induction s as [|c s IH]; [exact I |].
  cbn [PyStr.lstrip]. destruct (PyStr.is_space c) eqn:E; [exact IH | exact E].
Qed.

Lemma lstrip_snoc c s :
  PyStr.is_space c = false ->
  PyStr.lstrip (s ++ String c "") = PyStr.lstrip s ++ String c "".
Proof.
  intros Hc. induction s as [|d s IH].
  - rewrite append_nil. cbn [PyStr.lstrip]. now rewrite Hc.
  - rewrite append_cons. cbn [PyStr.lstrip].
    destruct (PyStr.is_space d); [exact IH | now rewrite append_cons].
Qed.

Lemma rstrip_starts_clean s : starts_clean s -> starts_clean (PyStr.rstrip s).
Proof.
  destruct s as [|c s]; [intros _; exact I |].
  cbn [starts_clean]. intros Hc. unfold PyStr.rstrip.
  rewrite reverse_cons, (lstrip_snoc c _ Hc), reverse_snoc. exact Hc.
Qed.

Lemma strip_clean s : starts_clean (PyStr.strip s) /\ ends_clean (PyStr.strip s).
Proof.
  unfold PyStr.strip. split.
  - apply rstrip_starts_clean, lstrip_starts_clean.
  - unfold ends_clean, PyStr.rstrip. rewrite reverse_involutive. apply lstrip_starts_clean.
Qed.

Lemma occurrences_append c a b :
  occurrences c (a ++ b) = (occurrences c a + occurrences c b)%nat.
Proof.
  induction a as [|d a IH]; [reflexivity |].
  rewrite append_cons. cbn [occurrences]. rewrite IH. lia.
Qed.

Lemma occurrences_reverse c s : occurrences c (PyStr.reverse s) = occurrences c s.
Proof.
  induction s as [|d s IH]; [reflexivity |].
  rewrite reverse_cons, occurrences_append, IH. cbn [occurrences]. lia.
Qed.

Lemma occurrences_lstrip c s : occurrences c s = 0%nat -> occurrences c (PyStr.lstrip s) = 0%nat.
Proof.
  induction s as [|d s IH]; [reflexivity |].
  cbn [PyStr.lstrip]. destruct (PyStr.is_space d); [| tauto].
  cbn [occurrences]. intros H. apply IH. lia.
Qed.

Lemma occurrences_strip c s : occurrences c s = 0%nat -> occurrences c (PyStr.strip s) = 0%nat.
Proof.
  intros H. unfold PyStr.strip, PyStr.rstrip.
  rewrite occurrences_reverse. apply occurrences_lstrip.
  rewrite occurrences_reverse. now apply occurrences_lstrip.
Qed.

Lemma split_shape sep s :
  List.length (Cors.split sep s) = S (occurrences sep s) /\
  Forall (fun piece => occurrences sep piece = 0%nat) (Cors.split sep s).
Proof.
  induction s as [|c s [IHn IHf]].
  - split; [reflexivity |]. constructor; [reflexivity | constructor].
  - cbn [Cors.split occurrences]. destruct (Ascii.eqb c sep) eqn:E.
    + split; [cbn [List.length]; now rewrite IHn |]. constructor; [reflexivity | exact IHf].
    + destruct (Cors.split sep s) as [|piece rest]; [discriminate |].
      split; [exact IHn |].
      inversion IHf as [|? ? Hp Hr]; subst. constructor; [| exact Hr].
      cbn [occurrences]. now rewrite E, Hp.
Qed.

(** X25.  The list of CORS origins has one entry more than the setting
    has commas, so it is never empty: an empty setting gives one empty
    origin.  No entry contains a comma, and no entry begins or ends with
    white space. *)
Theorem cors_origins_list_shape :
  forall (cors_origins : string),
    List.length (Cors.cors_origins_list cors_origins) = S (occurrences "," cors_origins) /\
    Forall (fun origin =>
              occurrences "," origin = 0%nat /\ starts_clean origin /\ ends_clean origin)
           (Cors.cors_origins_list cors_origins).
Proof.
  intros cors_origins. unfold Cors.cors_origins_list.
  destruct (split_shape "," cors_origins) as [Hn Hf].
  split; [now rewrite length_map |].
  apply Forall_map. eapply Forall_impl; [exact Hf |].
  intros piece Hp. cbn.
  split; [now apply occurrences_strip | apply strip_clean].
Qed.

(** ** When the model cannot be reached *)

Section ModelFailure.

Variable upper : string -> string.
Variable format : pyval -> string.
Variable service : string -> option string -> store -> outcome (list (string * pyval)) * store.
Variable e : exn.
Hypothesis Hservice : keeps_heap service.
Hypothesis Hdown : forall prompt system s, fst (service prompt system s) = Raise e.

Lemma invoke_model_down prompt system m :
  fst (invoke_model (Learning.call_service service) prompt system m)
    = Raise (GenAIAssistantError AgentExecutionError
               ("Model invocation failed: " ++ str_exn e)
               [("error", PStr (str_exn e))]) /\
  heap (mem (snd (invoke_model (Learning.call_service service) prompt system m)))
    = heap (mem m).
Proof.
  unfold invoke_model, try_except, bind, Learning.call_service, raise.
  pose proof (Hdown prompt system (mem m)) as Hd.
  pose proof (Hservice prompt system (mem m)) as Hh.
  destruct (service prompt system (mem m)) as [o s]. cbn [fst snd] in *. subst o.
  cbn [fst snd mem]. split; [reflexivity | exact Hh].
Qed.

Lemma process_step_model_failure r m latest :
  last (filter (fun msg => role msg = "user") (messages (heap (mem m) r))) = Some latest ->
  let out := Learning.process_step upper format service r m in
  fst out =
    Raise (GenAIAssistantError AgentExecutionError
             ("Failed to process learning step: Model invocation failed: " ++ str_exn e)
             [("strand_id", PStr (strand_id (heap (mem m) r)));
              ("error", PStr ("Model invocation failed: " ++ str_exn e))]) /\
  strand_id (heap (mem (snd out)) r) = strand_id (heap (mem m) r) /\
  messages (heap (mem (snd out)) r) = messages (heap (mem m) r).
Proof.
  intros Hlast. cbn zeta.
  destruct (Learning.process_step upper format service r m) as [out mf] eqn:E.
  cbn [fst snd].
  unfold Learning.process_step, try_except, Learning.process_step_try in E.
  unfold bind at 1 in E. unfold read at 1 in E. cbn beta iota in E. rewrite Hlast in E.
  unfold bind at 1 in E. unfold read at 1 in E. cbn beta iota in E.
  unfold bind at 1 in E.
  set (first := match variables (heap (mem m) r) !! "learning_goal" with
                | Some goal => ret goal
                | None => _
                end) in E.
  assert (H1 : exists goal m1,
             first m = (Ret goal, m1) /\
             strand_id (heap (mem m1) r) = strand_id (heap (mem m) r) /\
             messages (heap (mem m1) r) = messages (heap (mem m) r)).
  { subst first. destruct (variables (heap (mem m) r) !! "learning_goal") as [goal|].
    - exists goal, m. repeat split.
    - eexists _, _. unfold bind, Learning.set_variable, assign, ret. split; [reflexivity |].
      cbn [mem]. rewrite heap_update_same. split; reflexivity. }
  destruct H1 as (goal & m1 & E1 & Hsid1 & Hmsg1). rewrite E1 in E.
  unfold bind at 1 in E. unfold read at 1 in E. cbn beta iota in E.
  unfold bind at 1 in E.
  destruct (invoke_model_down
              (Learning._build_learning_prompt upper format (heap (mem m1) r)
                                               (content latest) goal)
              (Some Learning.system_prompt) m1) as (Hraise & Hheap).
  destruct (invoke_model (Learning.call_service service) _ _ m1) as [o m2].
  cbn [fst snd] in *. subst o.
  unfold bind, read, raise in E. cbn [str_exn] in E. injection E as <- <-.
  rewrite Hheap, Hsid1, Hmsg1.
  repeat split; reflexivity.
Qed.

End ModelFailure.

(** The machine after the prologue of [execute] on a new context. *)
Lemma prologue_fresh settings input m :
  let m1 := snd (execute_prologue settings input None m) in
  heap (mem m1) (next_ref (mem m))
    = mkContext (uuids (mem m) 0%nat) (uuids (mem m) 1%nat) RUNNING
                [mkMessage "user" input (clock (mem m) 0%nat) ∅] ∅ 0
                (Config.max_iterations settings)
                (Some (clock (mem m) 1%nat)) None None /\
  trace m1 = trace m.
Proof.
  cbn zeta.
  unfold execute_prologue, new_context, bind, ret, read, uuid4, alloc, add_message,
    utcnow, assign, update. cbn.
  destruct (decide (next_ref (mem m) = next_ref (mem m))) as [_|Hne]; [| congruence]. cbn.
  destruct (decide (next_ref (mem m) = next_ref (mem m))) as [_|Hne]; [| congruence].
  split; reflexivity.
Qed.


Lemma offline_keeps_heap : keeps_heap Sample3.offline.
Proof. intros p sy s. reflexivity. Qed.


(** ** [invoke_agent] recovers *)

Section AgentRecovery.

Variable settings : Config.Settings.
Hypothesis Hconfigured :
  Bedrock.unset (Config.bedrock_agent_id settings)
    || Bedrock.unset (Config.bedrock_agent_alias_id settings) = false.

Variables (input_text session_id : string) (enable_trace : bool).

(** One run of the body on a connection error, and on an answer. *)
Lemma invoke_agent_body_connection_error n t :
  Bedrock.endpoint n 0%nat = Bedrock.Fault (ConnectionError t) ->
  Bedrock.invoke_agent_body settings input_text session_id enable_trace n
    = (Raise (ConnectionError t), after_calls "invoke_agent" 1 [] n).
Proof.
  intros He.
  pose proof (invoke_agent_body_one_call settings Hconfigured input_text session_id
                enable_trace n) as Hs.
  pose proof (invoke_agent_body_fault settings Hconfigured input_text session_id
                enable_trace n _ He) as Hf.
  destruct (Bedrock.invoke_agent_body _ _ _ _ n) as [o n1]. cbn [fst snd] in *. congruence.
Qed.

Lemma invoke_agent_body_answer n response events :
  Bedrock.endpoint n 0%nat = Bedrock.Answer (PDict response) ->
  dict_get "completion" response = Some (PList (map PDict events)) ->
  forallb well_formed_event events = true ->
  Bedrock.invoke_agent_body settings input_text session_id enable_trace n
    = (Ret (PDict [("completion", PStr (PyStr.join (map event_text events)));
                   ("traces", PList (event_traces enable_trace events));
                   ("session_id", PStr session_id)]),
       after_calls "invoke_agent" 1 [] n).
Proof.
  intros He Hev Hwf.
  pose proof (invoke_agent_body_one_call settings Hconfigured input_text session_id
                enable_trace n) as Hs.
  unfold Bedrock.invoke_agent_body in *. rewrite Hconfigured in *.
  unfold try_except, bind, Bedrock.call_endpoint, lift, ret in *. rewrite He in *.
  rewrite Hev in *. cbn [default from_option id iterate] in *.
  rewrite (agent_events_well_formed enable_trace events Hwf) in *.
  cbn [fst snd] in *. rewrite Hs. rewrite append_nil. reflexivity.
Qed.

End AgentRecovery.

(** X27.  [invoke_agent] recovers from connection errors.  When the first
    call of the endpoint fails with a connection error and the second
    answers, or the first two fail so and the third answers, the answer is
    returned as if it had come at once, after two calls and one delay of
    2 seconds, or three calls and two such delays. *)
Theorem invoke_agent_recovers_from_connection_errors :
  forall (settings : Config.Settings) (input_text session_id : string)
         (enable_trace : bool) (n : Bedrock.net) (response : list (string * pyval))
         (events : list (list (string * pyval))) (t0 : string),
    Bedrock.unset (Config.bedrock_agent_id settings)
      || Bedrock.unset (Config.bedrock_agent_alias_id settings) = false ->
    dict_get "completion" response = Some (PList (map PDict events)) ->
    forallb well_formed_event events = true ->
    Bedrock.endpoint n 0%nat = Bedrock.Fault (ConnectionError t0) ->
    let answer :=
      PDict [("completion", PStr (PyStr.join (map event_text events)));
             ("traces", PList (event_traces enable_trace events));
             ("session_id", PStr session_id)] in
    (Bedrock.endpoint n 1%nat = Bedrock.Answer (PDict response) ->
     Bedrock.invoke_agent settings input_text session_id enable_trace n
       = (Ret answer, after_calls "invoke_agent" 2 [2] n)) /\
    (forall t1,
        Bedrock.endpoint n 1%nat = Bedrock.Fault (ConnectionError t1) ->
        Bedrock.endpoint n 2%nat = Bedrock.Answer (PDict response) ->
        Bedrock.invoke_agent settings input_text session_id enable_trace n
          = (Ret answer, after_calls "invoke_agent" 3 [2; 2] n)).
Proof.
  intros settings input_text session_id enable_trace n response events t0 Hc Hev Hwf H0.
  cbn zeta. split.
  - intros H1. unfold Bedrock.invoke_agent. rewrite retry_unfold.
    rewrite (invoke_agent_body_connection_error settings Hc _ _ _ n t0 H0).
    cbn [Bedrock.retry_if_exception_type].
    rewrite (invoke_agent_body_answer settings Hc _ _ _ _ response events)
      by (cbn; assumption).
    f_equal. unfold after_calls, Bedrock.sleep. cbn.
    rewrite !app_nil_r, <- !app_assoc. reflexivity.
  - intros t1 H1 H2. unfold Bedrock.invoke_agent. rewrite retry_unfold.
    rewrite (invoke_agent_body_connection_error settings Hc _ _ _ n t0 H0).
    cbn [Bedrock.retry_if_exception_type].
    rewrite (invoke_agent_body_connection_error settings Hc _ _ _ _ t1)
      by (cbn; exact H1).
    cbn [Bedrock.retry_if_exception_type].
    rewrite (invoke_agent_body_answer settings Hc _ _ _ _ response events)
      by (cbn; assumption).
    f_equal. unfold after_calls, Bedrock.sleep. cbn.
    rewrite !app_nil_r, <- !app_assoc. reflexivity.
Qed.

Lemma invoke_agent_recovers_from_connection_errors_witness :
  forallb well_formed_event Sample3.events = true /\
  Bedrock.endpoint (Sample.flaky (PDict Sample3.completion)) 0%nat
    = Bedrock.Fault (ConnectionError "connection reset") /\
  Bedrock.invoke_agent Sample3.configured "hi" "session-9" true
                       (Sample.flaky (PDict Sample3.completion))
    = (Ret (PDict [("completion", PStr "Hello");
                   ("traces", PList [PStr "step 1"; PStr "step 2"]);
                   ("session_id", PStr "session-9")]),
       after_calls "invoke_agent" 3 [2; 2] (Sample.flaky (PDict Sample3.completion))).
Proof.
  split; [reflexivity |]. split; [reflexivity |].
  exact (proj2 (invoke_agent_recovers_from_connection_errors
                  Sample3.configured "hi" "session-9" true
                  (Sample.flaky (PDict Sample3.completion)) Sample3.completion
                  Sample3.events "connection reset" eq_refl eq_refl eq_refl eq_refl)
               "connection reset" eq_refl eq_refl).
Defined.
